(** * Job discovery and enrichment pipeline: a shallow embedding

    The development follows the TypeScript sources of the repository:

    - the error taxonomy of [utils/errorHandler.ts] ([AppError] and its
      subclasses) and the constants of [config];
    - [RateLimiterService] of [services/rateLimiter.ts];
    - [BrowserCache] and [CacheService];
    - [JobScraperService] of [services/jobScraper.ts];
    - [ATSOptimizerService].

    Modelling conventions.  A JavaScript string is a [string] holding the
    UTF-8 bytes of the text; all the patterns the code searches for are
    ASCII except the bullet sign, whose three bytes are searched for as
    a block.  [toLowerCase] is the host's: the definitions take it
    from a [JsString.Host], of which only the behaviour on ASCII text is
    assumed.  [Date.now()] is an explicit argument (milliseconds, in [Z]).
    A [Map] is a [gmap], a [Set<string>] is a [gset string].  Numbers whose
    computation is exact in double precision are integers ([Z]) or
    rationals ([Q]); wherever the code divides, the IEEE-754 binary64
    operations of [SpecFloat] are used. *)

From Stdlib Require Import ZArith QArith Qminmax Lia Bool Ascii String List.
From Stdlib Require Import DecimalString.
From Stdlib Require DecimalPos DecimalZ.
From Stdlib Require SpecFloat.
From stdpp Require Import gmap strings list fin_maps.
Import ListNotations.

#[local] Open Scope string_scope.
#[local] Open Scope Z_scope.

(** ** JavaScript strings *)

Module JsString.

Definition isUpper (c : ascii) : bool :=
  let n := nat_of_ascii c in (65 <=? n)%nat && (n <=? 90)%nat.

Definition isLower (c : ascii) : bool :=
  let n := nat_of_ascii c in (97 <=? n)%nat && (n <=? 122)%nat.

Definition isDigit (c : ascii) : bool :=
  let n := nat_of_ascii c in (48 <=? n)%nat && (n <=? 57)%nat.

Definition lowerChar (c : ascii) : ascii :=
  if isUpper c then ascii_of_nat (nat_of_ascii c + 32) else c.

(** [s.toLowerCase()] for a text of ASCII characters: the letters A to Z
    are lowered, every other character is kept. *)
Fixpoint toLowerCaseAscii (s : string) : string :=
  match s with
  | EmptyString => EmptyString
  | String c s' => String (lowerChar c) (toLowerCaseAscii s')
  end.

(** A text of ASCII characters only. *)
Fixpoint isAscii (s : string) : bool :=
  match s with
  | EmptyString => true
  | String c s' => (nat_of_ascii c <? 128)%nat && isAscii s'
  end.

(** The host's [String.prototype.toLowerCase].  It lowers every cased
    character of Unicode, by tables that are the host's and not the
    program's; what is used of it is stated here: on a text of ASCII
    characters it lowers the letters A to Z and keeps the rest. *)
Class Host := {
  toLowerCase : string -> string;
  toLowerCase_ascii : forall s, isAscii s = true -> toLowerCase s = toLowerCaseAscii s }.

(** The host that lowers the letters A to Z in every text; it serves
    where a result is computed for a given ASCII text. *)
Definition asciiHost : Host :=
  {| toLowerCase := toLowerCaseAscii;
     toLowerCase_ascii := fun s _ => eq_refl |}.

(** [s.startsWith(p)] *)
Fixpoint startsWith (p s : string) : bool :=
  match p, s with
  | EmptyString, _ => true
  | String _ _, EmptyString => false
  | String a p', String b s' => if Ascii.eqb a b then startsWith p' s' else false
  end.

(** [s.includes(needle)] *)
Fixpoint includes (needle s : string) : bool :=
  match s with
  | EmptyString => startsWith needle EmptyString
  | String _ s' => startsWith needle s || includes needle s'
  end.

(** [s.split(' ')] *)
Fixpoint splitSpaces (s : string) : list string :=
  match s with
  | EmptyString => [EmptyString]
  | String c s' =>
      if Ascii.eqb c " "%char then EmptyString :: splitSpaces s'
      else match splitSpaces s' with
           | w :: ws => String c w :: ws
           | [] => [String c EmptyString]
           end
  end.

(** [xs.join(sep)] *)
Definition join (sep : string) (xs : list string) : string := String.concat sep xs.

(** Template-literal rendering of an integer. *)
Definition ofZ (z : Z) : string := NilZero.string_of_int (Z.to_int z).

(** [s.match(/\d+/g)?.length]: the number of maximal digit runs
    ([undefined], which compares false with every number, is 0 here). *)
Fixpoint digitRuns (inRun : bool) (s : string) : nat :=
  match s with
  | EmptyString => 0
  | String c s' =>
      if isDigit c then (if inRun then 0 else 1) + digitRuns true s'
      else digitRuns false s'
  end.

Definition countNumbers (s : string) : nat := digitRuns false s.

(** The regular expression [/[A-Z][a-z]+ \d{4}/]. *)
Definition fourDigits (s : string) : bool :=
  match s with
  | String a (String b (String c (String d _))) =>
      isDigit a && isDigit b && isDigit c && isDigit d
  | _ => false
  end.

(** After the first lower-case letter: more of them, then a space and
    four digits. *)
Fixpoint lowerRunThenYear (s : string) : bool :=
  match s with
  | EmptyString => false
  | String c s' =>
      if isLower c then lowerRunThenYear s'
      else Ascii.eqb c " "%char && fourDigits s'
  end.

Definition dateAt (s : string) : bool :=
  match s with
  | String u (String l s') => isUpper u && isLower l && lowerRunThenYear s'
  | _ => false
  end.

Fixpoint matchesDate (s : string) : bool :=
  match s with
  | EmptyString => false
  | String _ s' => dateAt s || matchesDate s'
  end.

(** The rest of this module serves the functions beyond the search and
    the scores. *)

Definition code (c : ascii) : nat := nat_of_ascii c.

(** A byte that continues a UTF-8 sequence. *)
Definition isContinuation (c : ascii) : bool :=
  (128 <=? code c)%nat && (code c <=? 191)%nat.

(** The UTF-16 code units of the character that starts with this byte:
    2 for a character beyond the basic plane, whose sequence starts with
    a byte from 240 on. *)
Definition unitsAt (c : ascii) : nat :=
  if isContinuation c then 0%nat else if (240 <=? code c)%nat then 2%nat else 1%nat.

(** [s.length] *)
Fixpoint length16 (s : string) : nat :=
  match s with
  | EmptyString => 0
  | String c s' => unitsAt c + length16 s'
  end.

(** The white space and line terminators of ECMAScript, as bytes: the
    six ASCII ones, U+00A0, U+1680, U+2000 to U+200A, U+2028, U+2029,
    U+202F, U+205F, U+3000 and U+FEFF.  The result is what follows the
    white-space character the bytes start with. *)
Definition whitespacePrefix (bytes : list ascii) : option (list ascii) :=
  match bytes with
  | a :: rest1 =>
      if ((9 <=? code a)%nat && (code a <=? 13)%nat) || (code a =? 32)%nat then Some rest1
      else
        match rest1 with
        | b :: rest2 =>
            if (code a =? 194)%nat && (code b =? 160)%nat then Some rest2
            else
              match rest2 with
              | c :: rest3 =>
                  if ((code a =? 225)%nat && (code b =? 154)%nat && (code c =? 128)%nat)
                     || ((code a =? 226)%nat && (code b =? 128)%nat
                         && (((128 <=? code c)%nat && (code c <=? 138)%nat)
                             || (code c =? 168)%nat || (code c =? 169)%nat
                             || (code c =? 175)%nat))
                     || ((code a =? 226)%nat && (code b =? 129)%nat && (code c =? 159)%nat)
                     || ((code a =? 227)%nat && (code b =? 128)%nat && (code c =? 128)%nat)
                     || ((code a =? 239)%nat && (code b =? 187)%nat && (code c =? 191)%nat)
                  then Some rest3
                  else None
              | [] => None
              end
        | [] => None
        end
  | [] => None
  end.

(** The same read backwards, on the reversed bytes. *)
Definition whitespaceSuffix (reversed : list ascii) : option (list ascii) :=
  match reversed with
  | c :: rest1 =>
      if ((9 <=? code c)%nat && (code c <=? 13)%nat) || (code c =? 32)%nat then Some rest1
      else
        match rest1 with
        | b :: rest2 =>
            if (code b =? 194)%nat && (code c =? 160)%nat then Some rest2
            else
              match rest2 with
              | a :: rest3 =>
                  match whitespacePrefix [a; b; c] with
                  | Some [] => Some rest3
                  | _ => None
                  end
              | [] => None
              end
        | [] => None
        end
  | [] => None
  end.

Fixpoint dropWhile (next : list ascii -> option (list ascii)) (fuel : nat)
    (bytes : list ascii) : list ascii :=
  match fuel with
  | O => bytes
  | S fuel' =>
      match next bytes with
      | Some rest => dropWhile next fuel' rest
      | None => bytes
      end
  end.

(** [s.trim()] *)
Definition trim (s : string) : string :=
  let bytes := list_ascii_of_string s in
  let bytes := dropWhile whitespacePrefix (length bytes) bytes in
  let reversed := dropWhile whitespaceSuffix (length bytes) (rev bytes) in
  string_of_list_ascii (rev reversed).

Definition hexDigit (n : nat) : ascii :=
  ascii_of_nat (if (n <? 10)%nat then 48 + n else 55 + n).

(** A byte that the serializer of [URLSearchParams] leaves as it is:
    the ASCII letters and digits and the four signs "*-._". *)
Definition isFormSafe (c : ascii) : bool :=
  isUpper c || isLower c || isDigit c
  || (code c =? 42)%nat || (code c =? 45)%nat || (code c =? 46)%nat || (code c =? 95)%nat.

(** The application/x-www-form-urlencoded serialization of a name or a
    value: a space becomes "+", any other unsafe byte "%" and its two
    upper-case hexadecimal digits. *)
Fixpoint formEncode (s : string) : string :=
  match s with
  | EmptyString => EmptyString
  | String c s' =>
      if isFormSafe c then String c (formEncode s')
      else if (code c =? 32)%nat then String "+"%char (formEncode s')
      else String "%"%char
             (String (hexDigit (code c / 16)) (String (hexDigit (code c mod 16)) (formEncode s')))
  end.

End JsString.

(** ** JavaScript numbers: IEEE-754 binary64 *)

Module JsNumber.
Import SpecFloat.

Definition prec : Z := 53.
Definition emax : Z := 1024.

Definition number := spec_float.

Definition ofZ (z : Z) : number := binary_normalize prec emax z 0 false.
Definition div (x y : number) : number := SFdiv prec emax x y.
Definition mul (x y : number) : number := SFmul prec emax x y.

(** [Math.round(x)]: the integer nearest to [x], ties towards +infinity.
    The result is returned in [Z]; [NaN] and the infinities, which no
    caller below produces, are sent to 0. *)
Definition round (x : number) : Z :=
  match x with
  | S754_finite s m e =>
      let v := if s then Z.neg m else Z.pos m in
      if 0 <=? e then v * 2 ^ e
      else (2 * v + 2 ^ (- e)) / 2 ^ (- e + 1)
  | _ => 0
  end.

(** A number that is not negative: its sign bit, if it has one, is clear. *)
Definition nonNegative (x : number) : Prop :=
  match x with
  | S754_zero s | S754_infinity s | S754_finite s _ _ => s = false
  | S754_nan => True
  end.

End JsNumber.

(** ** Errors: [utils/errorHandler.ts] *)

Record AppError := mkAppError {
  name : string;
  message : string;
  statusCode : Z;
  code : string;
  isOperational : bool }.

Definition newAppError (msg : string) : AppError :=
  {| name := "AppError"; message := msg; statusCode := 500;
     code := "INTERNAL_ERROR"; isOperational := true |}.

Definition ValidationError (msg : string) : AppError :=
  {| name := "ValidationError"; message := msg; statusCode := 400;
     code := "VALIDATION_ERROR"; isOperational := true |}.

Definition RateLimitError (msg : string) : AppError :=
  {| name := "RateLimitError"; message := msg; statusCode := 429;
     code := "RATE_LIMIT_ERROR"; isOperational := true |}.

Definition ScrapingError (msg : string) : AppError :=
  {| name := "ScrapingError"; message := msg; statusCode := 503;
     code := "SCRAPING_ERROR"; isOperational := true |}.

(** What a [throw] carries: a plain [Error] or an [AppError]. *)
Inductive exn :=
| JsError (msg : string)
| AppErr (e : AppError).

(** How a call completes. *)
Inductive completion (A : Type) :=
| Return (a : A)
| Throw (e : exn).
Arguments Return {A} a.
Arguments Throw {A} e.

Definition isRateLimitError (e : exn) : bool :=
  match e with
  | AppErr a => String.eqb (name a) "RateLimitError"
  | JsError _ => false
  end.

Definition isScrapingError (e : exn) : bool :=
  match e with
  | AppErr a => String.eqb (name a) "ScrapingError"
  | JsError _ => false
  end.

(** ** Configuration: the [config] object *)

Module config.

Record RateLimit := { points : Z; duration : Z }.

(** [Object.entries(config.rateLimits)] *)
Definition rateLimits : list (string * RateLimit) :=
  [ ("jobSearch", {| points := 10; duration := 60 |});
    ("cvTailoring", {| points := 5; duration := 60 |});
    ("coverLetterGeneration", {| points := 10; duration := 60 |}) ].

Definition jobSearchTTL : Z := 300.
Definition cvAnalysisTTL : Z := 3600.
Definition userProfileTTL : Z := 86400.

End config.

(** ** Rate limiter: [services/rateLimiter.ts] *)

(** One window of one identifier. *)
Record Bucket := { windowStart : Z; consumed : Z }.

Record RateLimiterMemory := {
  points : Z;
  duration : Z;
  buckets : gmap string Bucket }.

Record RateLimiterRes := { msBeforeNext : Z; remainingPoints : Z }.

Inductive settled (A E : Type) :=
| Fulfilled (value : A)
| Rejected (reason : E).
Arguments Fulfilled {A E} value.
Arguments Rejected {A E} reason.

Definition newRateLimiterMemory (limit : config.RateLimit) : RateLimiterMemory :=
  {| points := config.points limit; duration := config.duration limit; buckets := ∅ |}.

Definition freshBucket (now : Z) : Bucket := {| windowStart := now; consumed := 0 |}.

Definition windowEnd (lim : RateLimiterMemory) (b : Bucket) : Z :=
  windowStart b + duration lim * 1000.

(** The bucket a call at time [now] draws from: the stored one while its
    window lasts, a refilled one afterwards. *)
Definition currentBucket (lim : RateLimiterMemory) (now : Z) (id : string) : Bucket :=
  match buckets lim !! id with
  | Some b => if now <? windowEnd lim b then b else freshBucket now
  | None => freshBucket now
  end.

(** Modelled from the spec: [RateLimiterMemory.consume] of the package
    [rate-limiter-flexible], which is not part of the sources.  Each
    [(operation, identifier)] pair has a budget of [points] per window of
    [duration] seconds; a call consumes one point; when the budget is
    exhausted the call is rejected with the time left until the refill,
    window start plus duration minus now. *)
Definition consume (lim : RateLimiterMemory) (now : Z) (id : string)
  : RateLimiterMemory * settled RateLimiterRes RateLimiterRes :=
  let b := currentBucket lim now id in
  let ms := windowEnd lim b - now in
  if consumed b <? points lim then
    let b' := {| windowStart := windowStart b; consumed := consumed b + 1 |} in
    ({| points := points lim; duration := duration lim;
        buckets := <[id := b']> (buckets lim) |},
     Fulfilled {| msBeforeNext := ms; remainingPoints := points lim - consumed b' |})
  else
    (lim, Rejected {| msBeforeNext := ms; remainingPoints := 0 |}).

(** Modelled from the spec: [RateLimiterMemory.get], the state of the
    current window, or [null] when no window is open. *)
Definition getRes (lim : RateLimiterMemory) (now : Z) (id : string) : option RateLimiterRes :=
  match buckets lim !! id with
  | Some b =>
      if now <? windowEnd lim b
      then Some {| msBeforeNext := windowEnd lim b - now;
                   remainingPoints := Z.max (points lim - consumed b) 0 |}
      else None
  | None => None
  end.

Record RateLimiterService := { limiters : gmap string RateLimiterMemory }.

(** The constructor: one limiter per entry of [config.rateLimits]. *)
Definition newRateLimiterService : RateLimiterService :=
  {| limiters :=
       fold_left (fun m '(key, limit) => <[key := newRateLimiterMemory limit]> m)
                 config.rateLimits ∅ |}.

(** [Math.round(rejRes.msBeforeNext / 1000) || 1] *)
Definition retrySecs (ms : Z) : Z :=
  let r := JsNumber.round (JsNumber.div (JsNumber.ofZ ms) (JsNumber.ofZ 1000)) in
  if r =? 0 then 1 else r.

Definition rateLimitMessage (secs : Z) : string :=
  "Rate limit exceeded. Try again in " ++ JsString.ofZ secs ++ " seconds.".

Definition notConfiguredMessage (operation : string) : string :=
  "Rate limiter not configured for operation: " ++ operation.

Definition checkLimit (svc : RateLimiterService) (now : Z)
    (operation identifier : string) : RateLimiterService * completion unit :=
  match limiters svc !! operation with
  | None => (svc, Throw (JsError (notConfiguredMessage operation)))
  | Some limiter =>
      match consume limiter now identifier with
      | (limiter', Fulfilled _) =>
          ({| limiters := <[operation := limiter']> (limiters svc) |}, Return tt)
      | (limiter', Rejected rejRes) =>
          let secs := retrySecs (msBeforeNext rejRes) in
          ({| limiters := <[operation := limiter']> (limiters svc) |},
           Throw (AppErr (RateLimitError (rateLimitMessage secs))))
      end
  end.

(** The default of the [identifier] parameter. *)
Definition defaultIdentifier : string := "default".

Definition configuredPoints (operation : string) : Z :=
  match list_find (fun e => fst e = operation) config.rateLimits with
  | Some (_, (_, limit)) => config.points limit
  | None => 0
  end.

Definition getRemainingPoints (svc : RateLimiterService) (now : Z)
    (operation identifier : string) : Z :=
  match limiters svc !! operation with
  | None => 0
  | Some limiter =>
      match getRes limiter now identifier with
      | Some res => remainingPoints res
      | None => configuredPoints operation
      end
  end.

(** Successive calls for one operation and identifier, at the given times. *)
Fixpoint checkLimits (svc : RateLimiterService) (times : list Z)
    (operation identifier : string) : RateLimiterService * list (completion unit) :=
  match times with
  | [] => (svc, [])
  | now :: times' =>
      let '(svc1, r) := checkLimit svc now operation identifier in
      let '(svc2, rs) := checkLimits svc1 times' operation identifier in
      (svc2, r :: rs)
  end.

(** ** Cache: [BrowserCache] and [CacheService] *)

Record CacheItem (T : Type) := { value : T; expiry : Z }.
Arguments value {T} _.
Arguments expiry {T} _.

Record CacheStats := { keys : Z; hits : Z; misses : Z; ksize : Z; vsize : Z }.

Record BrowserCache (T : Type) := {
  cache : gmap string (CacheItem T);
  defaultTTL : Z;
  stats : CacheStats }.
Arguments cache {T} _.
Arguments defaultTTL {T} _.
Arguments stats {T} _.

Module BrowserCache.
Section Ops.
Context {T : Type}.

(** [options.stdTTL || 600], in milliseconds; the sweep timer the
    constructor starts is the caller of [cleanup]. *)
Definition new (stdTTL : option Z) : BrowserCache T :=
  {| cache := ∅;
     defaultTTL := (match stdTTL with
                    | Some t => if t =? 0 then 600 else t
                    | None => 600
                    end) * 1000;
     stats := {| keys := 0; hits := 0; misses := 0; ksize := 0; vsize := 0 |} |}.

Definition withKeys (s : CacheStats) (k : Z) : CacheStats :=
  {| keys := k; hits := hits s; misses := misses s; ksize := ksize s; vsize := vsize s |}.

Definition withHit (s : CacheStats) : CacheStats :=
  {| keys := keys s; hits := hits s + 1; misses := misses s; ksize := ksize s; vsize := vsize s |}.

Definition withMiss (s : CacheStats) : CacheStats :=
  {| keys := keys s; hits := hits s; misses := misses s + 1; ksize := ksize s; vsize := vsize s |}.

(** [Date.now() > item.expiry] *)
Definition isExpired (now : Z) (item : CacheItem T) : bool := expiry item <? now.

(** The periodic sweep. *)
Definition cleanup (c : BrowserCache T) (now : Z) : BrowserCache T :=
  let kept := filter (fun kv => isExpired now (snd kv) = false) (cache c) in
  {| cache := kept;
     defaultTTL := defaultTTL c;
     stats := withKeys (stats c)
                (keys (stats c) - (Z.of_nat (size (cache c)) - Z.of_nat (size kept))) |}.

(** [ttl ? ttl * 1000 : this.defaultTTL]: an omitted [ttl] and a [ttl]
    of 0 both select the default. *)
Definition ttlMillis (c : BrowserCache T) (ttl : option Z) : Z :=
  match ttl with
  | Some t => if t =? 0 then defaultTTL c else t * 1000
  | None => defaultTTL c
  end.

Definition set (c : BrowserCache T) (now : Z) (key : string) (v : T) (ttl : option Z)
  : BrowserCache T * bool :=
  let expiryTime := now + ttlMillis c ttl in
  let item := {| value := v; expiry := expiryTime |} in
  let wasPresent := bool_decide (is_Some (cache c !! key)) in
  ({| cache := <[key := item]> (cache c);
      defaultTTL := defaultTTL c;
      stats := if wasPresent then stats c else withKeys (stats c) (keys (stats c) + 1) |},
   true).

Definition get (c : BrowserCache T) (now : Z) (key : string) : BrowserCache T * option T :=
  match cache c !! key with
  | None =>
      ({| cache := cache c; defaultTTL := defaultTTL c; stats := withMiss (stats c) |}, None)
  | Some item =>
      if isExpired now item then
        ({| cache := delete key (cache c);
            defaultTTL := defaultTTL c;
            stats := withMiss (withKeys (stats c) (keys (stats c) - 1)) |}, None)
      else
        ({| cache := cache c; defaultTTL := defaultTTL c; stats := withHit (stats c) |},
         Some (value item))
  end.

Definition del (c : BrowserCache T) (key : string) : BrowserCache T * Z :=
  match cache c !! key with
  | Some _ =>
      ({| cache := delete key (cache c);
          defaultTTL := defaultTTL c;
          stats := withKeys (stats c) (keys (stats c) - 1) |}, 1)
  | None => (c, 0)
  end.

Definition has (c : BrowserCache T) (now : Z) (key : string) : BrowserCache T * bool :=
  match cache c !! key with
  | None => (c, false)
  | Some item =>
      if isExpired now item then
        ({| cache := delete key (cache c);
            defaultTTL := defaultTTL c;
            stats := withKeys (stats c) (keys (stats c) - 1) |}, false)
      else (c, true)
  end.

Definition flushAll (c : BrowserCache T) : BrowserCache T :=
  {| cache := ∅; defaultTTL := defaultTTL c; stats := withKeys (stats c) 0 |}.

Definition getStats (c : BrowserCache T) : BrowserCache T * CacheStats :=
  let s := withKeys (stats c) (Z.of_nat (size (cache c))) in
  ({| cache := cache c; defaultTTL := defaultTTL c; stats := s |}, s).

(** Sweeps of the background timer, at the given times. *)
Definition sweeps (c : BrowserCache T) (times : list Z) : BrowserCache T :=
  fold_left cleanup times c.

End Ops.
End BrowserCache.

Module CacheService.
Section Ops.
Context {T : Type}.

(** [stdTTL: 600, checkperiod: 120] *)
Definition new : BrowserCache T := BrowserCache.new (Some 600).

Definition jobSearchKey (query location : string) : string :=
  "job_search:" ++ query ++ ":" ++ location.

Definition cacheJobSearch (c : BrowserCache T) (now : Z) (query location : string)
    (results : T) : BrowserCache T :=
  fst (BrowserCache.set c now (jobSearchKey query location) results (Some config.jobSearchTTL)).

Definition getCachedJobSearch (c : BrowserCache T) (now : Z) (query location : string)
  : BrowserCache T * option T :=
  BrowserCache.get c now (jobSearchKey query location).

Definition cvAnalysisKey (cvHash : string) : string := "cv_analysis:" ++ cvHash.

Definition cacheCVAnalysis (c : BrowserCache T) (now : Z) (cvHash : string) (analysis : T)
  : BrowserCache T :=
  fst (BrowserCache.set c now (cvAnalysisKey cvHash) analysis (Some config.cvAnalysisTTL)).

Definition getCachedCVAnalysis (c : BrowserCache T) (now : Z) (cvHash : string)
  : BrowserCache T * option T :=
  BrowserCache.get c now (cvAnalysisKey cvHash).

Definition userProfileKey (userId : string) : string := "user_profile:" ++ userId.

Definition cacheUserProfile (c : BrowserCache T) (now : Z) (userId : string) (profile : T)
  : BrowserCache T :=
  fst (BrowserCache.set c now (userProfileKey userId) profile (Some config.userProfileTTL)).

Definition getCachedUserProfile (c : BrowserCache T) (now : Z) (userId : string)
  : BrowserCache T * option T :=
  BrowserCache.get c now (userProfileKey userId).

End Ops.
End CacheService.

(** A call of one of the methods of [BrowserCache], with the time at
    which it reads the clock. *)
Inductive CacheCall (T : Type) :=
| CallSet (now : Z) (key : string) (v : T) (ttl : option Z)
| CallGet (now : Z) (key : string)
| CallDel (key : string)
| CallHas (now : Z) (key : string)
| CallCleanup (now : Z)
| CallFlushAll
| CallGetStats.
Arguments CallSet {T} now key v ttl.
Arguments CallGet {T} now key.
Arguments CallDel {T} key.
Arguments CallHas {T} now key.
Arguments CallCleanup {T} now.
Arguments CallFlushAll {T}.
Arguments CallGetStats {T}.

Module CacheRun.
Section Run.
Context {T : Type}.

(** The cache after a call. *)
Definition after (c : BrowserCache T) (call : CacheCall T) : BrowserCache T :=
  match call with
  | CallSet now key v ttl => fst (BrowserCache.set c now key v ttl)
  | CallGet now key => fst (BrowserCache.get c now key)
  | CallDel key => fst (BrowserCache.del c key)
  | CallHas now key => fst (BrowserCache.has c now key)
  | CallCleanup now => BrowserCache.cleanup c now
  | CallFlushAll => BrowserCache.flushAll c
  | CallGetStats => fst (BrowserCache.getStats c)
  end.

Definition afterAll (c : BrowserCache T) (calls : list (CacheCall T)) : BrowserCache T :=
  fold_left after calls c.

Definition isGet (call : CacheCall T) : bool :=
  match call with
  | CallGet _ _ => true
  | _ => false
  end.

(** [stats.keys] and the number of stored entries agree. *)
Definition keysCounted (c : BrowserCache T) : Prop :=
  keys (stats c) = Z.of_nat (size (cache c)).

End Run.
End CacheRun.

(** ** Job postings: the [Job] interface *)

Inductive Source := seek | indeed | linkedin.

Inductive ApplicationStatus := not_applied | applied | tailored | generating.

Record Job := {
  id : string;
  title : string;
  company : string;
  location : string;
  salary : string;
  description : string;
  requirements : list string;
  keywords : list string;
  url : string;
  datePosted : string;
  source : Source;
  applicationStatus : ApplicationStatus;
  matchScore : Z }.

(** ** Job scraper: [services/jobScraper.ts] *)

Module JobScraperService.

(** What the selectors find in one listing element: the trimmed texts
    and the [href] attribute, [None] for [undefined]. *)
Record ListingElement := {
  titleText : string;
  companyText : string;
  locationText : string;
  salaryText : string;
  href : option string }.

(** A search page as [cheerio] presents it: its listing elements, [None]
    for one whose handling throws, and what the clock shows while the
    element of each index is handled. *)
Record Page := {
  elements : list (option ListingElement);
  clockAt : nat -> Z;
  todayAt : nat -> string }.

(** What lies outside the program during one search: the clock at the
    three calls that read it, the answers of the two sites, the replies
    of the text-generation service and the random draws.  [seekPage] and
    [indeedPage] are [axiosInstance.get(searchUrl)] followed by
    [cheerio.load], [None] when the request fails for good.  When the
    page of Seek loads, [scrapeSeek] goes on to call [getJobDetails],
    which starts a search of its own: the answer of Seek therefore comes
    with what lies outside that search.  A value of this type is finite,
    so it describes the searches in which this nesting ends; a search in
    which every nested search is let through by the limiter, misses the
    cache and loads its page never returns and has no such value. *)
#[warnings="-register-all"] Inductive Env := {
  timeOfLimitCheck : Z;
  timeOfCacheRead : Z;
  timeOfCacheWrite : Z;
  seekPage : string -> option (Page * Env);
  indeedPage : string -> option Page;
  (** [aiService.extractJobKeywords], [None] when it throws; the first
      argument numbers the calls. *)
  extractJobKeywords : nat -> string -> string -> option (list string);
  (** [Math.floor(Math.random() * 40)] at each draw *)
  randomBelow40 : nat -> Z }.

(** Induction on the nesting of the searches. *)
Fixpoint Env_nested_ind (P : Env -> Prop)
    (step : forall env,
        (forall searchUrl page nested,
            seekPage env searchUrl = Some (page, nested) -> P nested) -> P env)
    (env : Env) {struct env} : P env.
Proof.
  apply step. destruct env as [t1 t2 t3 seek indeed ai random]. simpl.
  intros searchUrl page nested.
  destruct (seek searchUrl) as [[p n]|]; [| discriminate].
  pose proof (Env_nested_ind P step n) as IH.
  intros Heq. injection Heq as _ Hn. rewrite <- Hn. exact IH.
Defined.

(** The two process-wide singletons the scraper shares. *)
Record Shared := {
  rateLimiter : RateLimiterService;
  cacheService : BrowserCache (list Job) }.

(** The state in which the application starts. *)
Definition initial : Shared :=
  {| rateLimiter := newRateLimiterService; cacheService := CacheService.new |}.

Definition buildSeekUrl (keywords : list string) (location : string) : string :=
  let baseUrl := "https://www.seek.com.au/jobs" in
  let params := "q=" ++ JsString.formEncode (JsString.join " " keywords)
                ++ "&where=" ++ JsString.formEncode location
                ++ "&sortmode=ListedDate" in
  baseUrl ++ "?" ++ params.

Definition buildIndeedUrl (keywords : list string) (location : string) : string :=
  let baseUrl := "https://au.indeed.com/jobs" in
  let params := "q=" ++ JsString.formEncode (JsString.join " " keywords)
                ++ "&l=" ++ JsString.formEncode location
                ++ "&sort=date" in
  baseUrl ++ "?" ++ params.

(** The string a template or a concatenation makes of an attribute. *)
Definition attrText (attr : option string) : string :=
  match attr with
  | Some text => text
  | None => "undefined"
  end.

(** The posting built from one listing element, if its title and its
    company are not empty. *)
Definition listing (src : Source) (prefix origin : string) (page : Page)
    (index : nat) (element : ListingElement) : option Job :=
  let salary := if String.eqb (salaryText element) "" then "Not specified"
                else salaryText element in
  if negb (String.eqb (titleText element) "") && negb (String.eqb (companyText element) "")
  then Some {| id := prefix ++ "_" ++ JsString.ofZ (clockAt page index)
                     ++ "_" ++ JsString.ofZ (Z.of_nat index);
               title := titleText element;
               company := companyText element;
               location := locationText element;
               salary := salary;
               description := "";
               requirements := [];
               keywords := [];
               url := origin ++ attrText (href element);
               datePosted := todayAt page index;
               source := src;
               applicationStatus := not_applied;
               matchScore := 0 |}
  else None.

(** The callback of [each], from the element of the given index on. *)
Fixpoint listingsFrom (src : Source) (prefix origin : string) (page : Page)
    (index : nat) (els : list (option ListingElement)) : list Job :=
  match els with
  | [] => []
  | el :: rest =>
      match el with
      | Some element =>
          match listing src prefix origin page index element with
          | Some job => job :: listingsFrom src prefix origin page (S index) rest
          | None => listingsFrom src prefix origin page (S index) rest
          end
      | None => listingsFrom src prefix origin page (S index) rest
      end
  end.

Definition listings (src : Source) (prefix origin : string) (page : Page) : list Job :=
  listingsFrom src prefix origin page 0 (elements page).

(** What the promise of a source fetcher fulfils with: the array of
    postings of [scrapeIndeed], or what [getJobDetails] gave to
    [scrapeSeek], a posting or [null]. *)
Inductive Fetched :=
| Postings (jobs : list Job)
| Found (job : option Job).

(** What [getJobDetails] receives as [jobId]: an identifier or, from
    [scrapeSeek], an array of postings. *)
Inductive JobIdArgument :=
| Identifier (jobId : string)
| Listings (jobs : list Job).

(** [job.id === jobId]: a string is never identical to an array. *)
Definition idIs (job : Job) (jobId : JobIdArgument) : bool :=
  match jobId with
  | Identifier jobId => String.eqb (id job) jobId
  | Listings _ => false
  end.

(** [this.scrapeJobs], as the other methods call it. *)
Definition SearchMethod : Type :=
  Shared -> list string -> string -> Shared * completion (list Job).

(** [getJobDetails].  The class declares two methods of this name, at
    lines 211 and 365; the later declaration replaces the earlier one,
    so that this one, written for an identifier, is also what
    [scrapeSeek] calls with its postings.  [scrapeJobs] is
    [this.scrapeJobs] in the surroundings of the search it starts;
    [null] is [None]. *)
Definition getJobDetailsWith (scrapeJobs : SearchMethod) (sh : Shared)
    (jobId : JobIdArgument) : Shared * option Job :=
  match scrapeJobs sh ["software"; "developer"; "engineer"] "Australia" with
  | (sh', Return jobs) => (sh', List.find (fun job => idIs job jobId) jobs)
  | (sh', Throw _) => (sh', None)
  end.

(** [scrapeSeek], given the answer of the site and, with it,
    [this.scrapeJobs] for the search that [getJobDetails] starts. *)
Definition scrapeSeekWith (answer : option (Page * SearchMethod)) (sh : Shared)
  : Shared * settled Fetched exn :=
  match answer with
  | Some (page, scrapeJobs) =>
      let jobs := listings seek "seek" "https://www.seek.com.au" page in
      let '(sh', detailedJobs) := getJobDetailsWith scrapeJobs sh (Listings (take 10 jobs)) in
      (sh', Fulfilled (Found detailedJobs))
  | None => (sh, Rejected (AppErr (ScrapingError "Failed to scrape Seek")))
  end.

Definition scrapeIndeed (env : Env) (keywords : list string) (location : string)
  : settled Fetched exn :=
  let searchUrl := buildIndeedUrl keywords location in
  match indeedPage env searchUrl with
  | Some page =>
      let jobs := listings indeed "indeed" "https://au.indeed.com" page in
      Fulfilled (Postings (take 10 jobs))
  | None => Rejected (AppErr (ScrapingError "Failed to scrape Indeed"))
  end.

Definition withEnrichment (job : Job) (kws : list string) (score : Z) : Job :=
  {| id := id job; title := title job; company := company job;
     location := location job; salary := salary job;
     description := description job; requirements := requirements job;
     keywords := kws; url := url job; datePosted := datePosted job;
     source := source job; applicationStatus := applicationStatus job;
     matchScore := score |}.

(** The loop of [enhanceJobsWithAI]; [n] counts the iterations. *)
Fixpoint enhanceJobsFrom (env : Env) (n : nat) (jobs : list Job) : list Job :=
  match jobs with
  | [] => []
  | job :: rest =>
      match extractJobKeywords env n (description job) (title job) with
      | Some kws =>
          let score := randomBelow40 env n + 60 in
          withEnrichment job kws score :: enhanceJobsFrom env (S n) rest
      | None => job :: enhanceJobsFrom env (S n) rest
      end
  end.

Definition enhanceJobsWithAI (env : Env) (jobs : list Job) : list Job :=
  enhanceJobsFrom env 0 jobs.

(** [results.forEach]: a fulfilled array is pushed onto [allJobs], a
    rejected result is only logged.  [allJobs.push(...result.value)]
    throws a [TypeError] when the value is not iterable, as a posting and
    [null] are; [None] is that throw. *)
Definition collect (results : list (settled Fetched exn)) : option (list Job) :=
  fold_left (fun allJobs result =>
               match allJobs, result with
               | Some allJobs, Fulfilled (Postings value) => Some (allJobs ++ value)%list
               | Some allJobs, Fulfilled (Found _) => None
               | Some allJobs, Rejected _ => Some allJobs
               | None, _ => None
               end) results (Some []).

Section WithHost.
Context {host : JsString.Host}.

Definition dedupKey (job : Job) : string :=
  JsString.toLowerCase (title job) ++ "_" ++ JsString.toLowerCase (company job).

(** The callback of [jobs.filter] in [removeDuplicates], threading the
    [seen] set. *)
Fixpoint removeDuplicatesFrom (seen : gset string) (jobs : list Job) : list Job :=
  match jobs with
  | [] => []
  | job :: rest =>
      let key := dedupKey job in
      if bool_decide (key ∈ seen) then removeDuplicatesFrom seen rest
      else job :: removeDuplicatesFrom ({[key]} ∪ seen) rest
  end.

Definition removeDuplicates (jobs : list Job) : list Job :=
  removeDuplicatesFrom ∅ jobs.

(** The [try] block of [scrapeJobs] from [results.forEach] on, and its
    [catch]; [sh] is the state the two fetchers have left. *)
Definition scrapeJobsTry (env : Env) (sh : Shared) (cacheKey location : string)
    (results : list (settled Fetched exn)) : Shared * completion (list Job) :=
  match collect results with
  | Some allJobs =>
      let uniqueJobs := removeDuplicates allJobs in
      let enhancedJobs := enhanceJobsWithAI env uniqueJobs in
      let c' := CacheService.cacheJobSearch (cacheService sh) (timeOfCacheWrite env)
                  cacheKey location enhancedJobs in
      ({| rateLimiter := rateLimiter sh; cacheService := c' |}, Return enhancedJobs)
  | None =>
      (sh, Throw (AppErr (ScrapingError "Failed to scrape jobs from all sources")))
  end.

(** [scrapeJobs].  The methods of the class call one another:
    [scrapeJobs] calls [scrapeSeek], which calls [getJobDetails], which
    calls [scrapeJobs]; the recursion follows the nesting of the
    surroundings.  Of the two promises only that of [scrapeSeek] touches
    the shared state. *)
Fixpoint scrapeJobs (env : Env) (sh : Shared) (keywords : list string) (location : string)
    {struct env} : Shared * completion (list Job) :=
  match checkLimit (rateLimiter sh) (timeOfLimitCheck env) "jobSearch" defaultIdentifier with
  | (rl, Throw e) => ({| rateLimiter := rl; cacheService := cacheService sh |}, Throw e)
  | (rl, Return _) =>
      let cacheKey := JsString.join "," keywords ++ ":" ++ location in
      match CacheService.getCachedJobSearch (cacheService sh) (timeOfCacheRead env)
              cacheKey location with
      | (c, Some cachedResults) =>
          ({| rateLimiter := rl; cacheService := c |}, Return cachedResults)
      | (c, None) =>
          let '(sh', seekResult) :=
            scrapeSeekWith
              match seekPage env (buildSeekUrl keywords location) with
              | Some (page, nested) => Some (page, scrapeJobs nested)
              | None => None
              end
              {| rateLimiter := rl; cacheService := c |} in
          let scrapingPromises := [ seekResult; scrapeIndeed env keywords location ] in
          scrapeJobsTry env sh' cacheKey location scrapingPromises
      end
  end.

(** The two methods in the surroundings [env]: of the search that
    [getJobDetails] starts, and of the search that calls [scrapeSeek]. *)
Definition getJobDetails (env : Env) : Shared -> JobIdArgument -> Shared * option Job :=
  getJobDetailsWith (scrapeJobs env).

Definition scrapeSeek (env : Env) (sh : Shared) (keywords : list string) (location : string)
  : Shared * settled Fetched exn :=
  scrapeSeekWith
    match seekPage env (buildSeekUrl keywords location) with
    | Some (page, nested) => Some (page, scrapeJobs nested)
    | None => None
    end
    sh.

(** [getJobDetails(jobId)] as the interface calls it, with an
    identifier. *)
Definition getJobDetailsById (env : Env) (sh : Shared) (jobId : string)
  : Shared * option Job :=
  getJobDetails env sh (Identifier jobId).

End WithHost.

End JobScraperService.

(** ** ATS optimizer: [ATSOptimizerService] *)

Module ATSOptimizerService.
Section WithHost.
Context {host : JsString.Host}.

Record CVData := {
  fileName : string;
  content : string;
  cvKeywords : list string;
  atsScore : Q;
  suggestions : list string }.

Definition techKeywords : list string :=
  [ (* Frontend Technologies *)
    "react"; "angular"; "vue"; "javascript"; "typescript"; "html"; "css"; "sass"; "less";
    "jquery"; "bootstrap"; "tailwind"; "webpack"; "vite"; "next.js"; "nuxt.js";
    (* Backend Technologies *)
    "node.js"; "express"; "python"; "django"; "flask"; "java"; "spring"; "c#"; ".net";
    "php"; "laravel"; "ruby"; "rails"; "go"; "rust"; "scala";
    (* Databases *)
    "sql"; "mysql"; "postgresql"; "mongodb"; "redis"; "elasticsearch"; "oracle";
    "sqlite"; "cassandra"; "dynamodb";
    (* Cloud & DevOps *)
    "aws"; "azure"; "gcp"; "docker"; "kubernetes"; "jenkins"; "gitlab"; "github";
    "terraform"; "ansible"; "ci/cd"; "devops"; "microservices";
    (* Tools & Methodologies *)
    "git"; "jira"; "confluence"; "agile"; "scrum"; "kanban"; "rest"; "graphql";
    "api"; "testing"; "jest"; "cypress"; "selenium";
    (* Soft Skills *)
    "leadership"; "communication"; "problem-solving"; "teamwork"; "project management";
    "analytical"; "creative"; "adaptable"; "detail-oriented" ].

(** [[...new Set(xs)]]: the first occurrence of each string, in order. *)
Fixpoint uniqueFrom (seen : gset string) (xs : list string) : list string :=
  match xs with
  | [] => []
  | x :: rest =>
      if bool_decide (x ∈ seen) then uniqueFrom seen rest
      else x :: uniqueFrom ({[x]} ∪ seen) rest
  end.

Definition unique (xs : list string) : list string := uniqueFrom ∅ xs.

Definition extractKeywords (content : string) : list string :=
  let lowerContent := JsString.toLowerCase content in
  let foundKeywords :=
    List.filter (fun keyword => JsString.includes (JsString.toLowerCase keyword) lowerContent)
                techKeywords in
  unique foundKeywords.

Definition wordCount (content : string) : nat :=
  length (JsString.splitSpaces content).

(** The four summands of the "essential sections" block. *)
Definition sectionScore (lowerContent : string) : Q :=
  let score := 0%Q in
  let score := if JsString.includes "experience" lowerContent
                  || JsString.includes "employment" lowerContent
               then (score + 15)%Q else score in
  let score := if JsString.includes "education" lowerContent
                  || JsString.includes "qualification" lowerContent
               then (score + 10)%Q else score in
  let score := if JsString.includes "skills" lowerContent
                  || JsString.includes "competencies" lowerContent
               then (score + 10)%Q else score in
  let score := if JsString.includes "summary" lowerContent
                  || JsString.includes "profile" lowerContent
               then (score + 5)%Q else score in
  score.

(** [Math.min(keywords.length * 1.5, 25)] *)
Definition keywordScore (keywords : list string) : Q :=
  Qmin (inject_Z (Z.of_nat (length keywords)) * 1.5) 25.

Definition lengthScore (content : string) : Q :=
  let wordCount := wordCount content in
  if (400 <=? wordCount)%nat && (wordCount <=? 1000)%nat then 15%Q
  else if (200 <=? wordCount)%nat && (wordCount <=? 1500)%nat then 10%Q
  else if (100 <=? wordCount)%nat then 5%Q
  else 0%Q.

Definition hasBullets (content : string) : bool :=
  JsString.includes "•" content || JsString.includes "-" content
  || JsString.includes "*" content.

Definition formatScore (content lowerContent : string) : Q :=
  let score := 0%Q in
  let score := if hasBullets content then (score + 8)%Q else score in
  let score := if JsString.includes "achievements" lowerContent
                  || JsString.includes "accomplishments" lowerContent
               then (score + 5)%Q else score in
  let score := if (5 <? JsString.countNumbers content)%nat then (score + 4)%Q else score in
  let score := if JsString.matchesDate content then (score + 3)%Q else score in
  score.

Definition calculateATSScore (content : string) (keywords : list string) : Q :=
  let lowerContent := JsString.toLowerCase content in
  let score := sectionScore lowerContent in
  let score := (score + keywordScore keywords)%Q in
  let score := (score + lengthScore content)%Q in
  let score := (score + formatScore content lowerContent)%Q in
  Qmin score 100.

(** The score [basicAnalyzeCV] stores in [atsScore]. *)
Definition basicATSScore (cvContent : string) : Q :=
  calculateATSScore cvContent (extractKeywords cvContent).

(** [cvKeywords.some(...)]: substring match in either direction. *)
Definition keywordMatches (cvKeywords : list string) (keyword : string) : bool :=
  existsb (fun cvKeyword =>
             JsString.includes (JsString.toLowerCase keyword) (JsString.toLowerCase cvKeyword)
             || JsString.includes (JsString.toLowerCase cvKeyword) (JsString.toLowerCase keyword))
          cvKeywords.

Definition requirementMatches (lowerCvContent requirement : string) : bool :=
  JsString.includes (JsString.toLowerCase requirement) lowerCvContent.

(** The two [forEach] loops, on the pair [(matchScore, totalPossibleScore)]. *)
Definition scoreKeywords (cvKeywords : list string) (jobKeywords : list string)
    (acc : Z * Z) : Z * Z :=
  fold_left (fun '(matchScore, totalPossibleScore) keyword =>
               let totalPossibleScore := totalPossibleScore + 3 in
               if keywordMatches cvKeywords keyword
               then (matchScore + 3, totalPossibleScore)
               else (matchScore, totalPossibleScore))
            jobKeywords acc.

Definition scoreRequirements (lowerCvContent : string) (jobRequirements : list string)
    (acc : Z * Z) : Z * Z :=
  fold_left (fun '(matchScore, totalPossibleScore) requirement =>
               let totalPossibleScore := totalPossibleScore + 2 in
               if requirementMatches lowerCvContent requirement
               then (matchScore + 2, totalPossibleScore)
               else (matchScore, totalPossibleScore))
            jobRequirements acc.

(** [Math.round((matchScore / totalPossibleScore) * 100)], in binary64. *)
Definition percentage (matchScore totalPossibleScore : Z) : Z :=
  JsNumber.round
    (JsNumber.mul (JsNumber.div (JsNumber.ofZ matchScore) (JsNumber.ofZ totalPossibleScore))
                  (JsNumber.ofZ 100)).

Definition calculateMatchScore (cvContent : string) (jobKeywords jobRequirements : list string)
  : Z :=
  let cvKeywords := extractKeywords cvContent in
  let lowerCvContent := JsString.toLowerCase cvContent in
  let acc := (0, 0) in
  let acc := scoreKeywords cvKeywords jobKeywords acc in
  let '(matchScore, totalPossibleScore) := scoreRequirements lowerCvContent jobRequirements acc in
  if 0 <? totalPossibleScore then percentage matchScore totalPossibleScore else 0.

End WithHost.
End ATSOptimizerService.

(** ** Requirements of a posting: [extractRequirements] *)

Module Fetchers.

(** The five regular expressions of [skillPatterns], in order:
    [/\b(react|angular|vue|javascript|typescript|node\.?js|python|java|c#|php|ruby)\b/gi],
    [/\b(aws|azure|gcp|docker|kubernetes|git|sql|mongodb|postgresql)\b/gi],
    [/\b(agile|scrum|devops|ci\/cd|rest|api|microservices)\b/gi],
    [/\b(\d+\+?\s*years?\s*experience)\b/gi] and
    [/\b(bachelor|degree|certification|diploma)\b/gi]. *)
Inductive SkillPattern :=
| languages | platforms | practices | yearsOfExperience | qualifications.

Definition skillPatterns : list SkillPattern :=
  [languages; platforms; practices; yearsOfExperience; qualifications].

(** The regular-expression engine: [matchPattern] is
    [description.match(pattern)], [None] for [null]. *)
Record Web := {
  matchPattern : SkillPattern -> string -> option (list string) }.

Definition extractRequirements (web : Web) (description : string) : list string :=
  let requirements :=
    fold_left (fun requirements pattern =>
                 match matchPattern web pattern description with
                 | Some matches => (requirements ++ map JsString.trim matches)%list
                 | None => requirements
                 end) skillPatterns [] in
  take 10 (ATSOptimizerService.unique requirements).

End Fetchers.

(** ** CV analysis and tailoring: the rest of [ATSOptimizerService] *)

Module CVAnalysis.
Import ATSOptimizerService.
Section WithHost.
Context {host : JsString.Host}.

(** [a < b] on numbers. *)
Definition ltQ (a b : Q) : bool := negb (Qle_bool b a).

Definition generateSuggestions (content : string) (score : Q) : list string :=
  let lowerContent := JsString.toLowerCase content in
  let suggestions := [] in
  let suggestions :=
    if ltQ score 60
    then (suggestions ++ [ "Add more relevant keywords from job descriptions";
                           "Include a professional summary section";
                           "Use bullet points to improve readability";
                           "Add quantifiable achievements with specific numbers" ])%list
    else suggestions in
  let suggestions :=
    if negb (JsString.includes "achievements" lowerContent)
       && negb (JsString.includes "accomplishments" lowerContent)
    then (suggestions ++ [ "Add quantifiable achievements and metrics" ])%list
    else suggestions in
  let suggestions :=
    if negb (JsString.includes "projects" lowerContent)
       && negb (JsString.includes "portfolio" lowerContent)
    then (suggestions ++ [ "Include relevant projects section" ])%list
    else suggestions in
  let suggestions :=
    if ltQ score 75
    then (suggestions ++ [ "Use action verbs to start bullet points";
                           "Tailor skills section to match job requirements";
                           "Include relevant certifications and training";
                           "Add contact information at the top" ])%list
    else suggestions in
  let wordCount := wordCount content in
  let suggestions :=
    if (wordCount <? 300)%nat
    then (suggestions ++ [ "CV is too short - add more detail about your experience" ])%list
    else if (1200 <? wordCount)%nat
    then (suggestions ++ [ "CV is too long - consider condensing to 1-2 pages" ])%list
    else suggestions in
  let suggestions :=
    if negb (JsString.includes "•" content) && negb (JsString.includes "-" content)
    then (suggestions ++ [ "Use bullet points for better readability" ])%list
    else suggestions in
  let suggestions :=
    if (JsString.countNumbers content <? 3)%nat
    then (suggestions ++ [ "Include more specific numbers and metrics" ])%list
    else suggestions in
  suggestions.

Definition basicAnalyzeCV (cvContent : string) : CVData :=
  let keywords := extractKeywords cvContent in
  let atsScore := calculateATSScore cvContent keywords in
  let suggestions := generateSuggestions cvContent atsScore in
  {| fileName := "uploaded-cv.pdf";
     content := cvContent;
     cvKeywords := keywords;
     atsScore := atsScore;
     suggestions := suggestions |}.

(** The line feed. *)
Definition newline : string := String "010"%char EmptyString.

Definition missingKeywords (cvContent : string) (jobKeywords : list string) : list string :=
  let cvKeywords := extractKeywords cvContent in
  List.filter (fun keyword =>
                 negb (existsb (fun cvKeyword =>
                                  String.eqb (JsString.toLowerCase cvKeyword)
                                             (JsString.toLowerCase keyword))
                               cvKeywords))
              jobKeywords.

Definition basicTailorCV (cvContent : string) (jobKeywords : list string) : string :=
  let tailoredCV := cvContent in
  let missing := missingKeywords cvContent jobKeywords in
  if (0 <? length missing)%nat
  then
    let skillsSection :=
      newline ++ newline ++ "RELEVANT TECHNICAL SKILLS:" ++ newline ++ "• "
      ++ JsString.join (newline ++ "• ") (take 8 missing) in
    tailoredCV ++ skillsSection
  else tailoredCV.

(** What [aiService.analyzeCVForATS] resolves with. *)
Record AIAnalysis := {
  aiScore : Q;
  aiKeywords : list string;
  aiSuggestions : list string }.

(** What lies outside [analyzeCV] during one call: the digest of the
    text ([createHash]), the outcome of the text-generation service,
    [None] when it throws, and the clock at the two cache calls. *)
Record AnalysisEnv := {
  createHash : string -> string;
  analyzeCVForATS : string -> option AIAnalysis;
  timeOfRead : Z;
  timeOfWrite : Z }.

Definition analyzeCV (env : AnalysisEnv) (c : BrowserCache CVData) (cvContent : string)
  : BrowserCache CVData * CVData :=
  let cvHash := createHash env cvContent in
  match CacheService.getCachedCVAnalysis c (timeOfRead env) cvHash with
  | (c1, Some cachedAnalysis) => (c1, cachedAnalysis)
  | (c1, None) =>
      match analyzeCVForATS env cvContent with
      | Some aiAnalysis =>
          let cvData := {| fileName := "uploaded-cv.pdf";
                           content := cvContent;
                           cvKeywords := aiKeywords aiAnalysis;
                           atsScore := aiScore aiAnalysis;
                           suggestions := aiSuggestions aiAnalysis |} in
          (CacheService.cacheCVAnalysis c1 (timeOfWrite env) cvHash cvData, cvData)
      | None => (c1, basicAnalyzeCV cvContent)
      end
  end.

(** [tailorCVForJob]: [aiTailored] is the outcome of
    [aiService.tailorCVForJob], asked for only when a job and a profile
    are given; [None] when it throws. *)
Definition tailorCVForJob (cvContent : string) (jobKeywords : list string)
    (jobAndProfile : bool) (aiTailored : option string) : string :=
  match jobAndProfile, aiTailored with
  | true, Some tailoredCV => tailoredCV
  | _, _ => basicTailorCV cvContent jobKeywords
  end.

End WithHost.
End CVAnalysis.

(** ** Documents: [DocumentParserService.validateDocumentContent] *)

Module DocumentParserService.
Section WithHost.
Context {host : JsString.Host}.

(** [new AppError(message, statusCode)] *)
Definition newAppErrorWith (msg : string) (status : Z) : AppError :=
  {| name := "AppError"; message := msg; statusCode := status;
     code := "INTERNAL_ERROR"; isOperational := true |}.

Definition tooShortMessage (minLength : Z) : string :=
  "CV content is too short. Minimum " ++ JsString.ofZ minLength ++ " characters required.".

Definition tooLongMessage (maxLength : Z) : string :=
  "CV content is too long. Maximum " ++ JsString.ofZ maxLength ++ " characters allowed.".

Definition missingSectionsMessage : string :=
  "CV appears to be missing essential sections (experience, skills, education).".

Definition essentialSections : list string := [ "experience"; "skill"; "education" ].

Definition validateDocumentContent (content : string) : completion unit :=
  let minLength := 200 in
  let maxLength := 10000 in
  if Z.of_nat (JsString.length16 content) <? minLength
  then Throw (AppErr (newAppErrorWith (tooShortMessage minLength) 400))
  else if maxLength <? Z.of_nat (JsString.length16 content)
  then Throw (AppErr (newAppErrorWith (tooLongMessage maxLength) 400))
  else
    let lowerContent := JsString.toLowerCase content in
    let missingSections :=
      List.filter (fun section => negb (JsString.includes section lowerContent))
                  essentialSections in
    if (2 <? length missingSections)%nat
    then Throw (AppErr (newAppErrorWith missingSectionsMessage 400))
    else Return tt.

End WithHost.
End DocumentParserService.

(** ** Error handling: [handleError] *)

(** What a [catch] clause receives: an [Error], or a value that is not
    one. *)
Inductive thrown :=
| ThrownError (e : exn)
| ThrownValue.

Definition handleError (error : thrown) : AppError :=
  match error with
  | ThrownError (AppErr e) => e
  | ThrownError (JsError msg) =>
      {| name := "AppError"; message := msg; statusCode := 500;
         code := "UNKNOWN_ERROR"; isOperational := true |}
  | ThrownValue =>
      {| name := "AppError"; message := "An unknown error occurred"; statusCode := 500;
         code := "UNKNOWN_ERROR"; isOperational := true |}
  end.

(** ** The job list of the interface: [useJobs] and [App] *)

Module JobList.


(** [{ ...job, applicationStatus: status }] *)
Definition withStatus (job : Job) (status : ApplicationStatus) : Job :=
  {| id := id job; title := title job; company := company job;
     location := location job; salary := salary job;
     description := description job; requirements := requirements job;
     keywords := keywords job; url := url job; datePosted := datePosted job;
     source := source job; applicationStatus := status;
     matchScore := matchScore job |}.

(** The state update of [updateJobMutation.onSuccess], which
    [updateJobStatus] triggers. *)
Definition updateJobStatus (jobId : string) (status : ApplicationStatus)
    (prevJobs : list Job) : list Job :=
  map (fun job => if String.eqb (id job) jobId then withStatus job status else job)
      prevJobs.




End JobList.

(** * Vocabulary of the properties *)

(** ** Deduplication *)

Module Dedup.
Import JobScraperService.

(** A posting with the given title, company and source. *)
Definition posting (t c : string) (s : Source) : Job :=
  {| id := ""; title := t; company := c; location := ""; salary := "Not specified";
     description := ""; requirements := []; keywords := []; url := "";
     datePosted := ""; source := s; applicationStatus := not_applied; matchScore := 0 |}.

(** A listing element with the given title and company. *)
Definition element (t c : string) : option ListingElement :=
  Some {| titleText := t; companyText := c; locationText := "Sydney";
          salaryText := ""; href := Some "/job" |}.

(** A search in which the page of Seek cannot be loaded, Indeed lists
    three postings, two of them of the same lower-cased pair, and the
    text-generation service is not configured. *)
Definition sampleEnv : Env :=
  {| timeOfLimitCheck := 0; timeOfCacheRead := 0; timeOfCacheWrite := 3000;
     seekPage := fun _ => None;
     indeedPage := fun _ =>
       Some {| elements := [element "Dev" "Acme"; element "DEV" "acme"; element "Ops" "Acme"];
               clockAt := fun _ => 1700000000000;
               todayAt := fun _ => "2025-01-09" |};
     extractJobKeywords := fun _ _ _ => None;
     randomBelow40 := fun _ => 0 |}.

(** The posting that [scrapeIndeed] makes of the element of the given
    index on the page of [sampleEnv]. *)
Definition listed (index : Z) (t c : string) : Job :=
  {| id := "indeed_1700000000000_" ++ JsString.ofZ index; title := t; company := c;
     location := "Sydney"; salary := "Not specified";
     description := ""; requirements := []; keywords := [];
     url := "https://au.indeed.com/job";
     datePosted := "2025-01-09"; source := indeed; applicationStatus := not_applied;
     matchScore := 0 |}.

Section WithHost.
Context {host : JsString.Host}.

(** The lower-cased [(title, company)] pair of a posting. *)
Definition lowerPair (job : Job) : string * string :=
  (JsString.toLowerCase (title job), JsString.toLowerCase (company job)).

Definition keyOfPair (p : string * string) : string := fst p ++ "_" ++ snd p.

Definition samePair (p : string * string) (job : Job) : bool :=
  bool_decide (lowerPair job = p).

(** No two postings of the list have the same lower-cased pair. *)
Definition Deduplicated (jobs : list Job) : Prop := NoDup (lowerPair <$> jobs).

(** Every list the cache holds is deduplicated. *)
Definition cacheDeduplicated (c : BrowserCache (list Job)) : Prop :=
  forall key item, cache c !! key = Some item -> Deduplicated (value item).

End WithHost.

End Dedup.

(** ** The aggregate search *)

Module Search.
Import JobScraperService.

(** A search in which neither page can be loaded. *)
Definition allFailedEnv : Env :=
  {| timeOfLimitCheck := 0; timeOfCacheRead := 0; timeOfCacheWrite := 3000;
     seekPage := fun _ => None;
     indeedPage := fun _ => None;
     extractJobKeywords := fun _ _ _ => None;
     randomBelow40 := fun _ => 0 |}.

(** A search in which both pages load, each with the three listings of
    [Dedup.sampleEnv], and the search that [getJobDetails] starts finds
    neither page. *)
Definition seekLoadedEnv : Env :=
  {| timeOfLimitCheck := 0; timeOfCacheRead := 0; timeOfCacheWrite := 3000;
     seekPage := fun _ =>
       Some ({| elements := [Dedup.element "Dev" "Acme"; Dedup.element "DEV" "acme";
                             Dedup.element "Ops" "Acme"];
                clockAt := fun _ => 1700000000000;
                todayAt := fun _ => "2025-01-09" |},
             allFailedEnv);
     indeedPage := indeedPage Dedup.sampleEnv;
     extractJobKeywords := fun _ _ _ => None;
     randomBelow40 := fun _ => 0 |}.

(** A search in which the page of Seek loads as in [seekLoadedEnv] and
    the page of Indeed cannot be loaded. *)
Definition seekOnlyEnv : Env :=
  {| timeOfLimitCheck := 0; timeOfCacheRead := 0; timeOfCacheWrite := 3000;
     seekPage := seekPage seekLoadedEnv;
     indeedPage := fun _ => None;
     extractJobKeywords := fun _ _ _ => None;
     randomBelow40 := fun _ => 0 |}.

Section WithHost.
Context {host : JsString.Host}.

(** The shared state after one search for "dev" and nine more calls of
    the search limiter in the same second: the result is cached and the
    budget of ten is used up. *)
Definition busyShared : Shared :=
  let sh := fst (scrapeJobs Dedup.sampleEnv initial ["dev"] "Australia") in
  {| rateLimiter :=
       fst (checkLimits (rateLimiter sh) (replicate 9 0) "jobSearch" defaultIdentifier);
     cacheService := cacheService sh |}.

End WithHost.

End Search.

(** ** Rate limiting *)

Module RateLimit.

(** The states of the service: the constructed one, and those after
    any calls of [checkLimit]. *)
Inductive reachable : RateLimiterService -> Prop :=
| reachable_new : reachable newRateLimiterService
| reachable_checkLimit svc now operation identifier :
    reachable svc -> reachable (fst (checkLimit svc now operation identifier)).

(** The operations [config.rateLimits] names. *)
Definition configuredOperations : list string := fst <$> config.rateLimits.

(** Every limiter of the service carries the budget of its [config] entry,
    and there is no other limiter. *)
Definition configuredAs (svc : RateLimiterService) : Prop :=
  forall operation,
    match limiters svc !! operation with
    | Some lim =>
        exists limit, (operation, limit) ∈ config.rateLimits
                      /\ points lim = config.points limit
                      /\ duration lim = config.duration limit
    | None => operation ∉ configuredOperations
    end.

(** The bucket of [(operation, identifier)] has budget [P] per [D]
    seconds, and its window, started at [t0], has [k] points consumed. *)
Definition bucketIs (svc : RateLimiterService) (operation identifier : string)
    (P D t0 k : Z) : Prop :=
  exists lim, limiters svc !! operation = Some lim
              /\ points lim = P /\ duration lim = D
              /\ buckets lim !! identifier = Some {| windowStart := t0; consumed := k |}.

(** Milliseconds to whole seconds: downwards, and at least 1. *)
Definition flooredSecs (ms : Z) : Z := Z.max 1 (ms / 1000).

End RateLimit.

(** ** Scoring *)

Module Scoring.
Import ATSOptimizerService.
Section WithHost.
Context {host : JsString.Host}.


(** The points a test contributes. *)
Definition bonus (test : bool) (pts : Q) : Q := if test then pts else 0%Q.

(** The nearest integer to [num / den], halves upwards, for [0 < den]. *)
Definition roundHalfUp (num den : Z) : Z := (2 * num + den) / (2 * den).

(** The number of job keywords and of requirements that match. *)
Definition matchedKeywords (cvContent : string) (jobKeywords : list string) : Z :=
  Z.of_nat (length (List.filter (keywordMatches (extractKeywords cvContent)) jobKeywords)).

Definition matchedRequirements (cvContent : string) (jobRequirements : list string) : Z :=
  Z.of_nat (length (List.filter (requirementMatches (JsString.toLowerCase cvContent))
                                jobRequirements)).

Definition matchedPoints (cvContent : string) (jobKeywords jobRequirements : list string) : Z :=
  3 * matchedKeywords cvContent jobKeywords + 2 * matchedRequirements cvContent jobRequirements.

Definition possiblePoints (jobKeywords jobRequirements : list string) : Z :=
  3 * Z.of_nat (length jobKeywords) + 2 * Z.of_nat (length jobRequirements).

(** [percentage] is the exact rounding for every [0 <= m <= p] with
    [1 <= p <= n]. *)
Definition percentageExactUpTo (n : Z) : bool :=
  forallb (fun p => forallb (fun m => percentage m p =? roundHalfUp (100 * m) p)
                            (seqZ 0 (p + 1)))
          (seqZ 1 n).

Fixpoint filler (n : nat) : string :=
  match n with
  | O => ""
  | S n' => " x" ++ filler n'
  end.

(** A document of 500 words with the three section words, a bullet
    marker, two dates, six numbers and four vocabulary keywords. *)
Definition sampleCV : string :=
  "Experience Skills Education - March 2022 June 2021 1 2 3 4 react python aws docker"
  ++ filler 484.

(** A document of 1000 words that has "profile" but not "summary". *)
Definition longCV : string := "profile" ++ filler 999.

(** A CV with seven vocabulary keywords, and a posting with twelve
    keywords, seven of them in the CV, and two requirements, one of them
    in the CV. *)
Definition shortCV : string := "react python aws docker git sql agile".

Definition postingKeywords : list string :=
  [ "react"; "python"; "aws"; "docker"; "git"; "sql"; "agile";
    "kubernetes"; "terraform"; "scala"; "redis"; "jenkins" ].

Definition postingRequirements : list string := [ "python"; "kubernetes" ].

End WithHost.
End Scoring.

(** ** Listings *)

Module Listing.


End Listing.

(** ** Fetched postings *)

Module FetcherSpec.
Import JobScraperService.

(** What every posting read off a search page satisfies. *)
Definition freshPosting (src : Source) (job : Job) : Prop :=
  title job <> "" /\ company job <> "" /\ salary job <> ""
  /\ source job = src /\ applicationStatus job = not_applied
  /\ matchScore job = 0 /\ keywords job = []
  /\ description job = "" /\ requirements job = [].

(** The characters of the decimal notation of an integer. *)
Definition isDecimalChar (c : ascii) : bool := JsString.isDigit c || Ascii.eqb c "-".

Fixpoint allDecimal (s : string) : bool :=
  match s with
  | EmptyString => true
  | String c s' => isDecimalChar c && allDecimal s'
  end.

End FetcherSpec.

(** ** Suggestions and tailoring *)

Module Advice.
Import CVAnalysis.

(** The items a test adds. *)
Definition when (test : bool) (items : list string) : list string :=
  if test then items else [].

(** An analysis environment whose text-generation service is not
    available, and one in which it answers. *)
Definition offlineEnv : AnalysisEnv :=
  {| createHash := fun text => text;
     analyzeCVForATS := fun _ => None;
     timeOfRead := 0;
     timeOfWrite := 2000 |}.

Definition onlineEnv : AnalysisEnv :=
  {| createHash := fun text => text;
     analyzeCVForATS := fun _ =>
       Some {| aiScore := 82; aiKeywords := ["react"]; aiSuggestions := [] |};
     timeOfRead := 0;
     timeOfWrite := 2000 |}.

End Advice.

(** ** The job list *)

Module Interface.



End Interface.

(** * Properties *)

(** ** Double-precision arithmetic *)

Module JsNumberFacts.
Import SpecFloat JsNumber.

Lemma binary_round_aux_nonNegative mx ex lx :
  nonNegative (binary_round_aux prec emax false mx ex lx).
Proof.
  unfold binary_round_aux.
  destruct (shr_fexp prec emax mx ex lx) as [mrs' e'].
  destruct (shr_fexp prec emax _ e' loc_Exact) as [mrs'' e''].
  destruct (shr_m mrs''); simpl; [done | | done].
  by destruct (e'' <=? emax - prec).
Qed.

Lemma ofZ_nonNegative z : 0 <= z -> nonNegative (ofZ z).
Proof.
  intros Hz. unfold ofZ, binary_normalize.
  destruct z as [|p|p]; [done | | lia].
  unfold binary_round. destruct (shl_align _ _ _) as [mz ez].
  apply binary_round_aux_nonNegative.
Qed.

Lemma div_nonNegative x y : nonNegative x -> nonNegative y -> nonNegative (div x y).
Proof.
  unfold div, SFdiv.
  destruct x as [sx|sx| |sx mx ex], y as [sy|sy| |sy my ey]; simpl;
    try done; try (by intros -> ->).
  intros -> ->. destruct (SFdiv_core_binary _ _ _ _ _ _) as [[mz ez] lz].
  apply binary_round_aux_nonNegative.
Qed.

Lemma round_nonNegative x : nonNegative x -> 0 <= round x.
Proof.
  destruct x as [s|s| |s m e]; simpl; try done. intros ->.
  destruct (0 <=? e) eqn:He.
  - apply Z.leb_le in He. apply Z.mul_nonneg_nonneg; [lia |].
    by apply Z.pow_nonneg.
  - apply Z.leb_gt in He. apply Z.div_pos.
    + assert (0 <= 2 ^ (- e)) by (by apply Z.pow_nonneg). lia.
    + apply Z.pow_pos_nonneg; lia.
Qed.

Lemma mul_nonNegative x y : nonNegative x -> nonNegative y -> nonNegative (mul x y).
Proof.
  unfold mul, SFmul.
  destruct x as [sx|sx| |sx mx ex], y as [sy|sy| |sy my ey]; simpl;
    try done; try (by intros -> ->).
  intros -> ->. apply binary_round_aux_nonNegative.
Qed.

End JsNumberFacts.

(** ** ASCII text on any host *)

Module HostFacts.
Import JsString ATSOptimizerService Scoring.

Lemma techKeywords_ascii : forallb isAscii techKeywords = true.
Proof. vm_compute. reflexivity. Qed.

Lemma uniqueFrom_In x seen xs : In x (uniqueFrom seen xs) -> In x xs.
Proof.
  revert seen. induction xs as [|y rest IH]; intros seen; simpl; [done |].
  case_bool_decide; [right; by eapply IH |].
  intros [-> | Hin]; [by left | right; by eapply IH].
Qed.

Lemma existsb_ext_in {A} (f g : A -> bool) xs :
  (forall x, In x xs -> f x = g x) -> existsb f xs = existsb g xs.
Proof.
  induction xs as [|x rest IH]; intros Hext; simpl; [done |].
  rewrite (Hext x) by (by left). f_equal. apply IH. intros y Hy. apply Hext. by right.
Qed.

Lemma extractKeywords_In {host : Host} keyword content :
  In keyword (extractKeywords content) -> In keyword techKeywords.
Proof.
  unfold extractKeywords, unique. intros Hin.
  apply uniqueFrom_In, filter_In in Hin. exact (proj1 Hin).
Qed.

Section WithHost.
Context {host : Host}.

(** A text of ASCII characters is lowered by every host as by the host
    that lowers A to Z. *)
Lemma toLowerCase_agree s :
  isAscii s = true -> toLowerCase s = @toLowerCase asciiHost s.
Proof. apply toLowerCase_ascii. Qed.

Lemma techKeyword_agree keyword :
  In keyword techKeywords -> toLowerCase keyword = @toLowerCase asciiHost keyword.
Proof.
  intros Hin. apply toLowerCase_agree.
  pose proof techKeywords_ascii as Hall. rewrite forallb_forall in Hall. by apply Hall.
Qed.

(** On a document of ASCII characters every host extracts the keywords
    that the host which lowers A to Z extracts. *)
Lemma extractKeywords_ascii content :
  isAscii content = true ->
  extractKeywords content = @extractKeywords asciiHost content.
Proof.
  intros Hcontent. unfold extractKeywords.
  rewrite (toLowerCase_agree content Hcontent).
  rewrite (filter_ext_in
             (fun keyword => includes (toLowerCase keyword) (@toLowerCase asciiHost content))
             (fun keyword => includes (@toLowerCase asciiHost keyword)
                                      (@toLowerCase asciiHost content))
             techKeywords); [reflexivity |].
  intros keyword Hin. by rewrite (techKeyword_agree keyword Hin).
Qed.

Lemma extractKeywords_all_ascii content :
  forall keyword, In keyword (@extractKeywords asciiHost content) -> isAscii keyword = true.
Proof.
  intros keyword Hin.
  pose proof techKeywords_ascii as Hall. rewrite forallb_forall in Hall.
  exact (Hall keyword (@extractKeywords_In asciiHost keyword content Hin)).
Qed.

Lemma keywordMatches_ascii cvKeywords keyword :
  (forall cvKeyword, In cvKeyword cvKeywords -> isAscii cvKeyword = true) ->
  isAscii keyword = true ->
  keywordMatches cvKeywords keyword = @keywordMatches asciiHost cvKeywords keyword.
Proof.
  intros Hall Hkeyword.
  unfold keywordMatches. apply existsb_ext_in. intros cvKeyword Hin.
  by rewrite (toLowerCase_agree keyword Hkeyword), (toLowerCase_agree cvKeyword (Hall _ Hin)).
Qed.

Lemma matchedPoints_ascii cvContent jobKeywords jobRequirements :
  isAscii cvContent = true ->
  forallb isAscii jobKeywords = true ->
  forallb isAscii jobRequirements = true ->
  matchedPoints cvContent jobKeywords jobRequirements
  = @matchedPoints asciiHost cvContent jobKeywords jobRequirements.
Proof.
  intros Hcontent Hkeywords Hrequirements.
  rewrite forallb_forall in Hkeywords, Hrequirements.
  unfold matchedPoints, matchedKeywords, matchedRequirements.
  rewrite (extractKeywords_ascii cvContent Hcontent), (toLowerCase_agree cvContent Hcontent).
  rewrite (filter_ext_in
             (keywordMatches (@extractKeywords asciiHost cvContent))
             (@keywordMatches asciiHost (@extractKeywords asciiHost cvContent))
             jobKeywords).
  2: { intros keyword Hin.
       apply keywordMatches_ascii; [apply extractKeywords_all_ascii | by apply Hkeywords]. }
  rewrite (filter_ext_in
             (requirementMatches (@toLowerCase asciiHost cvContent))
             (@requirementMatches asciiHost (@toLowerCase asciiHost cvContent))
             jobRequirements); [reflexivity |].
  intros requirement Hin. unfold requirementMatches.
  by rewrite (toLowerCase_agree requirement (Hrequirements _ Hin)).
Qed.

Lemma basicATSScore_ascii content :
  isAscii content = true -> basicATSScore content = @basicATSScore asciiHost content.
Proof.
  intros Hcontent. unfold basicATSScore, calculateATSScore.
  by rewrite (extractKeywords_ascii content Hcontent), (toLowerCase_agree content Hcontent).
Qed.

End WithHost.

End HostFacts.

(** ** The methods of the scraper and their recursion *)

Module ScraperFacts.
Import JobScraperService.

Lemma find_Listings jobs wanted :
  List.find (fun job => idIs job (Listings wanted)) jobs = None.
Proof. by induction jobs as [|job rest IH]. Qed.

Lemma collect_seek_fulfilled found other :
  collect [Fulfilled (Found found); other] = None.
Proof. unfold collect. simpl. by destruct other as [[jobs|job]|e]. Qed.

Lemma collect_seek_rejected e other :
  collect [Rejected e; other]
  = match other with
    | Fulfilled (Postings jobs) => Some jobs
    | Fulfilled (Found _) => None
    | Rejected _ => Some []
    end.
Proof. unfold collect. simpl. by destruct other as [[jobs|job]|e']. Qed.

Lemma scrapeIndeed_outcome env keywords location :
  match indeedPage env (buildIndeedUrl keywords location) with
  | Some page =>
      scrapeIndeed env keywords location
      = Fulfilled (Postings (take 10 (listings indeed "indeed" "https://au.indeed.com" page)))
  | None =>
      scrapeIndeed env keywords location
      = Rejected (AppErr (ScrapingError "Failed to scrape Indeed"))
  end.
Proof. unfold scrapeIndeed. by destruct (indeedPage env _). Qed.

Section WithHost.
Context {host : JsString.Host}.

(** [scrapeJobs] in terms of the other methods. *)
Lemma scrapeJobs_unfold env sh keywords location :
  scrapeJobs env sh keywords location
  = match checkLimit (rateLimiter sh) (timeOfLimitCheck env) "jobSearch" defaultIdentifier with
    | (rl, Throw e) => ({| rateLimiter := rl; cacheService := cacheService sh |}, Throw e)
    | (rl, Return _) =>
        let cacheKey := JsString.join "," keywords ++ ":" ++ location in
        match CacheService.getCachedJobSearch (cacheService sh) (timeOfCacheRead env)
                cacheKey location with
        | (c, Some cachedResults) =>
            ({| rateLimiter := rl; cacheService := c |}, Return cachedResults)
        | (c, None) =>
            let '(sh', seekResult) :=
              scrapeSeek env {| rateLimiter := rl; cacheService := c |} keywords location in
            scrapeJobsTry env sh' cacheKey location
              [ seekResult; scrapeIndeed env keywords location ]
        end
    end.
Proof. by destruct env. Qed.

(** Called with postings, [getJobDetails] runs its search and finds
    nothing. *)
Lemma getJobDetails_Listings env sh jobs :
  getJobDetails env sh (Listings jobs)
  = (fst (scrapeJobs env sh ["software"; "developer"; "engineer"] "Australia"), None).
Proof.
  unfold getJobDetails, getJobDetailsWith.
  destruct (scrapeJobs env sh _ "Australia") as [sh' [found|e]]; [| done].
  by rewrite find_Listings.
Qed.

(** What [scrapeSeek] does: nothing but reject when its page cannot be
    loaded; otherwise it runs the search of [getJobDetails] and fulfils
    with [null]. *)
Lemma scrapeSeek_outcome env sh keywords location :
  match seekPage env (buildSeekUrl keywords location) with
  | Some (page, nested) =>
      scrapeSeek env sh keywords location
      = (fst (scrapeJobs nested sh ["software"; "developer"; "engineer"] "Australia"),
         Fulfilled (Found None))
  | None =>
      scrapeSeek env sh keywords location
      = (sh, Rejected (AppErr (ScrapingError "Failed to scrape Seek")))
  end.
Proof.
  unfold scrapeSeek. destruct (seekPage env _) as [[page nested]|]; [| done].
  unfold scrapeSeekWith.
  change (getJobDetailsWith (scrapeJobs nested)) with (getJobDetails nested).
  by rewrite getJobDetails_Listings.
Qed.

(** A search that passes the limiter and misses the cache: it returns
    when the page of Seek cannot be loaded, and throws when it loads. *)
Lemma scrapeJobs_fetch env sh keywords location rl c :
  checkLimit (rateLimiter sh) (timeOfLimitCheck env) "jobSearch" defaultIdentifier
    = (rl, Return tt) ->
  CacheService.getCachedJobSearch (cacheService sh) (timeOfCacheRead env)
    (JsString.join "," keywords ++ ":" ++ location) location = (c, None) ->
  match seekPage env (buildSeekUrl keywords location) with
  | Some (page, nested) =>
      scrapeJobs env sh keywords location
      = (fst (scrapeJobs nested {| rateLimiter := rl; cacheService := c |}
                ["software"; "developer"; "engineer"] "Australia"),
         Throw (AppErr (ScrapingError "Failed to scrape jobs from all sources")))
  | None =>
      let jobs := match scrapeIndeed env keywords location with
                  | Fulfilled (Postings jobs) => jobs
                  | _ => []
                  end in
      let enhancedJobs := enhanceJobsWithAI env (removeDuplicates jobs) in
      scrapeJobs env sh keywords location
      = ({| rateLimiter := rl;
            cacheService :=
              CacheService.cacheJobSearch c (timeOfCacheWrite env)
                (JsString.join "," keywords ++ ":" ++ location) location enhancedJobs |},
         Return enhancedJobs)
  end.
Proof.
  intros Hlimit Hmiss. rewrite scrapeJobs_unfold, Hlimit. cbv zeta. rewrite Hmiss.
  pose proof (scrapeSeek_outcome env {| rateLimiter := rl; cacheService := c |}
                keywords location) as Hseek.
  destruct (seekPage env _) as [[page nested]|]; rewrite Hseek.
  - unfold scrapeJobsTry. by rewrite collect_seek_fulfilled.
  - unfold scrapeJobsTry. rewrite collect_seek_rejected.
    pose proof (scrapeIndeed_outcome env keywords location) as Hindeed.
    destruct (indeedPage env _); rewrite Hindeed; reflexivity.
Qed.

End WithHost.

End ScraperFacts.

(** ** Deduplication *)

Module DedupFacts.
Import JobScraperService Dedup.

Section WithHost.
Context {host : JsString.Host}.

Lemma dedupKey_pair job : dedupKey job = keyOfPair (lowerPair job).
Proof. reflexivity. Qed.

Lemma removeDuplicatesFrom_keys seen jobs :
  NoDup (dedupKey <$> removeDuplicatesFrom seen jobs)
  /\ (forall job, job ∈ removeDuplicatesFrom seen jobs -> dedupKey job ∉ seen).
Proof.
  revert seen. induction jobs as [|job rest IH]; intros seen; simpl.
  - split; [constructor | intros job Hin; inversion Hin].
  - case_bool_decide as Hseen.
    + apply IH.
    + destruct (IH ({[dedupKey job]} ∪ seen)) as [Hnd Hout]. split.
      * rewrite fmap_cons. constructor; [| exact Hnd].
        intros Hin. apply list_elem_of_fmap in Hin as (j & Hk & Hj).
        apply Hout in Hj. rewrite <- Hk in Hj.
        apply Hj, elem_of_union_l, elem_of_singleton. reflexivity.
      * intros j Hj. apply elem_of_cons in Hj as [-> | Hj]; [exact Hseen |].
        apply Hout in Hj. intros Hs. apply Hj, elem_of_union_r, Hs.
Qed.

Lemma removeDuplicatesFrom_deduplicated seen jobs :
  Deduplicated (removeDuplicatesFrom seen jobs).
Proof.
  unfold Deduplicated. apply (NoDup_fmap_1 keyOfPair).
  rewrite <- list_fmap_compose.
  exact (proj1 (removeDuplicatesFrom_keys seen jobs)).
Qed.

Lemma removeDuplicatesFrom_sublist seen jobs :
  sublist (removeDuplicatesFrom seen jobs) jobs.
Proof.
  revert seen. induction jobs as [|job rest IH]; intros seen; simpl.
  - constructor.
  - case_bool_decide; [apply sublist_cons | apply sublist_skip]; apply IH.
Qed.

Lemma removeDuplicatesFrom_find seen jobs p :
  p ∈ lowerPair <$> removeDuplicatesFrom seen jobs ->
  List.find (samePair p) (removeDuplicatesFrom seen jobs) = List.find (samePair p) jobs.
Proof.
  revert seen. induction jobs as [|job rest IH]; intros seen Hp; simpl in *; [done|].
  case_bool_decide as Hseen.
  - unfold samePair at 2. case_bool_decide as Hjob; [| by apply IH].
    exfalso. apply list_elem_of_fmap in Hp as (j & Hpj & Hj).
    apply (proj2 (removeDuplicatesFrom_keys seen rest)) in Hj. apply Hj.
    rewrite !dedupKey_pair, <- Hpj, <- Hjob in *. exact Hseen.
  - simpl. unfold samePair at 1 3. case_bool_decide as Hjob; [done|].
    apply IH. rewrite fmap_cons in Hp. apply elem_of_cons in Hp as [Hp | Hp]; [| exact Hp].
    congruence.
Qed.

Lemma enhanceJobsFrom_pairs env n jobs :
  lowerPair <$> enhanceJobsFrom env n jobs = lowerPair <$> jobs.
Proof.
  revert n. induction jobs as [|job rest IH]; intros n; simpl; [done|].
  destruct (extractJobKeywords env n (description job) (title job));
    rewrite !fmap_cons, IH; reflexivity.
Qed.

Lemma set_cacheDeduplicated c now key jobs ttl :
  cacheDeduplicated c -> Deduplicated jobs ->
  cacheDeduplicated (fst (BrowserCache.set c now key jobs ttl)).
Proof.
  intros Hc Hjobs k item. simpl. rewrite lookup_insert.
  case_decide; [intros [= <-]; exact Hjobs | apply Hc].
Qed.

Lemma get_cacheDeduplicated c now key :
  cacheDeduplicated c ->
  cacheDeduplicated (fst (BrowserCache.get c now key))
  /\ (forall jobs, snd (BrowserCache.get c now key) = Some jobs -> Deduplicated jobs).
Proof.
  intros Hc. unfold BrowserCache.get.
  destruct (cache c !! key) as [item|] eqn:Hk; simpl.
  - destruct (BrowserCache.isExpired now item); simpl.
    + split; [| done]. intros k it. simpl. rewrite lookup_delete.
      case_decide; [done | apply Hc].
    + split; [exact Hc |]. intros jobs [= <-]. exact (Hc _ _ Hk).
  - split; [exact Hc | done].
Qed.

Lemma removeDuplicatesFrom_app seen pre rest :
  removeDuplicatesFrom seen (pre ++ rest)
  = (removeDuplicatesFrom seen pre
     ++ removeDuplicatesFrom (list_to_set (dedupKey <$> pre) ∪ seen) rest)%list.
Proof.
  revert seen. induction pre as [|job pre IH]; intros seen; simpl.
  - by rewrite (left_id_L ∅ (∪)).
  - case_bool_decide as Hseen; rewrite IH; simpl.
    + do 2 f_equal. apply set_eq. intros k.
      rewrite !elem_of_union, elem_of_singleton. split; [tauto |].
      intros [[-> | Hk] | Hk]; tauto.
    + do 3 f_equal. apply set_eq. intros k.
      rewrite !elem_of_union, elem_of_singleton. tauto.
Qed.

(** A posting whose pair was met before is dropped, and the rest of the
    list is treated as if it had not been there. *)
Lemma removeDuplicates_later_duplicate pre job post :
  lowerPair job ∈ lowerPair <$> pre ->
  removeDuplicates (pre ++ job :: post) = removeDuplicates (pre ++ post).
Proof.
  intros Hdup. unfold removeDuplicates. rewrite !removeDuplicatesFrom_app. f_equal.
  simpl. rewrite bool_decide_eq_true_2; [reflexivity |].
  apply elem_of_union_l, elem_of_list_to_set.
  apply list_elem_of_fmap in Hdup as (earlier & Hpair & Hearlier).
  apply list_elem_of_fmap. exists earlier. by rewrite !dedupKey_pair, Hpair.
Qed.

(** A posting whose key was not met before is kept, in its place. *)
Lemma removeDuplicates_first_kept pre job post :
  keyOfPair (lowerPair job) ∉ keyOfPair <$> (lowerPair <$> pre) ->
  exists kept, removeDuplicates (pre ++ job :: post) = (removeDuplicates pre ++ job :: kept)%list.
Proof.
  intros Hfirst. unfold removeDuplicates. rewrite removeDuplicatesFrom_app.
  simpl. rewrite bool_decide_eq_false_2; [by eexists |].
  rewrite elem_of_union, elem_of_list_to_set, dedupKey_pair.
  intros [Hseen | Hseen]; [| by apply not_elem_of_empty in Hseen].
  apply Hfirst. rewrite <- list_fmap_compose.
  apply list_elem_of_fmap in Hseen as (earlier & Hkey & Hearlier).
  apply list_elem_of_fmap. exists earlier. by rewrite Hkey, dedupKey_pair.
Qed.

(** Whatever a search does, nested searches included, it keeps the
    lists of the cache deduplicated, and so is what it returns. *)
Lemma scrapeJobs_keeps_deduplicated env :
  forall sh keywords location,
    cacheDeduplicated (cacheService sh) ->
    cacheDeduplicated (cacheService (fst (scrapeJobs env sh keywords location)))
    /\ (forall result, snd (scrapeJobs env sh keywords location) = Return result ->
          Deduplicated result).
Proof.
  induction env as [env IH] using Env_nested_ind. intros sh keywords location Hc.
  rewrite ScraperFacts.scrapeJobs_unfold.
  destruct (checkLimit _ _ _ _) as [rl [[]|e]] eqn:Hlimit; [| by split].
  cbv zeta. unfold CacheService.getCachedJobSearch.
  destruct (get_cacheDeduplicated (cacheService sh) (timeOfCacheRead env)
              (CacheService.jobSearchKey (JsString.join "," keywords ++ ":" ++ location)
                 location) Hc) as [Hc1 Hhit].
  destruct (BrowserCache.get _ _ _) as [c [cached|]]; simpl in Hc1, Hhit.
  { split; [exact Hc1 |]. intros result [= <-]. by apply Hhit. }
  pose proof (ScraperFacts.scrapeSeek_outcome env {| rateLimiter := rl; cacheService := c |}
                keywords location) as Hseek.
  destruct (seekPage env _) as [[page nested]|] eqn:Hpage; rewrite Hseek.
  - unfold scrapeJobsTry. rewrite ScraperFacts.collect_seek_fulfilled. simpl.
    split; [| done].
    by apply (IH _ _ _ Hpage {| rateLimiter := rl; cacheService := c |}).
  - unfold scrapeJobsTry. rewrite ScraperFacts.collect_seek_rejected.
    assert (forall jobs, Deduplicated (enhanceJobsWithAI env (removeDuplicates jobs))) as Hd.
    { intros jobs. unfold Deduplicated, enhanceJobsWithAI. rewrite enhanceJobsFrom_pairs.
      apply removeDuplicatesFrom_deduplicated. }
    destruct (scrapeIndeed env keywords location) as [[jobs|job]|e]; simpl.
    + split; [by apply set_cacheDeduplicated | by intros result [= <-]].
    + by split.
    + split; [by apply set_cacheDeduplicated | by intros result [= <-]].
Qed.

Lemma scrapeJobs_deduplicated env sh keywords location sh' result :
  cacheDeduplicated (cacheService sh) ->
  scrapeJobs env sh keywords location = (sh', Return result) ->
  Deduplicated result /\ cacheDeduplicated (cacheService sh').
Proof.
  intros Hc Hrun.
  destruct (scrapeJobs_keeps_deduplicated env sh keywords location Hc) as [Hcache Hresult].
  rewrite Hrun in Hcache, Hresult. split; [by apply Hresult | exact Hcache].
Qed.

(** C4: on every host and for every list of postings, [removeDuplicates]
    returns a list in which no two postings have the same lower-cased
    (title, company) pair; it only drops postings, keeping the order; for
    each pair it retains, the posting kept is the first one of the input
    with that pair; a posting whose pair occurred earlier in the input is
    dropped, whatever its source and the other fields; and a posting is
    kept, in its place, whenever the key made of its pair, lower-cased
    title, underscore, lower-cased company, did not occur earlier.  Hence
    a successful [scrapeJobs], fetched or served from the cache, returns a
    list without two postings of the same lower-cased pair. *)
Theorem removeDuplicates_first_seen_wins (jobs : list Job) :
  Deduplicated (removeDuplicates jobs)
  /\ sublist (removeDuplicates jobs) jobs
  /\ (forall p, p ∈ lowerPair <$> removeDuplicates jobs ->
        List.find (samePair p) (removeDuplicates jobs) = List.find (samePair p) jobs)
  /\ (forall pre job post,
        jobs = (pre ++ job :: post)%list ->
        (lowerPair job ∈ lowerPair <$> pre ->
         removeDuplicates jobs = removeDuplicates (pre ++ post))
        /\ (keyOfPair (lowerPair job) ∉ keyOfPair <$> (lowerPair <$> pre) ->
            exists kept,
              removeDuplicates jobs = (removeDuplicates pre ++ job :: kept)%list))
  /\ (forall env sh keywords location sh' result,
        cacheDeduplicated (cacheService sh) ->
        scrapeJobs env sh keywords location = (sh', Return result) ->
        Deduplicated result /\ cacheDeduplicated (cacheService sh')).
Proof.
  split; [apply removeDuplicatesFrom_deduplicated |].
  split; [apply removeDuplicatesFrom_sublist |].
  split; [apply removeDuplicatesFrom_find |].
  split.
  - intros pre job post ->. split.
    + apply removeDuplicates_later_duplicate.
    + apply removeDuplicates_first_kept.
  - intros env sh keywords location sh' result.
    apply scrapeJobs_deduplicated.
Qed.

(** C10: on every host, the deduplication key is lowercase(title) + "_" + lowercase(company),
    so the postings ("a_b", "c") and ("a", "b_c"), whose pairs differ,
    have the same key "a_b_c", and the later one is dropped. *)
Theorem dedupKey_collision :
  (forall job, dedupKey job
               = JsString.toLowerCase (title job) ++ "_" ++ JsString.toLowerCase (company job))
  /\ let first := posting "a_b" "c" seek in
     let later := posting "a" "b_c" indeed in
     lowerPair first <> lowerPair later
     /\ dedupKey first = "a_b_c"
     /\ dedupKey later = "a_b_c"
     /\ removeDuplicates [first; later] = [first].
Proof.
  split; [reflexivity |]. cbv zeta.
  assert (dedupKey (posting "a_b" "c" seek) = "a_b_c") as Hfirst.
  { unfold dedupKey, posting. cbn [title company].
    rewrite !JsString.toLowerCase_ascii by reflexivity. reflexivity. }
  assert (dedupKey (posting "a" "b_c" indeed) = "a_b_c") as Hlater.
  { unfold dedupKey, posting. cbn [title company].
    rewrite !JsString.toLowerCase_ascii by reflexivity. reflexivity. }
  split.
  { unfold lowerPair, posting. cbn [title company].
    rewrite !JsString.toLowerCase_ascii by reflexivity. vm_compute. discriminate. }
  split; [exact Hfirst |]. split; [exact Hlater |].
  unfold removeDuplicates. cbn [removeDuplicatesFrom]. rewrite Hfirst, Hlater.
  vm_compute. reflexivity.
Qed.

End WithHost.

#[local] Existing Instance JsString.asciiHost.

Lemma initial_cacheDeduplicated : cacheDeduplicated (cacheService initial).
Proof. intros key item. simpl. rewrite lookup_empty. discriminate. Defined.

Lemma removeDuplicates_first_seen_wins_witness :
  let jobs := [posting "Dev" "Acme" seek; posting "DEV" "acme" indeed;
               posting "Ops" "Acme" indeed] in
  removeDuplicates jobs = [posting "Dev" "Acme" seek; posting "Ops" "Acme" indeed]
  /\ snd (scrapeJobs sampleEnv initial ["dev"] "Australia")
     = Return [listed 0 "Dev" "Acme"; listed 2 "Ops" "Acme"]
  /\ Deduplicated [listed 0 "Dev" "Acme"; listed 2 "Ops" "Acme"].
Proof.
  intros jobs.
  destruct (removeDuplicates_first_seen_wins jobs) as (_ & _ & _ & Hplaces & Hsearch).
  split.
  - rewrite (proj1 (Hplaces [posting "Dev" "Acme" seek] (posting "DEV" "acme" indeed)
                      [posting "Ops" "Acme" indeed] eq_refl)); [reflexivity |].
    apply list_elem_of_singleton. reflexivity.
  - assert (scrapeJobs sampleEnv initial ["dev"] "Australia"
            = (fst (scrapeJobs sampleEnv initial ["dev"] "Australia"),
               Return [listed 0 "Dev" "Acme"; listed 2 "Ops" "Acme"])) as Hrun
      by (vm_compute; reflexivity).
    split; [by rewrite Hrun |].
    exact (proj1 (Hsearch sampleEnv initial ["dev"] "Australia" _ _
                    initial_cacheDeduplicated Hrun)).
Defined.

End DedupFacts.

(** ** The aggregate search *)

Module SearchFacts.
Import JobScraperService Dedup Search.

(** The limiter of a fresh service lets the first search through. *)
Lemma initial_limit_passes now :
  exists rl, checkLimit (rateLimiter initial) now "jobSearch" defaultIdentifier = (rl, Return tt).
Proof. eexists. vm_compute. reflexivity. Qed.

Lemma initial_cache_misses now query location :
  exists c, CacheService.getCachedJobSearch (cacheService initial) now query location = (c, None).
Proof. eexists. unfold CacheService.getCachedJobSearch, BrowserCache.get. simpl.
  rewrite lookup_empty. reflexivity. Qed.

Lemma checkLimit_throws svc now operation identifier svc' e :
  checkLimit svc now operation identifier = (svc', Throw e) -> isScrapingError e = false.
Proof.
  unfold checkLimit. destruct (limiters svc !! operation) as [lim|].
  - destruct (consume lim now identifier) as [lim' [res|res]]; [done |].
    by intros [= _ <-].
  - by intros [= _ <-].
Qed.

Section WithHost.
Context {host : JsString.Host}.

(** [scrapeSeek] rejects exactly when its page cannot be loaded, whatever
    the shared state. *)
Lemma scrapeSeek_rejected env sh keywords location e :
  snd (scrapeSeek env sh keywords location) = Rejected e ->
  seekPage env (buildSeekUrl keywords location) = None.
Proof.
  pose proof (ScraperFacts.scrapeSeek_outcome env sh keywords location) as Hseek.
  destruct (seekPage env _) as [[page nested]|]; [| done]. by rewrite Hseek.
Qed.

(** C1 (what the code does): when both source fetchers fail, a search
    that passes the rate limiter and misses the cache completes normally
    with the empty list; no [ScrapingError] is thrown. *)
Theorem scrapeJobs_all_sources_failed env sh keywords location rl c e1 e2 :
  checkLimit (rateLimiter sh) (timeOfLimitCheck env) "jobSearch" defaultIdentifier
    = (rl, Return tt) ->
  CacheService.getCachedJobSearch (cacheService sh) (timeOfCacheRead env)
    (JsString.join "," keywords ++ ":" ++ location) location = (c, None) ->
  snd (scrapeSeek env {| rateLimiter := rl; cacheService := c |} keywords location)
    = Rejected e1 ->
  scrapeIndeed env keywords location = Rejected e2 ->
  snd (scrapeJobs env sh keywords location) = Return [].
Proof.
  intros Hlimit Hmiss Hseek%scrapeSeek_rejected Hindeed.
  pose proof (ScraperFacts.scrapeJobs_fetch env sh keywords location rl c Hlimit Hmiss)
    as Hfetch.
  rewrite Hseek, Hindeed in Hfetch. cbv zeta in Hfetch. by rewrite Hfetch.
Qed.

(** C6 (what the code does): [scrapeSeek] ends with a call of
    [getJobDetails], of which the class has only the method written for
    one identifier; so whenever the page of Seek loads, [scrapeSeek]
    fulfils with [null] after a nested search, spreading [null] throws,
    and the search, let through by the limiter and missing the cache,
    throws the [ScrapingError] "Failed to scrape jobs from all sources",
    whatever Indeed does: when Indeed fails the call is aborted although
    one promise was fulfilled, and when Indeed succeeds its postings are
    lost.  Nothing is cached for the search; the shared state is the one
    the nested search left. *)
Theorem scrapeJobs_seek_answer_aborts env sh keywords location rl c page nested :
  checkLimit (rateLimiter sh) (timeOfLimitCheck env) "jobSearch" defaultIdentifier
    = (rl, Return tt) ->
  CacheService.getCachedJobSearch (cacheService sh) (timeOfCacheRead env)
    (JsString.join "," keywords ++ ":" ++ location) location = (c, None) ->
  seekPage env (buildSeekUrl keywords location) = Some (page, nested) ->
  snd (scrapeSeek env {| rateLimiter := rl; cacheService := c |} keywords location)
    = Fulfilled (Found None)
  /\ snd (scrapeJobs env sh keywords location)
     = Throw (AppErr (ScrapingError "Failed to scrape jobs from all sources"))
  /\ fst (scrapeJobs env sh keywords location)
     = fst (scrapeJobs nested {| rateLimiter := rl; cacheService := c |}
              ["software"; "developer"; "engineer"] "Australia").
Proof.
  intros Hlimit Hmiss Hpage.
  pose proof (ScraperFacts.scrapeJobs_fetch env sh keywords location rl c Hlimit Hmiss)
    as Hfetch.
  pose proof (ScraperFacts.scrapeSeek_outcome env {| rateLimiter := rl; cacheService := c |}
                keywords location) as Hseek.
  rewrite Hpage in Hfetch, Hseek. by rewrite Hfetch, Hseek.
Qed.

(** The failure of Seek alone is tolerated: the search returns the
    postings of Indeed, deduplicated and enriched. *)
Lemma scrapeJobs_seek_failure_tolerated env sh keywords location rl c e jobs :
  checkLimit (rateLimiter sh) (timeOfLimitCheck env) "jobSearch" defaultIdentifier
    = (rl, Return tt) ->
  CacheService.getCachedJobSearch (cacheService sh) (timeOfCacheRead env)
    (JsString.join "," keywords ++ ":" ++ location) location = (c, None) ->
  snd (scrapeSeek env {| rateLimiter := rl; cacheService := c |} keywords location)
    = Rejected e ->
  scrapeIndeed env keywords location = Fulfilled (Postings jobs) ->
  snd (scrapeJobs env sh keywords location)
  = Return (enhanceJobsWithAI env (removeDuplicates jobs)).
Proof.
  intros Hlimit Hmiss Hseek%scrapeSeek_rejected Hindeed.
  pose proof (ScraperFacts.scrapeJobs_fetch env sh keywords location rl c Hlimit Hmiss)
    as Hfetch.
  rewrite Hseek, Hindeed in Hfetch. cbv zeta in Hfetch. by rewrite Hfetch.
Qed.

End WithHost.

#[local] Existing Instance JsString.asciiHost.

Lemma scrapeJobs_all_sources_failed_witness :
  snd (scrapeJobs allFailedEnv initial ["developer"] "Australia") = Return [].
Proof.
  eapply (scrapeJobs_all_sources_failed allFailedEnv initial ["developer"] "Australia");
    vm_compute; reflexivity.
Defined.

Lemma scrapeJobs_seek_answer_aborts_witness :
  (scrapeIndeed seekOnlyEnv ["developer"] "Australia"
   = Rejected (AppErr (ScrapingError "Failed to scrape Indeed"))
   /\ snd (scrapeJobs seekOnlyEnv initial ["developer"] "Australia")
      = Throw (AppErr (ScrapingError "Failed to scrape jobs from all sources")))
  /\ (scrapeIndeed seekLoadedEnv ["developer"] "Australia"
      = Fulfilled (Postings [listed 0 "Dev" "Acme"; listed 1 "DEV" "acme";
                             listed 2 "Ops" "Acme"])
      /\ snd (scrapeJobs seekLoadedEnv initial ["developer"] "Australia")
         = Throw (AppErr (ScrapingError "Failed to scrape jobs from all sources"))).
Proof.
  split; (split; [vm_compute; reflexivity |]).
  - eapply (scrapeJobs_seek_answer_aborts seekOnlyEnv initial ["developer"] "Australia");
      vm_compute; reflexivity.
  - eapply (scrapeJobs_seek_answer_aborts seekLoadedEnv initial ["developer"] "Australia");
      vm_compute; reflexivity.
Defined.

(** The empty list of a search in which all sources failed is cached like
    any result: the same search, repeated while the entry lives, returns
    it again even though a source would now answer. *)
Remark scrapeJobs_empty_result_cached :
  let afterFailure := fst (scrapeJobs allFailedEnv initial ["dev"] "Australia") in
  scrapeIndeed sampleEnv ["dev"] "Australia"
    = Fulfilled (Postings [listed 0 "Dev" "Acme"; listed 1 "DEV" "acme";
                           listed 2 "Ops" "Acme"])
  /\ snd (scrapeJobs sampleEnv afterFailure ["dev"] "Australia") = Return [].
Proof. cbv zeta. split; vm_compute; reflexivity. Qed.

End SearchFacts.

(** ** Rate limiting *)

Module RateLimitFacts.
Import RateLimit.

Lemma new_configuredAs : configuredAs newRateLimiterService.
Proof.
  intros operation. unfold newRateLimiterService. simpl.
  rewrite !lookup_insert. unfold configuredOperations, config.rateLimits.
  repeat case_decide; subst;
    try (eexists; split; [| split; reflexivity]; by repeat constructor).
  rewrite lookup_empty. simpl. intros Hin.
  repeat (apply elem_of_cons in Hin as [Hin | Hin]; [congruence |]).
  inversion Hin.
Qed.

Lemma consume_budget lim now id :
  points (fst (consume lim now id)) = points lim
  /\ duration (fst (consume lim now id)) = duration lim.
Proof. unfold consume. by destruct (consumed _ <? points lim). Qed.

Lemma checkLimit_configuredAs svc now operation identifier :
  configuredAs svc -> configuredAs (fst (checkLimit svc now operation identifier)).
Proof.
  intros Hcfg op. unfold checkLimit.
  destruct (limiters svc !! operation) as [lim|] eqn:Hop; [| apply Hcfg].
  pose proof (consume_budget lim now identifier) as [Hp Hd].
  assert (forall lim', points lim' = points lim -> duration lim' = duration lim ->
            match <[operation := lim']> (limiters svc) !! op with
            | Some l => exists limit, (op, limit) ∈ config.rateLimits
                          /\ points l = config.points limit
                          /\ duration l = config.duration limit
            | None => op ∉ configuredOperations
            end) as Hins.
  { intros lim' Hp' Hd'. rewrite lookup_insert. case_decide as Heq; [| apply Hcfg].
    subst op. specialize (Hcfg operation). rewrite Hop in Hcfg.
    destruct Hcfg as (limit & Hin & Hpl & Hdl). exists limit. by rewrite Hp', Hd'. }
  destruct (consume lim now identifier) as [lim' [res|res]]; simpl in *; by apply Hins.
Qed.

Lemma reachable_configuredAs svc : reachable svc -> configuredAs svc.
Proof.
  induction 1 as [| svc now operation identifier _ IH].
  - apply new_configuredAs.
  - by apply checkLimit_configuredAs.
Qed.

(** C9: an operation without a limiter (under the default configuration,
    any name other than jobSearch, cvTailoring and coverLetterGeneration)
    makes [checkLimit] throw a plain [Error] "Rate limiter not configured
    for operation: ...", which is not a [RateLimitError], and leaves the
    whole limiter state, hence every bucket, as it was. *)
Theorem checkLimit_unconfigured svc now operation identifier :
  limiters svc !! operation = None
  \/ (reachable svc
      /\ operation ∉ ["jobSearch"; "cvTailoring"; "coverLetterGeneration"]) ->
  checkLimit svc now operation identifier
    = (svc, Throw (JsError (notConfiguredMessage operation)))
  /\ isRateLimitError (JsError (notConfiguredMessage operation)) = false.
Proof.
  intros Hnone. split; [| reflexivity].
  assert (limiters svc !! operation = None) as Hop.
  { destruct Hnone as [Hop | [Hreach Hname]]; [exact Hop |].
    pose proof (reachable_configuredAs svc Hreach operation) as Hcfg.
    destruct (limiters svc !! operation) as [lim|]; [| reflexivity].
    destruct Hcfg as (limit & Hin & _). exfalso. apply Hname.
    change ["jobSearch"; "cvTailoring"; "coverLetterGeneration"]
      with (fst <$> config.rateLimits).
    apply list_elem_of_fmap. by exists (operation, limit). }
  unfold checkLimit. by rewrite Hop.
Qed.

Lemma checkLimit_unconfigured_witness :
  checkLimit newRateLimiterService 0 "profileExport" defaultIdentifier
    = (newRateLimiterService,
       Throw (JsError "Rate limiter not configured for operation: profileExport")).
Proof.
  refine (proj1 (checkLimit_unconfigured newRateLimiterService 0 "profileExport"
                   defaultIdentifier _)).
  right. split; [constructor |].
  intros Hin. repeat (apply elem_of_cons in Hin as [Hin | Hin]; [discriminate |]).
  inversion Hin.
Defined.

Lemma retrySecs_positive ms : 0 <= ms -> 0 < retrySecs ms.
Proof.
  intros Hms. unfold retrySecs.
  pose proof (JsNumberFacts.round_nonNegative _
                (JsNumberFacts.div_nonNegative _ _
                   (JsNumberFacts.ofZ_nonNegative ms Hms)
                   (JsNumberFacts.ofZ_nonNegative 1000 ltac:(lia)))) as Hr.
  destruct (Z.eqb_spec (JsNumber.round (JsNumber.div (JsNumber.ofZ ms) (JsNumber.ofZ 1000))) 0);
    lia.
Qed.

(** The rounding of [retrySecs]: to the nearest second, and 1 for 0. *)
Example retrySecs_examples :
  retrySecs 60000 = 60 /\ retrySecs 1600 = 2 /\ retrySecs 1500 = 2
  /\ retrySecs 1499 = 1 /\ retrySecs 500 = 1 /\ retrySecs 499 = 1 /\ retrySecs 1 = 1.
Proof. repeat split; vm_compute; reflexivity. Qed.

Lemma consume_open lim now id b :
  buckets lim !! id = Some b -> now < windowEnd lim b -> consumed b < points lim ->
  consume lim now id
  = ({| points := points lim; duration := duration lim;
        buckets := <[id := {| windowStart := windowStart b; consumed := consumed b + 1 |}]>
                     (buckets lim) |},
     Fulfilled {| msBeforeNext := windowEnd lim b - now;
                  remainingPoints := points lim - (consumed b + 1) |}).
Proof.
  intros Hb Hopen Hleft. unfold consume, currentBucket. rewrite Hb.
  destruct (Z.ltb_spec now (windowEnd lim b)); [| lia].
  destruct (Z.ltb_spec (consumed b) (points lim)); [reflexivity | lia].
Qed.

Lemma consume_exhausted lim now id b :
  buckets lim !! id = Some b -> now < windowEnd lim b -> points lim <= consumed b ->
  consume lim now id
  = (lim, Rejected {| msBeforeNext := windowEnd lim b - now; remainingPoints := 0 |}).
Proof.
  intros Hb Hopen Hnone. unfold consume, currentBucket. rewrite Hb.
  destruct (Z.ltb_spec now (windowEnd lim b)); [| lia].
  destruct (Z.ltb_spec (consumed b) (points lim)); [lia | reflexivity].
Qed.

(** A call that finds no open window opens one at its own time. *)
Lemma consume_fresh lim now id :
  getRes lim now id = None -> 0 < points lim ->
  consume lim now id
  = ({| points := points lim; duration := duration lim;
        buckets := <[id := {| windowStart := now; consumed := 1 |}]> (buckets lim) |},
     Fulfilled {| msBeforeNext := duration lim * 1000;
                  remainingPoints := points lim - 1 |}).
Proof.
  intros Hclosed Hpoints. unfold consume.
  assert (currentBucket lim now id = freshBucket now) as ->.
  { unfold currentBucket. unfold getRes in Hclosed.
    destruct (buckets lim !! id) as [b|]; [| reflexivity].
    by destruct (now <? windowEnd lim b). }
  unfold windowEnd. simpl.
  destruct (Z.ltb_spec 0 (points lim)); [| lia].
  do 3 f_equal. lia.
Qed.

Lemma checkLimit_first svc now operation identifier lim :
  limiters svc !! operation = Some lim ->
  getRes lim now identifier = None -> 0 < points lim ->
  exists svc', checkLimit svc now operation identifier = (svc', Return tt)
               /\ bucketIs svc' operation identifier (points lim) (duration lim) now 1.
Proof.
  intros Hop Hclosed Hpoints. unfold checkLimit.
  rewrite Hop, (consume_fresh _ _ _ Hclosed Hpoints).
  eexists. split; [reflexivity |]. eexists. simpl. rewrite lookup_insert_eq.
  split; [reflexivity |]. simpl. by rewrite lookup_insert_eq.
Qed.

Lemma checkLimit_open svc now operation identifier P D t0 k :
  bucketIs svc operation identifier P D t0 k -> now < t0 + D * 1000 -> k < P ->
  exists svc', checkLimit svc now operation identifier = (svc', Return tt)
               /\ bucketIs svc' operation identifier P D t0 (k + 1).
Proof.
  intros (lim & Hop & HP & HD & Hb) Hopen Hleft. unfold checkLimit. rewrite Hop.
  rewrite (consume_open _ _ _ _ Hb); unfold windowEnd; simpl; [| lia ..].
  eexists. split; [reflexivity |]. eexists. simpl. rewrite lookup_insert_eq.
  split; [reflexivity |]. simpl. by rewrite lookup_insert_eq.
Qed.

Lemma checkLimit_exhausted svc now operation identifier P D t0 k :
  bucketIs svc operation identifier P D t0 k -> now < t0 + D * 1000 -> P <= k ->
  snd (checkLimit svc now operation identifier)
  = Throw (AppErr (RateLimitError (rateLimitMessage (retrySecs (t0 + D * 1000 - now))))).
Proof.
  intros (lim & Hop & HP & HD & Hb) Hopen Hnone. unfold checkLimit. rewrite Hop.
  rewrite (consume_exhausted _ _ _ _ Hb); unfold windowEnd; simpl; [| lia ..].
  by rewrite HD.
Qed.

Lemma checkLimits_open svc times operation identifier P D t0 k :
  bucketIs svc operation identifier P D t0 k ->
  Forall (fun now => now < t0 + D * 1000) times ->
  k + Z.of_nat (length times) <= P ->
  exists svc', checkLimits svc times operation identifier
               = (svc', replicate (length times) (Return tt))
               /\ bucketIs svc' operation identifier P D t0 (k + Z.of_nat (length times)).
Proof.
  revert svc k. induction times as [|now times IH]; intros svc k Hb Hopen Hroom.
  - exists svc. simpl. by rewrite Z.add_0_r.
  - apply Forall_cons in Hopen as [Hnow Hopen]. simpl length in *.
    destruct (checkLimit_open svc now operation identifier P D t0 k Hb Hnow)
      as (svc1 & Hcall & Hb1); [lia |].
    destruct (IH svc1 (k + 1) Hb1 Hopen) as (svc2 & Hcalls & Hb2); [lia |].
    exists svc2. simpl. rewrite Hcall, Hcalls. split; [reflexivity |].
    by replace (k + Z.of_nat (S (length times))) with (k + 1 + Z.of_nat (length times)) by lia.
Qed.

Lemma getRemainingPoints_bucketIs svc now operation identifier P D t0 k :
  bucketIs svc operation identifier P D t0 k -> now < t0 + D * 1000 ->
  getRemainingPoints svc now operation identifier = Z.max (P - k) 0.
Proof.
  intros (lim & Hop & HP & HD & Hb) Hopen. unfold getRemainingPoints, getRes.
  rewrite Hop, Hb. unfold windowEnd. simpl.
  destruct (Z.ltb_spec now (t0 + duration lim * 1000)); [by rewrite HP | lia].
Qed.

Lemma checkLimits_window svc operation identifier lim t0 times :
  limiters svc !! operation = Some lim ->
  getRes lim t0 identifier = None ->
  Z.of_nat (length (t0 :: times)) <= points lim ->
  Forall (fun now => t0 <= now < t0 + duration lim * 1000) times ->
  exists svc', checkLimits svc (t0 :: times) operation identifier
               = (svc', replicate (length (t0 :: times)) (Return tt))
               /\ bucketIs svc' operation identifier (points lim) (duration lim) t0
                    (Z.of_nat (length (t0 :: times))).
Proof.
  intros Hop Hclosed Hroom Hopen. simpl length in *.
  destruct (checkLimit_first svc t0 operation identifier lim Hop Hclosed)
    as (svc1 & Hcall & Hb1); [lia |].
  destruct (checkLimits_open svc1 times operation identifier
              (points lim) (duration lim) t0 1 Hb1) as (svc2 & Hcalls & Hb2).
  - eapply Forall_impl; [exact Hopen |]. simpl. lia.
  - lia.
  - exists svc2. simpl. rewrite Hcall, Hcalls. split; [reflexivity |].
    by replace (Z.of_nat (S (length times))) with (1 + Z.of_nat (length times)) by lia.
Qed.

(** C3 (amended): for a limiter of [points] per [duration] seconds and an
    identifier with no open window, the first [points] calls made within
    the window all succeed, each consuming one point (after [n] of them
    [points - n] remain), and the next call within the window throws a
    [RateLimitError] whose message carries a positive number of seconds:
    [Math.round] of the time left until the refill (window start plus
    duration minus now, in milliseconds) over 1000, with 1 in place of 0. *)
Theorem checkLimit_budget svc operation identifier lim t0 times now :
  limiters svc !! operation = Some lim ->
  getRes lim t0 identifier = None ->
  Z.of_nat (length (t0 :: times)) = points lim ->
  Forall (fun ti => t0 <= ti < t0 + duration lim * 1000) times ->
  t0 <= now < t0 + duration lim * 1000 ->
  exists svc',
    checkLimits svc (t0 :: times) operation identifier
      = (svc', replicate (length (t0 :: times)) (Return tt))
    /\ (forall n, (1 <= n <= length (t0 :: times))%nat ->
          getRemainingPoints
            (fst (checkLimits svc (take n (t0 :: times)) operation identifier))
            now operation identifier
          = points lim - Z.of_nat n)
    /\ let secs := retrySecs (t0 + duration lim * 1000 - now) in
       snd (checkLimit svc' now operation identifier)
         = Throw (AppErr (RateLimitError (rateLimitMessage secs)))
       /\ 0 < secs.
Proof.
  intros Hop Hclosed Hlen Hopen Hnow.
  destruct (checkLimits_window svc operation identifier lim t0 times Hop Hclosed)
    as (svc' & Hcalls & Hb); [lia | exact Hopen |].
  exists svc'. split; [exact Hcalls |]. split.
  - intros [|n] Hn; [lia |]. rewrite firstn_cons.
    assert (length (take n times) = n) as Htake.
    { rewrite length_take. simpl in Hn. lia. }
    destruct (checkLimits_window svc operation identifier lim t0 (take n times)
                Hop Hclosed) as (svcn & Hcallsn & Hbn).
    + simpl length in *. lia.
    + by apply Forall_take.
    + rewrite Hcallsn. simpl fst.
      rewrite (getRemainingPoints_bucketIs _ _ _ _ _ _ _ _ Hbn); [| lia].
      simpl length in *. lia.
  - cbv zeta. split.
    + apply (checkLimit_exhausted _ _ _ _ _ _ _ _ Hb); lia.
    + apply retrySecs_positive. lia.
Qed.

Lemma checkLimit_budget_witness :
  exists svc',
    checkLimits newRateLimiterService [0; 10; 20; 30; 40] "cvTailoring" defaultIdentifier
      = (svc', replicate 5 (Return tt))
    /\ snd (checkLimit svc' 58400 "cvTailoring" defaultIdentifier)
       = Throw (AppErr (RateLimitError "Rate limit exceeded. Try again in 2 seconds.")).
Proof.
  destruct (checkLimit_budget newRateLimiterService "cvTailoring" defaultIdentifier
              (newRateLimiterMemory {| config.points := 5; config.duration := 60 |})
              0 [10; 20; 30; 40] 58400) as (svc' & Hcalls & _ & Hnext & _).
  - reflexivity.
  - reflexivity.
  - reflexivity.
  - repeat constructor; simpl; lia.
  - simpl. lia.
  - exists svc'. split; [exact Hcalls | exact Hnext].
Defined.

(** C3 as stated fails: with 1600 ms of the window left, the message says
    2 seconds, where the floor of 1.6 is 1. *)
Lemma checkLimit_not_floored :
  let svc := fst (checkLimits newRateLimiterService (replicate 10 0)
                    "jobSearch" defaultIdentifier) in
  snd (checkLimit svc 58400 "jobSearch" defaultIdentifier)
    = Throw (AppErr (RateLimitError (rateLimitMessage 2)))
  /\ flooredSecs (0 + 60 * 1000 - 58400) = 1
  /\ snd (checkLimit svc 58400 "jobSearch" defaultIdentifier)
     <> Throw (AppErr (RateLimitError (rateLimitMessage (flooredSecs (0 + 60 * 1000 - 58400))))).
Proof.
  cbv zeta. split; [vm_compute; reflexivity |].
  split; [reflexivity |]. vm_compute. discriminate.
Qed.

End RateLimitFacts.

(** ** Cache *)

Module CacheFacts.
Section WithValues.
Context {T : Type}.
Implicit Types (c : BrowserCache T) (item : CacheItem T).

Lemma cleanup_lookup c now key item :
  cache (BrowserCache.cleanup c now) !! key = Some item -> cache c !! key = Some item.
Proof. simpl. intros Hkept. by apply map_lookup_filter_Some in Hkept as [? _]. Qed.

(** The sweep only removes: what is found after it was there before. *)
Lemma sweeps_lookup c times key item :
  cache (BrowserCache.sweeps c times) !! key = Some item -> cache c !! key = Some item.
Proof.
  unfold BrowserCache.sweeps. revert c.
  induction times as [|now times IH]; intros c; simpl; [done |].
  intros Hkept. by apply (cleanup_lookup c now), IH.
Qed.

Lemma set_lookup c now key v ttl :
  cache (fst (BrowserCache.set c now key v ttl)) !! key
  = Some {| value := v; expiry := now + BrowserCache.ttlMillis c ttl |}.
Proof. simpl. apply lookup_insert_eq. Qed.

Lemma get_live c now key item :
  cache c !! key = Some item -> now <= expiry item ->
  snd (BrowserCache.get c now key) = Some (value item).
Proof.
  intros Hk Hlive. unfold BrowserCache.get, BrowserCache.isExpired. rewrite Hk.
  by destruct (Z.ltb_spec (expiry item) now); [lia |].
Qed.

(** Whatever the sweeps did, an entry past its expiry is reported absent
    and is no longer stored afterwards. *)
Lemma get_expired c key item now :
  (forall item', cache c !! key = Some item' -> item' = item) ->
  expiry item < now ->
  snd (BrowserCache.get c now key) = None
  /\ cache (fst (BrowserCache.get c now key)) !! key = None.
Proof.
  intros Honly Hpast. unfold BrowserCache.get, BrowserCache.isExpired.
  destruct (cache c !! key) as [item'|] eqn:Hk; [| by rewrite <- Hk].
  rewrite (Honly item' eq_refl).
  destruct (Z.ltb_spec (expiry item) now); [| lia].
  simpl. by rewrite lookup_delete_eq.
Qed.

Lemma has_expired c key item now :
  (forall item', cache c !! key = Some item' -> item' = item) ->
  expiry item < now ->
  snd (BrowserCache.has c now key) = false
  /\ cache (fst (BrowserCache.has c now key)) !! key = None.
Proof.
  intros Honly Hpast. unfold BrowserCache.has, BrowserCache.isExpired.
  destruct (cache c !! key) as [item'|] eqn:Hk; [| by rewrite <- Hk].
  rewrite (Honly item' eq_refl).
  destruct (Z.ltb_spec (expiry item) now); [| lia].
  simpl. by rewrite lookup_delete_eq.
Qed.

(** C5 (amended): for every key, value and time to live, [set] stores the
    value with the expiry "now plus [ttlMillis]", where [ttlMillis] is
    [ttl * 1000] for a [ttl] other than 0 and the default when [ttl] is 0
    or omitted.  When [ttlMillis] is not negative, so for every positive
    [ttl], an immediate [get] returns the value, and once the clock
    exceeds the expiry, [get] and [has] report the key absent and
    evict it, whichever sweeps ran in between. *)
Theorem cache_roundtrip c t0 key v ttl :
  0 <= BrowserCache.ttlMillis c ttl ->
  let c1 := fst (BrowserCache.set c t0 key v ttl) in
  snd (BrowserCache.get c1 t0 key) = Some v
  /\ (forall sweepTimes now,
        t0 + BrowserCache.ttlMillis c ttl < now ->
        let c2 := BrowserCache.sweeps c1 sweepTimes in
        snd (BrowserCache.get c2 now key) = None
        /\ cache (fst (BrowserCache.get c2 now key)) !! key = None
        /\ snd (BrowserCache.has c2 now key) = false
        /\ cache (fst (BrowserCache.has c2 now key)) !! key = None)
  /\ (forall seconds, ttl = Some seconds -> seconds <> 0 ->
        BrowserCache.ttlMillis c ttl = seconds * 1000)
  /\ (ttl = None \/ ttl = Some 0 -> BrowserCache.ttlMillis c ttl = defaultTTL c).
Proof.
  intros Httl c1. split; [| split; [| split]].
  - apply (get_live c1 t0 key _ (set_lookup c t0 key v ttl)). simpl. lia.
  - intros sweepTimes now Hpast c2.
    assert (forall item', cache c2 !! key = Some item' ->
              item' = {| value := v; expiry := t0 + BrowserCache.ttlMillis c ttl |}) as Honly.
    { intros item' Hk. apply sweeps_lookup in Hk.
      unfold c1 in Hk. rewrite set_lookup in Hk. congruence. }
    destruct (get_expired c2 key _ now Honly Hpast) as [Hget Hgone].
    destruct (has_expired c2 key _ now Honly Hpast) as [Hhas Hgone'].
    done.
  - intros seconds -> Hnz. simpl. by destruct (Z.eqb_spec seconds 0).
  - by intros [-> | ->].
Qed.

End WithValues.

Lemma cache_roundtrip_witness :
  let c1 := fst (BrowserCache.set (CacheService.new (T := Z)) 0 "k" 7 (Some 300)) in
  snd (BrowserCache.get c1 0 "k") = Some 7
  /\ snd (BrowserCache.get (BrowserCache.sweeps c1 [120000; 240000]) 300001 "k") = None.
Proof.
  destruct (cache_roundtrip (CacheService.new (T := Z)) 0 "k" 7 (Some 300))
    as (Hget & Hexpired & _).
  - simpl. lia.
  - split; [exact Hget |].
    apply (Hexpired [120000; 240000] 300001). simpl. lia.
Defined.

(** C5 as stated fails for a time to live of 0: the entry is kept for the
    default time, and is still returned once the clock has passed
    0 seconds after [set]. *)
Lemma cache_ttl_zero_kept :
  let c1 := fst (BrowserCache.set (CacheService.new (T := Z)) 0 "k" 7 (Some 0)) in
  0 + 0 * 1000 < 1000
  /\ snd (BrowserCache.get c1 1000 "k") = Some 7
  /\ snd (BrowserCache.has c1 1000 "k") = true.
Proof. cbv zeta. split; [lia |]. split; vm_compute; reflexivity. Qed.

End CacheFacts.

(** ** Strings under concatenation *)

Module JsStringFacts.
Import JsString.

#[local] Existing Instance JsString.asciiHost.















End JsStringFacts.

(** ** Match score *)

Module MatchFacts.
Import ATSOptimizerService Scoring.

Section WithHost.
Context {host : JsString.Host}.

Lemma scoreKeywords_points cvKeywords jobKeywords matchScore totalPossibleScore :
  scoreKeywords cvKeywords jobKeywords (matchScore, totalPossibleScore)
  = (matchScore + 3 * Z.of_nat (length (List.filter (keywordMatches cvKeywords) jobKeywords)),
     totalPossibleScore + 3 * Z.of_nat (length jobKeywords)).
Proof.
  unfold scoreKeywords. revert matchScore totalPossibleScore.
  induction jobKeywords as [|keyword rest IH]; intros m t; simpl.
  - f_equal; lia.
  - destruct (keywordMatches cvKeywords keyword); rewrite IH; simpl length; f_equal; lia.
Qed.

Lemma scoreRequirements_points lowerCvContent jobRequirements matchScore totalPossibleScore :
  scoreRequirements lowerCvContent jobRequirements (matchScore, totalPossibleScore)
  = (matchScore
     + 2 * Z.of_nat (length (List.filter (requirementMatches lowerCvContent) jobRequirements)),
     totalPossibleScore + 2 * Z.of_nat (length jobRequirements)).
Proof.
  unfold scoreRequirements. revert matchScore totalPossibleScore.
  induction jobRequirements as [|requirement rest IH]; intros m t; simpl.
  - f_equal; lia.
  - destruct (requirementMatches lowerCvContent requirement);
      rewrite IH; simpl length; f_equal; lia.
Qed.

(** Three points for each matching job keyword and two for each matching
    requirement, out of three for each job keyword and two for each
    requirement; the score is [percentage] of the two sums, and 0 when
    nothing is possible. *)
Lemma calculateMatchScore_points cvContent jobKeywords jobRequirements :
  calculateMatchScore cvContent jobKeywords jobRequirements
  = if 0 <? possiblePoints jobKeywords jobRequirements
    then percentage (matchedPoints cvContent jobKeywords jobRequirements)
                    (possiblePoints jobKeywords jobRequirements)
    else 0.
Proof.
  unfold calculateMatchScore. rewrite scoreKeywords_points, scoreRequirements_points.
  reflexivity.
Qed.

Lemma calculateMatchScore_empty cvContent : calculateMatchScore cvContent [] [] = 0.
Proof. reflexivity. Qed.

Lemma matchedPoints_le_possible cvContent jobKeywords jobRequirements :
  0 <= matchedPoints cvContent jobKeywords jobRequirements
    <= possiblePoints jobKeywords jobRequirements.
Proof.
  unfold matchedPoints, possiblePoints, matchedKeywords, matchedRequirements.
  pose proof (List.filter_length_le (keywordMatches (extractKeywords cvContent)) jobKeywords).
  pose proof (List.filter_length_le
                (requirementMatches (JsString.toLowerCase cvContent)) jobRequirements).
  lia.
Qed.

Lemma calculateMatchScore_nonnegative cvContent jobKeywords jobRequirements :
  0 <= calculateMatchScore cvContent jobKeywords jobRequirements.
Proof.
  rewrite calculateMatchScore_points.
  destruct (0 <? possiblePoints jobKeywords jobRequirements) eqn:Hpossible; [| done].
  pose proof (matchedPoints_le_possible cvContent jobKeywords jobRequirements) as [Hm _].
  apply Z.ltb_lt in Hpossible.
  unfold percentage.
  apply JsNumberFacts.round_nonNegative, JsNumberFacts.mul_nonNegative;
    [apply JsNumberFacts.div_nonNegative |]; apply JsNumberFacts.ofZ_nonNegative; lia.
Qed.

End WithHost.

Lemma percentageExactUpTo_spec n m p :
  percentageExactUpTo n = true ->
  0 <= m <= p -> 0 < p <= n -> percentage m p = roundHalfUp (100 * m) p.
Proof.
  unfold percentageExactUpTo. rewrite forallb_forall. intros Hall Hm Hp.
  specialize (Hall p). rewrite forallb_forall in Hall.
  apply Z.eqb_eq, Hall; apply list_elem_of_In, elem_of_seqZ; lia.
Qed.

Lemma percentageExactUpTo_39 : percentageExactUpTo 39 = true.
Proof. vm_compute. reflexivity. Qed.

(** Up to 39 possible points the double-precision percentage is the exact
    rounding; 23 of 40 is the first pair on which they differ. *)
Lemma percentage_exact_below_40 m p :
  0 <= m <= p -> 0 < p <= 39 -> percentage m p = roundHalfUp (100 * m) p.
Proof. apply percentageExactUpTo_spec, percentageExactUpTo_39. Qed.

Section WithHost.
Context {host : JsString.Host}.

(** A CV, keywords and requirements of ASCII characters get the same
    score on every host. *)
Lemma calculateMatchScore_ascii cvContent jobKeywords jobRequirements :
  JsString.isAscii cvContent = true ->
  forallb JsString.isAscii jobKeywords = true ->
  forallb JsString.isAscii jobRequirements = true ->
  calculateMatchScore cvContent jobKeywords jobRequirements
  = @calculateMatchScore JsString.asciiHost cvContent jobKeywords jobRequirements.
Proof.
  intros Hcontent Hkeywords Hrequirements.
  rewrite !calculateMatchScore_points.
  by rewrite (HostFacts.matchedPoints_ascii _ _ _ Hcontent Hkeywords Hrequirements).
Qed.

(** C2 (what the code does): on every host, for the CV [shortCV] and a
    posting with the twelve keywords and two requirements above, 23 points
    of 40 are matched, that is 57.5 percent, which rounds to 58; the
    double-precision product (23 / 40) * 100 lies below 57.5 and
    [calculateMatchScore] returns 57. *)
Theorem calculateMatchScore_rounds_down :
  matchedPoints shortCV postingKeywords postingRequirements = 23
  /\ possiblePoints postingKeywords postingRequirements = 40
  /\ roundHalfUp (100 * 23) 40 = 58
  /\ calculateMatchScore shortCV postingKeywords postingRequirements = 57.
Proof.
  rewrite HostFacts.matchedPoints_ascii, calculateMatchScore_ascii by reflexivity.
  repeat split; vm_compute; reflexivity.
Qed.

End WithHost.

End MatchFacts.

(** ** ATS score *)

Module ATSFacts.
Import JsString ATSOptimizerService Scoring.

Section WithHost.
Context {host : Host}.

(** C7: on every host, a document of 500 words that contains the
    section words "experience", "skills" and "education" but neither
    "summary" nor "profile", neither "achievements" nor
    "accomplishments", that has a bullet marker, a date of the form
    "Month YYYY" and more than 5 numbers, scored with 4 keywords, gets
    15 + 10 + 10 + 0 + 6 + 15 + 8 + 0 + 4 + 3 = 71. *)
Theorem calculateATSScore_scenario content keywords :
  wordCount content = 500%nat ->
  includes "experience" (toLowerCase content) = true ->
  includes "skills" (toLowerCase content) = true ->
  includes "education" (toLowerCase content) = true ->
  includes "summary" (toLowerCase content) = false ->
  includes "profile" (toLowerCase content) = false ->
  includes "achievements" (toLowerCase content) = false ->
  includes "accomplishments" (toLowerCase content) = false ->
  hasBullets content = true ->
  matchesDate content = true ->
  (5 < countNumbers content)%nat ->
  length keywords = 4%nat ->
  (calculateATSScore content keywords == 71)%Q.
Proof.
  intros Hwords Hexp Hskills Hedu Hsum Hprof Hach Hacc Hbullets Hdate Hnumbers Hkeywords.
  apply Nat.ltb_lt in Hnumbers.
  unfold calculateATSScore, sectionScore, keywordScore, lengthScore, formatScore.
  rewrite Hwords, Hexp, Hskills, Hedu, Hsum, Hprof, Hach, Hacc, Hbullets, Hdate,
    Hnumbers, Hkeywords.
  simpl orb. cbv iota.
  vm_compute. reflexivity.
Qed.

End WithHost.

(** The results on appended text are for the host that lowers the
    letters A to Z: what [toLowerCase] makes of a concatenation is not
    fixed by what it makes of the two parts. *)
#[local] Existing Instance JsString.asciiHost.

Lemma calculateATSScore_scenario_witness :
  (calculateATSScore sampleCV (extractKeywords sampleCV) == 71)%Q.
Proof.
  apply calculateATSScore_scenario; vm_compute; reflexivity.
Defined.

Lemma uniqueFrom_spec seen xs :
  NoDup (uniqueFrom seen xs)
  /\ (forall x, x ∈ uniqueFrom seen xs <-> x ∈ xs /\ x ∉ seen).
Proof.
  revert seen. induction xs as [|y rest IH]; intros seen; simpl.
  - split; [constructor |]. intros x. split; [intros Hx; inversion Hx |].
    intros [Hx _]. inversion Hx.
  - case_bool_decide as Hseen.
    + destruct (IH seen) as [Hnd Hin]. split; [exact Hnd |].
      intros x. rewrite Hin, elem_of_cons. split; [tauto |].
      intros [[-> | Hx] Hnot]; [done | tauto].
    + destruct (IH ({[y]} ∪ seen)) as [Hnd Hin]. split.
      * constructor; [| exact Hnd]. rewrite Hin, elem_of_union, elem_of_singleton. tauto.
      * intros x. rewrite !elem_of_cons, Hin, elem_of_union, elem_of_singleton.
        destruct (decide (x = y)) as [-> | Hne]; tauto.
Qed.


Lemma sectionScore_bonus lowerContent :
  (sectionScore lowerContent
   == bonus (includes "experience" lowerContent || includes "employment" lowerContent) 15
      + bonus (includes "education" lowerContent || includes "qualification" lowerContent) 10
      + bonus (includes "skills" lowerContent || includes "competencies" lowerContent) 10
      + bonus (includes "summary" lowerContent || includes "profile" lowerContent) 5)%Q.
Proof.
  unfold sectionScore.
  destruct (includes "experience" lowerContent || includes "employment" lowerContent),
    (includes "education" lowerContent || includes "qualification" lowerContent),
    (includes "skills" lowerContent || includes "competencies" lowerContent),
    (includes "summary" lowerContent || includes "profile" lowerContent);
    vm_compute; reflexivity.
Qed.

Lemma formatScore_bonus content lowerContent :
  (formatScore content lowerContent
   == bonus (hasBullets content) 8
      + bonus (includes "achievements" lowerContent
               || includes "accomplishments" lowerContent) 5
      + bonus (5 <? countNumbers content)%nat 4
      + bonus (matchesDate content) 3)%Q.
Proof.
  unfold formatScore.
  destruct (hasBullets content),
    (includes "achievements" lowerContent || includes "accomplishments" lowerContent),
    (5 <? countNumbers content)%nat, (matchesDate content);
    vm_compute; reflexivity.
Qed.







(** Appended as a word of its own, after a space, a keyword adds a word,
    which can move the document to a lower length band. *)
Remark basicATSScore_new_word_may_lower :
  (basicATSScore (longCV ++ " summary") < basicATSScore longCV)%Q.
Proof. vm_compute. reflexivity. Qed.

End ATSFacts.

(** ** More on the cache *)

Module CacheLaws.
Import CacheRun.
Section WithValues.
Context {T : Type}.
Implicit Types (c : BrowserCache T) (item : CacheItem T) (call : CacheCall T).

Lemma new_keysCounted stdTTL : keysCounted (BrowserCache.new (T := T) stdTTL).
Proof. unfold keysCounted. simpl. by rewrite map_size_empty. Qed.

Lemma size_delete_present (m : gmap string (CacheItem T)) key item :
  m !! key = Some item -> Z.of_nat (size (delete key m)) = Z.of_nat (size m) - 1.
Proof.
  intros Hk. rewrite <- (insert_delete_id m key item Hk) at 2.
  rewrite map_size_insert_None by apply lookup_delete_eq. lia.
Qed.

Lemma after_keysCounted c call : keysCounted c -> keysCounted (after c call).
Proof.
  unfold keysCounted. intros Hc.
  destruct call as [now key v ttl | now key | key | now key | now | | ]; simpl.
  - case_bool_decide as Hpresent.
    + by rewrite map_size_insert_Some.
    + simpl. rewrite map_size_insert_None; [lia |].
      by apply eq_None_not_Some.
  - unfold BrowserCache.get. destruct (cache c !! key) as [item|] eqn:Hk; simpl; [| done].
    destruct (BrowserCache.isExpired now item); simpl; [| done].
    rewrite (size_delete_present _ _ _ Hk). lia.
  - unfold BrowserCache.del. destruct (cache c !! key) as [item|] eqn:Hk; simpl; [| done].
    rewrite (size_delete_present _ _ _ Hk). lia.
  - unfold BrowserCache.has. destruct (cache c !! key) as [item|] eqn:Hk; simpl; [| done].
    destruct (BrowserCache.isExpired now item); simpl; [| done].
    rewrite (size_delete_present _ _ _ Hk). lia.
  - lia.
  - by rewrite map_size_empty.
  - reflexivity.
Qed.

Lemma afterAll_keysCounted c calls : keysCounted c -> keysCounted (afterAll c calls).
Proof.
  unfold afterAll. revert c. induction calls as [|call calls IH]; intros c Hc; simpl; [done |].
  by apply IH, after_keysCounted.
Qed.

(** X1: from the constructor on, whatever methods are called and whenever,
    the [keys] counter of the statistics is the number of entries the
    cache stores. *)
Theorem keys_counter_exact stdTTL calls :
  keys (stats (afterAll (BrowserCache.new (T := T) stdTTL) calls))
  = Z.of_nat (size (cache (afterAll (BrowserCache.new (T := T) stdTTL) calls))).
Proof. apply afterAll_keysCounted, new_keysCounted. Qed.

Lemma after_counters c call :
  hits (stats c) <= hits (stats (after c call))
  /\ misses (stats c) <= misses (stats (after c call))
  /\ hits (stats (after c call)) + misses (stats (after c call))
     = hits (stats c) + misses (stats c) + (if isGet call then 1 else 0).
Proof.
  destruct call as [now key v ttl | now key | key | now key | now | | ]; simpl.
  - destruct (bool_decide _); simpl; lia.
  - unfold BrowserCache.get. destruct (cache c !! key) as [item|]; simpl; [| lia].
    destruct (BrowserCache.isExpired now item); simpl; lia.
  - unfold BrowserCache.del. destruct (cache c !! key); simpl; lia.
  - unfold BrowserCache.has. destruct (cache c !! key) as [item|]; simpl; [| lia].
    destruct (BrowserCache.isExpired now item); simpl; lia.
  - lia.
  - lia.
  - lia.
Qed.

Lemma afterAll_counters c calls :
  hits (stats c) <= hits (stats (afterAll c calls))
  /\ misses (stats c) <= misses (stats (afterAll c calls))
  /\ hits (stats (afterAll c calls)) + misses (stats (afterAll c calls))
     = hits (stats c) + misses (stats c) + Z.of_nat (length (List.filter isGet calls)).
Proof.
  unfold afterAll. revert c. induction calls as [|call calls IH]; intros c; simpl; [lia |].
  destruct (IH (after c call)) as (Hh & Hm & Hsum).
  destruct (after_counters c call) as (Hh1 & Hm1 & Hsum1).
  destruct (isGet call); simpl length; lia.
Qed.

(** X2: the hit and miss counters never go down, whatever is called
    ([flushAll] and [del] included), and from the constructor on their
    sum is the number of [get] calls made; [has] is not counted. *)
Theorem hits_and_misses_count_gets stdTTL c calls :
  hits (stats c) <= hits (stats (afterAll c calls))
  /\ misses (stats c) <= misses (stats (afterAll c calls))
  /\ hits (stats (afterAll (BrowserCache.new (T := T) stdTTL) calls))
     + misses (stats (afterAll (BrowserCache.new (T := T) stdTTL) calls))
     = Z.of_nat (length (List.filter isGet calls)).
Proof.
  destruct (afterAll_counters c calls) as (Hh & Hm & _).
  destruct (afterAll_counters (BrowserCache.new (T := T) stdTTL) calls) as (_ & _ & Hsum).
  simpl in Hsum. lia.
Qed.

Lemma cleanup_lookup_live c now key item :
  cache c !! key = Some item -> now <= expiry item ->
  cache (BrowserCache.cleanup c now) !! key = Some item.
Proof.
  intros Hk Hlive. simpl. apply map_lookup_filter_Some. split; [exact Hk |].
  simpl. unfold BrowserCache.isExpired. by destruct (Z.ltb_spec (expiry item) now); [lia |].
Qed.

Lemma cleanup_lookup_expired c now key item :
  cache c !! key = Some item -> expiry item < now ->
  cache (BrowserCache.cleanup c now) !! key = None.
Proof.
  intros Hk Hpast. simpl. apply map_lookup_filter_None. right.
  intros item' Hk'. simpl. rewrite Hk in Hk'. injection Hk' as <-.
  unfold BrowserCache.isExpired. by destruct (Z.ltb_spec (expiry item) now); [| lia].
Qed.

Lemma cleanup_lookup_absent c now key :
  cache c !! key = None -> cache (BrowserCache.cleanup c now) !! key = None.
Proof. intros Hk. simpl. apply map_lookup_filter_None. by left. Qed.

(** What [get] and [has] answer depends on the stored entry only. *)
Lemma get_answer c now key :
  snd (BrowserCache.get c now key)
  = match cache c !! key with
    | Some item => if BrowserCache.isExpired now item then None else Some (value item)
    | None => None
    end.
Proof.
  unfold BrowserCache.get. destruct (cache c !! key) as [item|]; [| done].
  by destruct (BrowserCache.isExpired now item).
Qed.

Lemma has_answer c now key :
  snd (BrowserCache.has c now key)
  = match cache c !! key with
    | Some item => negb (BrowserCache.isExpired now item)
    | None => false
    end.
Proof.
  unfold BrowserCache.has. destruct (cache c !! key) as [item|]; [| done].
  by destruct (BrowserCache.isExpired now item).
Qed.

(** X3: the background sweep is invisible to readers: at any time not
    before the sweep, [get] and [has] answer the same whether or not the
    sweep has run. *)
Theorem cleanup_transparent c sweepTime now key :
  sweepTime <= now ->
  snd (BrowserCache.get (BrowserCache.cleanup c sweepTime) now key)
  = snd (BrowserCache.get c now key)
  /\ snd (BrowserCache.has (BrowserCache.cleanup c sweepTime) now key)
     = snd (BrowserCache.has c now key).
Proof.
  intros Horder. rewrite !get_answer, !has_answer.
  destruct (cache c !! key) as [item|] eqn:Hk.
  - destruct (Z.lt_ge_cases (expiry item) sweepTime) as [Hpast | Hlive].
    + rewrite (cleanup_lookup_expired c sweepTime key item Hk Hpast).
      unfold BrowserCache.isExpired. by destruct (Z.ltb_spec (expiry item) now); [| lia].
    + by rewrite (cleanup_lookup_live c sweepTime key item Hk Hlive).
  - by rewrite (cleanup_lookup_absent c sweepTime key Hk).
Qed.

(** X4: [del] returns 1 exactly when the key is stored, expired or not, and
    0 otherwise; afterwards [get] and [has] report the key absent at any
    time, and every other key is answered as before. *)
Theorem del_removes_only_its_key c key :
  snd (BrowserCache.del c key) = (if bool_decide (is_Some (cache c !! key)) then 1 else 0)
  /\ (forall now, snd (BrowserCache.get (fst (BrowserCache.del c key)) now key) = None
                  /\ snd (BrowserCache.has (fst (BrowserCache.del c key)) now key) = false)
  /\ (forall now other, other <> key ->
        snd (BrowserCache.get (fst (BrowserCache.del c key)) now other)
        = snd (BrowserCache.get c now other)).
Proof.
  assert (cache (fst (BrowserCache.del c key)) = delete key (cache c)) as Hdel.
  { unfold BrowserCache.del. destruct (cache c !! key) eqn:Hk; simpl; [done |].
    by rewrite delete_id. }
  split; [| split].
  - unfold BrowserCache.del. by destruct (cache c !! key).
  - intros now. by rewrite get_answer, has_answer, Hdel, lookup_delete_eq.
  - intros now other Hother. by rewrite !get_answer, Hdel, lookup_delete_ne.
Qed.

(** X5: [set] always reports success; the last value written under a key
    is the one read back (the earlier one and its expiry are replaced);
    and writing a key does not change what is read under any other key. *)
Theorem set_last_write_wins c t1 t2 key v1 v2 ttl1 ttl2 :
  0 <= BrowserCache.ttlMillis c ttl2 ->
  let c2 := fst (BrowserCache.set (fst (BrowserCache.set c t1 key v1 ttl1)) t2 key v2 ttl2) in
  snd (BrowserCache.set c t1 key v1 ttl1) = true
  /\ snd (BrowserCache.get c2 t2 key) = Some v2
  /\ (forall now, t2 + BrowserCache.ttlMillis c ttl2 < now ->
        snd (BrowserCache.get c2 now key) = None)
  /\ (forall now other, other <> key ->
        snd (BrowserCache.get c2 now other) = snd (BrowserCache.get c now other)).
Proof.
  intros Httl c2. split; [reflexivity |].
  assert (cache c2 !! key
          = Some {| value := v2; expiry := t2 + BrowserCache.ttlMillis c ttl2 |}) as Hk.
  { unfold c2. simpl. by rewrite lookup_insert_eq. }
  split; [| split].
  - rewrite get_answer, Hk. unfold BrowserCache.isExpired. simpl.
    by destruct (Z.ltb_spec (t2 + BrowserCache.ttlMillis c ttl2) t2); [lia |].
  - intros now Hpast. rewrite get_answer, Hk. unfold BrowserCache.isExpired. simpl.
    by destruct (Z.ltb_spec (t2 + BrowserCache.ttlMillis c ttl2) now); [| lia].
  - intros now other Hother. rewrite !get_answer. unfold c2. simpl.
    by rewrite !lookup_insert_ne.
Qed.

(** X6: [flushAll] removes every entry, so every key is absent afterwards,
    and sets the [keys] counter to 0, but keeps the hit and miss
    counters. *)
Theorem flushAll_keeps_counters c :
  (forall now key, snd (BrowserCache.get (BrowserCache.flushAll c) now key) = None
                   /\ snd (BrowserCache.has (BrowserCache.flushAll c) now key) = false)
  /\ keys (stats (BrowserCache.flushAll c)) = 0
  /\ hits (stats (BrowserCache.flushAll c)) = hits (stats c)
  /\ misses (stats (BrowserCache.flushAll c)) = misses (stats c).
Proof.
  split; [| done]. intros now key.
  by rewrite get_answer, has_answer; simpl; rewrite lookup_empty.
Qed.

Lemma set_other c now key v ttl now' other :
  other <> key ->
  snd (BrowserCache.get (fst (BrowserCache.set c now key v ttl)) now' other)
  = snd (BrowserCache.get c now' other).
Proof. intros Hother. rewrite !get_answer. simpl. by rewrite lookup_insert_ne. Qed.

(** X7: the three kinds of cached data live under keys of different
    prefixes, so caching a CV analysis or a user profile never changes
    what a job search finds in the cache, and caching a job search never
    changes what is found for a CV analysis or a user profile. *)
Theorem cache_namespaces_separate c now now' query location cvHash userId v :
  snd (CacheService.getCachedJobSearch
         (CacheService.cacheCVAnalysis c now cvHash v) now' query location)
  = snd (CacheService.getCachedJobSearch c now' query location)
  /\ snd (CacheService.getCachedJobSearch
            (CacheService.cacheUserProfile c now userId v) now' query location)
     = snd (CacheService.getCachedJobSearch c now' query location)
  /\ snd (CacheService.getCachedCVAnalysis
            (CacheService.cacheJobSearch c now query location v) now' cvHash)
     = snd (CacheService.getCachedCVAnalysis c now' cvHash)
  /\ snd (CacheService.getCachedUserProfile
            (CacheService.cacheJobSearch c now query location v) now' userId)
     = snd (CacheService.getCachedUserProfile c now' userId).
Proof.
  unfold CacheService.getCachedJobSearch, CacheService.getCachedCVAnalysis,
    CacheService.getCachedUserProfile, CacheService.cacheCVAnalysis,
    CacheService.cacheUserProfile, CacheService.cacheJobSearch.
  repeat split; apply set_other; discriminate.
Qed.

End WithValues.

Lemma cleanup_transparent_witness :
  let c := fst (BrowserCache.set (CacheService.new (T := Z)) 0 "k" 7 (Some 300)) in
  snd (BrowserCache.get (BrowserCache.cleanup c 120000) 200000 "k")
  = snd (BrowserCache.get c 200000 "k").
Proof.
  refine (proj1 (cleanup_transparent
                   (fst (BrowserCache.set (CacheService.new (T := Z)) 0 "k" 7 (Some 300)))
                   120000 200000 "k" _)).
  lia.
Defined.

Lemma del_removes_only_its_key_witness :
  let c := fst (BrowserCache.set
                  (fst (BrowserCache.set (CacheService.new (T := Z)) 0 "a" 1 None))
                  0 "b" 2 None) in
  snd (BrowserCache.get (fst (BrowserCache.del c "a")) 10 "b") = snd (BrowserCache.get c 10 "b").
Proof.
  refine (proj2 (proj2 (del_removes_only_its_key
                          (fst (BrowserCache.set
                                  (fst (BrowserCache.set (CacheService.new (T := Z)) 0 "a" 1 None))
                                  0 "b" 2 None)) "a")) 10 "b" _).
  discriminate.
Defined.

Lemma set_last_write_wins_witness :
  let c2 := fst (BrowserCache.set
                   (fst (BrowserCache.set (CacheService.new (T := Z)) 0 "k" 1 (Some 60)))
                   5000 "k" 2 (Some 10)) in
  snd (BrowserCache.get c2 5000 "k") = Some 2.
Proof.
  refine (proj1 (proj2 (set_last_write_wins (CacheService.new (T := Z)) 0 5000 "k" 1 2
                          (Some 60) (Some 10) _))).
  simpl. lia.
Defined.

End CacheLaws.

(** ** More on the rate limiter and the search *)

Module SearchLaws.
Import JobScraperService Dedup Search Listing.

(** X8: a call of [checkLimit] for one operation leaves the limiter of
    every other operation, and thus the points that remain for it under
    any identifier, as they were. *)
Theorem checkLimit_other_operations svc now operation identifier other :
  other <> operation ->
  limiters (fst (checkLimit svc now operation identifier)) !! other = limiters svc !! other
  /\ (forall now' identifier',
        getRemainingPoints (fst (checkLimit svc now operation identifier))
          now' other identifier'
        = getRemainingPoints svc now' other identifier').
Proof.
  intros Hother.
  assert (limiters (fst (checkLimit svc now operation identifier)) !! other
          = limiters svc !! other) as Hsame.
  { unfold checkLimit. destruct (limiters svc !! operation) as [lim|]; [| done].
    destruct (consume lim now identifier) as [lim' [res|res]]; simpl;
      by rewrite lookup_insert_ne. }
  split; [exact Hsame |]. intros now' identifier'.
  unfold getRemainingPoints. by rewrite Hsame.
Qed.

Lemma checkLimit_other_operations_witness :
  getRemainingPoints (fst (checkLimit newRateLimiterService 0 "jobSearch" defaultIdentifier))
    0 "cvTailoring" defaultIdentifier
  = getRemainingPoints newRateLimiterService 0 "cvTailoring" defaultIdentifier.
Proof.
  refine (proj2 (checkLimit_other_operations newRateLimiterService 0 "jobSearch"
                   defaultIdentifier "cvTailoring" _) 0 defaultIdentifier).
  discriminate.
Defined.

Section WithHost.
Context {host : JsString.Host}.

(** X9: the rate limiter is asked before the cache is read: when
    [checkLimit] throws, [scrapeJobs] throws the same error whatever the
    cache holds, consults no source and leaves the cache as it was, its
    counters included. *)
Theorem scrapeJobs_rate_limited env sh keywords location rl e :
  checkLimit (rateLimiter sh) (timeOfLimitCheck env) "jobSearch" defaultIdentifier
    = (rl, Throw e) ->
  snd (scrapeJobs env sh keywords location) = Throw e
  /\ cacheService (fst (scrapeJobs env sh keywords location)) = cacheService sh
  /\ (forall env', timeOfLimitCheck env' = timeOfLimitCheck env ->
        scrapeJobs env' sh keywords location = scrapeJobs env sh keywords location).
Proof.
  intros Hlimit. rewrite ScraperFacts.scrapeJobs_unfold, Hlimit.
  split; [done |]. split; [done |].
  intros env' Htime. by rewrite ScraperFacts.scrapeJobs_unfold, Htime, Hlimit.
Qed.

(** X10: read-through caching: when a search that was let through by the
    limiter and missed the cache has returned, which it does only if the
    page of Seek could not be loaded, the same search made again, let
    through by the rate limiter and not later than 300 seconds after the
    result was cached, returns the very same list, whatever the sites,
    the text-generation service and the random draws would now give. *)
Theorem scrapeJobs_repeated_search env env' sh keywords location rl c rl' jobs :
  checkLimit (rateLimiter sh) (timeOfLimitCheck env) "jobSearch" defaultIdentifier
    = (rl, Return tt) ->
  CacheService.getCachedJobSearch (cacheService sh) (timeOfCacheRead env)
    (JsString.join "," keywords ++ ":" ++ location) location = (c, None) ->
  snd (scrapeJobs env sh keywords location) = Return jobs ->
  checkLimit rl (timeOfLimitCheck env') "jobSearch" defaultIdentifier = (rl', Return tt) ->
  timeOfCacheRead env' <= timeOfCacheWrite env + 300 * 1000 ->
  seekPage env (buildSeekUrl keywords location) = None
  /\ snd (scrapeJobs env' (fst (scrapeJobs env sh keywords location)) keywords location)
     = Return jobs.
Proof.
  intros Hlimit Hmiss Hreturned Hlimit' Hfresh.
  pose proof (ScraperFacts.scrapeJobs_fetch env sh keywords location rl c Hlimit Hmiss)
    as Hfirst.
  destruct (seekPage env _) as [[page nested]|]; [by rewrite Hfirst in Hreturned |].
  split; [reflexivity |]. cbv zeta in Hfirst. rewrite Hfirst in Hreturned |- *.
  simpl in Hreturned. injection Hreturned as Hjobs. rewrite Hjobs. simpl fst.
  rewrite ScraperFacts.scrapeJobs_unfold. simpl rateLimiter. rewrite Hlimit'.
  cbv zeta. simpl cacheService.
  unfold CacheService.getCachedJobSearch.
  pose proof (CacheLaws.get_answer
                (CacheService.cacheJobSearch c (timeOfCacheWrite env)
                   (JsString.join "," keywords ++ ":" ++ location) location jobs)
                (timeOfCacheRead env')
                (CacheService.jobSearchKey
                   (JsString.join "," keywords ++ ":" ++ location) location)) as Hanswer.
  unfold CacheService.cacheJobSearch in Hanswer at 2. simpl cache in Hanswer.
  rewrite lookup_insert_eq in Hanswer. unfold BrowserCache.isExpired in Hanswer.
  simpl in Hanswer.
  change config.jobSearchTTL with 300 in Hanswer.
  destruct (Z.ltb_spec (timeOfCacheWrite env + 300 * 1000) (timeOfCacheRead env')); [lia |].
  destruct (BrowserCache.get _ _ _) as [c'' answer]. simpl in Hanswer. by subst answer.
Qed.

End WithHost.

#[local] Existing Instance JsString.asciiHost.

Lemma scrapeJobs_rate_limited_witness :
  snd (CacheService.getCachedJobSearch (cacheService busyShared) 0 "dev:Australia" "Australia")
  = Some [listed 0 "Dev" "Acme"; listed 2 "Ops" "Acme"]
  /\ snd (scrapeJobs sampleEnv busyShared ["dev"] "Australia")
     = Throw (AppErr (RateLimitError "Rate limit exceeded. Try again in 60 seconds.")).
Proof.
  split; [vm_compute; reflexivity |].
  refine (proj1 (scrapeJobs_rate_limited sampleEnv busyShared ["dev"] "Australia"
                   (fst (checkLimit (rateLimiter busyShared) 0 "jobSearch" defaultIdentifier))
                   _ _)).
  vm_compute. reflexivity.
Defined.

Lemma scrapeJobs_repeated_search_witness :
  snd (scrapeJobs seekLoadedEnv (fst (scrapeJobs sampleEnv initial ["dev"] "Australia"))
         ["dev"] "Australia")
  = Return [listed 0 "Dev" "Acme"; listed 2 "Ops" "Acme"].
Proof.
  eapply (scrapeJobs_repeated_search sampleEnv seekLoadedEnv initial ["dev"] "Australia").
  - vm_compute. reflexivity.
  - vm_compute. reflexivity.
  - vm_compute. reflexivity.
  - vm_compute. reflexivity.
  - simpl. lia.
Defined.





End SearchLaws.

(** ** Source fetchers *)

Module FetcherFacts.
Import JobScraperService Fetchers FetcherSpec.

Lemma requirements_from web description patterns acc r :
  r ∈ fold_left (fun requirements pattern =>
                   match matchPattern web pattern description with
                   | Some matches => (requirements ++ map JsString.trim matches)%list
                   | None => requirements
                   end) patterns acc ->
  r ∈ acc
  \/ exists pattern matches m,
       pattern ∈ patterns /\ matchPattern web pattern description = Some matches
       /\ m ∈ matches /\ r = JsString.trim m.
Proof.
  revert acc. induction patterns as [|pattern patterns IH]; intros acc; simpl; [by left |].
  intros Hr. apply IH in Hr as [Hr | (p & ms & m & Hp & Hms & Hm & ->)].
  - destruct (matchPattern web pattern description) as [matches|] eqn:Hmatch; [| by left].
    apply elem_of_app in Hr as [Hr | Hr]; [by left |]. right.
    apply list_elem_of_In, in_map_iff in Hr as (m & <- & Hm).
    exists pattern, matches, m. repeat split; [by left | done | by apply list_elem_of_In].
  - right. exists p, ms, m. repeat split; [by right | done | done].
Qed.

Lemma extractRequirements_NoDup web description :
  NoDup (extractRequirements web description).
Proof.
  unfold extractRequirements.
  eapply sublist_NoDup; [apply ATSFacts.uniqueFrom_spec | apply sublist_take].
Qed.

Lemma extractRequirements_length web description :
  (length (extractRequirements web description) <= 10)%nat.
Proof. unfold extractRequirements. rewrite length_take. lia. Qed.

(** X12: [extractRequirements] returns at most ten requirements, none of
    them twice; each is the trimmed text of a match of one of the five
    patterns in the description; when no pattern matches, the list is
    empty. *)
Theorem extractRequirements_bounded web description :
  (length (extractRequirements web description) <= 10)%nat
  /\ NoDup (extractRequirements web description)
  /\ (forall r, r ∈ extractRequirements web description ->
        exists pattern matches m,
          matchPattern web pattern description = Some matches
          /\ m ∈ matches /\ r = JsString.trim m)
  /\ ((forall pattern, matchPattern web pattern description = None) ->
      extractRequirements web description = []).
Proof.
  split; [apply extractRequirements_length |].
  split; [apply extractRequirements_NoDup |]. split.
  - intros r Hr. unfold extractRequirements in Hr.
    apply (fun H => elem_of_sublist _ _ _ H (sublist_take _ _)) in Hr.
    apply ATSFacts.uniqueFrom_spec in Hr as [Hr _].
    apply requirements_from in Hr as [Hr | (p & ms & m & _ & Hms & Hm & ->)];
      [inversion Hr |].
    by exists p, ms, m.
  - intros Hnone. unfold extractRequirements, skillPatterns. simpl.
    by rewrite !Hnone.
Qed.

Lemma listing_fresh src prefix origin page index element job :
  listing src prefix origin page index element = Some job -> freshPosting src job.
Proof.
  unfold listing.
  destruct (String.eqb_spec (titleText element) "") as [|Htitle]; [done |].
  destruct (String.eqb_spec (companyText element) "") as [|Hcompany]; [done |].
  simpl. intros [= <-]. unfold freshPosting. simpl.
  repeat split; try done.
  by destruct (String.eqb_spec (salaryText element) "").
Qed.

Lemma listingsFrom_fresh src prefix origin page index els :
  Forall (freshPosting src) (listingsFrom src prefix origin page index els).
Proof.
  revert index. induction els as [|[element|] rest IH]; intros index; simpl;
    [constructor | | apply IH].
  destruct (listing src prefix origin page index element) as [job|] eqn:Hjob; [| apply IH].
  constructor; [by eapply listing_fresh | apply IH].
Qed.

Lemma string_of_uint_allDecimal d : allDecimal (NilEmpty.string_of_uint d) = true.
Proof. induction d; simpl; try done; exact IHd. Qed.

Lemma ofZ_allDecimal z : allDecimal (JsString.ofZ z) = true.
Proof.
  unfold JsString.ofZ, NilZero.string_of_int, NilZero.string_of_uint.
  destruct (Z.to_int z) as [d|d]; destruct d; try done;
    simpl; apply string_of_uint_allDecimal.
Qed.

Lemma to_int_proper z : Z.to_int z <> Decimal.Pos Decimal.Nil /\ Z.to_int z <> Decimal.Neg Decimal.Nil.
Proof.
  destruct z as [|p|p]; simpl; split; try done; intros [= Hnil];
    by apply (DecimalPos.Unsigned.to_uint_nonnil p).
Qed.

Lemma ofZ_inj a b : JsString.ofZ a = JsString.ofZ b -> a = b.
Proof.
  unfold JsString.ofZ. intros Heq. apply DecimalZ.to_int_inj.
  destruct (to_int_proper a) as [Ha1 Ha2], (to_int_proper b) as [Hb1 Hb2].
  pose proof (NilZero.isi _ Ha1 Ha2) as Hpa. pose proof (NilZero.isi _ Hb1 Hb2) as Hpb.
  rewrite Heq in Hpa. congruence.
Qed.

(** Two decimal notations followed by an underscore and more text: equal
    wholes have equal parts. *)
Lemma underscore_split a a' b b' :
  allDecimal a = true -> allDecimal a' = true ->
  a ++ "_" ++ b = a' ++ "_" ++ b' -> a = a' /\ b = b'.
Proof.
  revert a'. induction a as [|c a IH]; intros [|c' a'] Ha Ha' Heq; simpl in *.
  - injection Heq as Hb. by subst.
  - injection Heq as Hc _. subst c'. apply andb_true_iff in Ha' as [Hc _]. discriminate.
  - injection Heq as Hc _. subst c. apply andb_true_iff in Ha as [Hc _]. discriminate.
  - injection Heq as Hc Heq. subst c'.
    apply andb_true_iff in Ha as [_ Ha]. apply andb_true_iff in Ha' as [_ Ha'].
    destruct (IH a' Ha Ha' Heq) as [-> ->]. done.
Qed.

Lemma listing_id src prefix origin page index element job :
  listing src prefix origin page index element = Some job ->
  id job = prefix ++ "_" ++ JsString.ofZ (clockAt page index)
           ++ "_" ++ JsString.ofZ (Z.of_nat index).
Proof. unfold listing. destruct (_ && _); [| done]. by intros [= <-]. Qed.

Lemma listingsFrom_id src prefix origin page index els job :
  job ∈ listingsFrom src prefix origin page index els ->
  exists k, (index <= k)%nat
            /\ id job = prefix ++ "_" ++ JsString.ofZ (clockAt page k)
                        ++ "_" ++ JsString.ofZ (Z.of_nat k).
Proof.
  revert index. induction els as [|el rest IH]; intros index; simpl;
    [intros Hin; inversion Hin |].
  assert (job ∈ listingsFrom src prefix origin page (S index) rest ->
          exists k, (index <= k)%nat
                    /\ id job = prefix ++ "_" ++ JsString.ofZ (clockAt page k)
                                ++ "_" ++ JsString.ofZ (Z.of_nat k)) as Hrest.
  { intros Hin. destruct (IH _ Hin) as (k & Hk & Hid). exists k. split; [lia | done]. }
  destruct el as [element|]; [| exact Hrest].
  destruct (listing src prefix origin page index element) as [job0|] eqn:Hjob; [| exact Hrest].
  intros Hin. apply elem_of_cons in Hin as [-> | Hin]; [| by apply Hrest].
  exists index. split; [lia | by eapply listing_id].
Qed.

Lemma listing_ids_differ prefix t t' (k k' : nat) :
  prefix ++ "_" ++ JsString.ofZ t ++ "_" ++ JsString.ofZ (Z.of_nat k)
  = prefix ++ "_" ++ JsString.ofZ t' ++ "_" ++ JsString.ofZ (Z.of_nat k') ->
  k = k'.
Proof.
  intros Heq. apply (inj (String.app prefix)) in Heq. apply (inj (String.app "_")) in Heq.
  apply underscore_split in Heq as [_ Heq]; try apply ofZ_allDecimal.
  apply ofZ_inj in Heq. lia.
Qed.

Lemma listingsFrom_ids_NoDup src prefix origin page index els :
  NoDup (id <$> listingsFrom src prefix origin page index els).
Proof.
  revert index. induction els as [|[element|] rest IH]; intros index; simpl;
    [constructor | | apply IH].
  destruct (listing src prefix origin page index element) as [job|] eqn:Hjob; [| apply IH].
  rewrite fmap_cons. constructor; [| apply IH].
  intros Hin. apply list_elem_of_fmap in Hin as (job' & Hid & Hin).
  apply listingsFrom_id in Hin as (k & Hk & Hid').
  rewrite (listing_id _ _ _ _ _ _ _ Hjob), Hid' in Hid.
  apply listing_ids_differ in Hid. lia.
Qed.




Lemma taken_listings src prefix origin page :
  let jobs := take 10 (listings src prefix origin page) in
  NoDup (id <$> jobs) /\ (length jobs <= 10)%nat /\ Forall (freshPosting src) jobs.
Proof.
  cbv zeta. split; [| split].
  - rewrite fmap_take. eapply sublist_NoDup; [apply listingsFrom_ids_NoDup | apply sublist_take].
  - rewrite length_take. lia.
  - apply Forall_take, listingsFrom_fresh.
Qed.

Section WithHost.
Context {host : JsString.Host}.

(** X13: [getJobDetails] as [scrapeSeek] calls it, with an array of
    postings, loads no detail page and does not look at the postings: it
    runs one search for "software", "developer", "engineer" in Australia,
    with that search's effect on the limiter and the cache, and resolves
    [null] whatever the search returns or throws. *)
Theorem getJobDetails_of_postings env sh jobs :
  snd (getJobDetails env sh (Listings jobs)) = None
  /\ fst (getJobDetails env sh (Listings jobs))
     = fst (scrapeJobs env sh ["software"; "developer"; "engineer"] "Australia")
  /\ (forall jobs', getJobDetails env sh (Listings jobs') = getJobDetails env sh (Listings jobs)).
Proof.
  split; [| split]; intros; by rewrite !ScraperFacts.getJobDetails_Listings.
Qed.

(** X14: how the two fetchers settle.  [scrapeSeek] rejects with its
    [ScrapingError], of status 503, and touches nothing when its page
    cannot be loaded; when the page loads, it fulfils with [null], never
    with postings, and leaves the shared state as the search of
    [getJobDetails] left it.  [scrapeIndeed] fulfils with at most ten
    postings of pairwise different ids, each with a title, a company and a
    salary text that are not empty, tagged as Indeed's, not applied, with
    match score 0 and no keywords, description or requirements; or it
    rejects with its [ScrapingError] when its page cannot be loaded. *)
Theorem fetchers_settle env sh keywords location :
  match seekPage env (buildSeekUrl keywords location) with
  | Some (page, nested) =>
      scrapeSeek env sh keywords location
      = (fst (scrapeJobs nested sh ["software"; "developer"; "engineer"] "Australia"),
         Fulfilled (Found None))
  | None =>
      scrapeSeek env sh keywords location
      = (sh, Rejected (AppErr (ScrapingError "Failed to scrape Seek")))
  end
  /\ match scrapeIndeed env keywords location with
     | Fulfilled (Postings jobs) =>
         (length jobs <= 10)%nat /\ Forall (freshPosting indeed) jobs
         /\ NoDup (id <$> jobs)
         /\ is_Some (indeedPage env (buildIndeedUrl keywords location))
     | Fulfilled (Found _) => False
     | Rejected e => e = AppErr (ScrapingError "Failed to scrape Indeed")
                     /\ indeedPage env (buildIndeedUrl keywords location) = None
     end
  /\ statusCode (ScrapingError "Failed to scrape Seek") = 503.
Proof.
  split; [apply ScraperFacts.scrapeSeek_outcome |]. split; [| reflexivity].
  unfold scrapeIndeed.
  destruct (indeedPage env (buildIndeedUrl keywords location)) as [page|]; [| done].
  destruct (taken_listings indeed "indeed" "https://au.indeed.com" page) as (Hids & Hlen & Hfresh).
  done.
Qed.


End WithHost.

#[local] Existing Instance JsString.asciiHost.


End FetcherFacts.

(** ** Strings and appended text *)

Module StringLaws.
Import JsString.

Lemma string_app_cons x (a b : string) : String x a ++ b = String x (a ++ b).
Proof. reflexivity. Qed.

Lemma string_app_empty (a : string) : a ++ "" = a.
Proof. induction a as [|x a IH]; [done | by rewrite string_app_cons, IH]. Qed.

Lemma string_app_assoc (a b c : string) : (a ++ b) ++ c = a ++ (b ++ c).
Proof. induction a as [|x a IH]; [done | by rewrite !string_app_cons, IH]. Qed.

Lemma string_app_cancel (a b : string) : a ++ b = a -> b = "".
Proof.
  induction a as [|x a IH]; [done |]. rewrite string_app_cons.
  intros Heq. injection Heq as Heq. by apply IH.
Qed.


Lemma startsWith_self p t : startsWith p (p ++ t) = true.
Proof.
  induction p as [|a p IH]; [done |]. rewrite string_app_cons. simpl.
  by rewrite Ascii.eqb_refl.
Qed.

Lemma includes_self needle t : includes needle (needle ++ t) = true.
Proof.
  destruct (needle ++ t) as [|c rest] eqn:Heq.
  - destruct needle; [done | discriminate].
  - simpl. rewrite <- Heq, startsWith_self. done.
Qed.


Lemma includes_app_r needle s t : includes needle t = true -> includes needle (s ++ t) = true.
Proof.
  intros Ht. induction s as [|c s IH]; [done |]. rewrite string_app_cons. simpl.
  rewrite IH. apply orb_true_r.
Qed.

Lemma includes_middle needle a b : includes needle (a ++ needle ++ b) = true.
Proof. apply includes_app_r, includes_self. Qed.

Lemma join_includes sep item items :
  item ∈ items -> includes item (join sep items) = true.
Proof.
  unfold join. induction items as [|x rest IH]; intros Hin; [inversion Hin |].
  simpl. destruct rest as [|y rest].
  - apply list_elem_of_singleton in Hin as ->.
    rewrite <- (includes_self x ""). by rewrite string_app_empty.
  - apply elem_of_cons in Hin as [-> | Hin].
    + apply includes_self.
    + apply includes_app_r, includes_app_r. by apply IH.
Qed.

Lemma lowerChar_idempotent c : lowerChar (lowerChar c) = lowerChar c.
Proof. destruct c as [[] [] [] [] [] [] [] []]; reflexivity. Qed.

Lemma toLowerCaseAscii_idempotent s :
  toLowerCaseAscii (toLowerCaseAscii s) = toLowerCaseAscii s.
Proof. induction s as [|c s IH]; simpl; [done |]. by rewrite lowerChar_idempotent, IH. Qed.

Lemma lowerChar_ascii c :
  (nat_of_ascii c <? 128)%nat = true -> (nat_of_ascii (lowerChar c) <? 128)%nat = true.
Proof. destruct c as [[] [] [] [] [] [] [] []]; intros H; try exact H; reflexivity. Qed.

Lemma isAscii_toLowerCaseAscii s : isAscii s = true -> isAscii (toLowerCaseAscii s) = true.
Proof.
  induction s as [|c s IH]; simpl; [done |].
  intros [Hc Hs]%andb_true_iff. by rewrite (lowerChar_ascii c Hc), (IH Hs).
Qed.

(** Every host lowers a text of ASCII characters to the same text, on
    which lowering again changes nothing. *)
Lemma toLowerCase_ascii_idempotent {host : Host} s :
  isAscii s = true -> toLowerCase (toLowerCase s) = toLowerCase s.
Proof.
  intros Hs. rewrite (toLowerCase_ascii s Hs).
  rewrite (toLowerCase_ascii _ (isAscii_toLowerCaseAscii s Hs)).
  apply toLowerCaseAscii_idempotent.
Qed.

End StringLaws.

(** ** The keywords of a document *)

Module KeywordLaws.
Import JsString ATSOptimizerService CVAnalysis.

Lemma uniqueFrom_sublist seen xs : sublist (uniqueFrom seen xs) xs.
Proof.
  revert seen. induction xs as [|x rest IH]; intros seen; simpl; [constructor |].
  case_bool_decide; [apply sublist_cons | apply sublist_skip]; apply IH.
Qed.

Lemma filter_sublist (p : string -> bool) xs : sublist (List.filter p xs) xs.
Proof.
  induction xs as [|x rest IH]; simpl; [constructor |].
  destruct (p x); [by apply sublist_skip | by apply sublist_cons].
Qed.

Section WithHost.
Context {host : Host}.

(** The words of the vocabulary are ASCII and in lower case, so every
    host leaves them as they are. *)
Lemma techKeywords_lower keyword :
  keyword ∈ techKeywords -> toLowerCase keyword = keyword.
Proof.
  intros Hin.
  assert (forallb (fun k => isAscii k && String.eqb (toLowerCaseAscii k) k) techKeywords
          = true) as Hall by (vm_compute; reflexivity).
  rewrite forallb_forall in Hall.
  destruct (proj1 (andb_true_iff _ _) (Hall keyword (proj1 (list_elem_of_In _ _) Hin)))
    as [Hascii Hlower].
  rewrite (toLowerCase_ascii keyword Hascii). by apply String.eqb_eq.
Qed.

Lemma extractKeywords_elem keyword content :
  keyword ∈ extractKeywords content
  <-> keyword ∈ techKeywords /\ includes keyword (toLowerCase content) = true.
Proof.
  unfold extractKeywords, unique.
  rewrite (proj2 (ATSFacts.uniqueFrom_spec ∅ _)), list_elem_of_In, filter_In,
    <- list_elem_of_In.
  split.
  - intros [[Hin Hfound] _]. split; [exact Hin |].
    by rewrite (techKeywords_lower keyword Hin) in Hfound.
  - intros [Hin Hfound]. split; [| apply not_elem_of_empty].
    split; [exact Hin |]. by rewrite (techKeywords_lower keyword Hin).
Qed.

(** A job keyword is missing unless its lower-cased form is among the
    extracted keywords. *)
Lemma missingKeywords_elem cvContent jobKeywords keyword :
  keyword ∈ missingKeywords cvContent jobKeywords
  <-> keyword ∈ jobKeywords /\ toLowerCase keyword ∉ extractKeywords cvContent.
Proof.
  unfold missingKeywords. rewrite list_elem_of_In, filter_In, <- list_elem_of_In.
  rewrite negb_true_iff, <- not_true_iff_false, existsb_exists.
  split; intros [Hin Hnone]; (split; [exact Hin |]).
  - intros Hfound. apply Hnone. exists (toLowerCase keyword).
    split; [by apply list_elem_of_In |].
    pose proof (proj1 (extractKeywords_elem _ _) Hfound) as [Htech _].
    rewrite (techKeywords_lower _ Htech). apply String.eqb_refl.
  - intros (cvKeyword & Hcv%list_elem_of_In & Heq%String.eqb_eq). apply Hnone.
    rewrite <- Heq.
    pose proof (proj1 (extractKeywords_elem _ _) Hcv) as [Htech _].
    by rewrite (techKeywords_lower cvKeyword Htech).
Qed.

(** X17: on every host, the keywords extracted from a document are
    exactly the words of the vocabulary that occur in the text the host's
    [toLowerCase] makes of it, each once and in the order of the
    vocabulary; for a document of ASCII characters, lowering it beforehand
    does not change the result. *)
Theorem extractKeywords_characterised content :
  NoDup (extractKeywords content)
  /\ sublist (extractKeywords content) techKeywords
  /\ (forall keyword,
        keyword ∈ extractKeywords content
        <-> keyword ∈ techKeywords /\ includes keyword (toLowerCase content) = true)
  /\ (isAscii content = true ->
      extractKeywords (toLowerCase content) = extractKeywords content).
Proof.
  split; [apply ATSFacts.uniqueFrom_spec |]. split; [| split].
  - unfold extractKeywords, unique. etransitivity; [apply uniqueFrom_sublist |].
    apply filter_sublist.
  - intros keyword. apply extractKeywords_elem.
  - intros Hascii. unfold extractKeywords.
    by rewrite (StringLaws.toLowerCase_ascii_idempotent content Hascii).
Qed.

End WithHost.

End KeywordLaws.

(** ** More on keywords and scores *)

Module ScoreLaws.
Import JsString ATSOptimizerService Scoring.

(** A number that is a whole number of halves. *)
Lemma halves_plus (a b : Q) :
  (exists n : Z, (a == n # 2)%Q) -> (exists n : Z, (b == n # 2)%Q) ->
  exists n : Z, (a + b == n # 2)%Q.
Proof.
  intros [n Hn] [m Hm]. exists (n + m). rewrite Hn, Hm.
  unfold Qeq, Qplus. simpl. lia.
Qed.

Lemma halves_min (a b : Q) :
  (exists n : Z, (a == n # 2)%Q) -> (exists n : Z, (b == n # 2)%Q) ->
  exists n : Z, (Qmin a b == n # 2)%Q.
Proof.
  intros [n Hn] [m Hm]. destruct (Q.min_spec a b) as [[_ Heq] | [_ Heq]].
  - exists n. by rewrite Heq.
  - exists m. by rewrite Heq.
Qed.

Lemma halves_eq (a b : Q) :
  (a == b)%Q -> (exists n : Z, (b == n # 2)%Q) -> exists n : Z, (a == n # 2)%Q.
Proof. intros Hab [n Hn]. exists n. by rewrite Hab. Qed.

Lemma halves_bonus test (pts : Z) : exists n : Z, (bonus test (inject_Z pts) == n # 2)%Q.
Proof.
  destruct test; simpl.
  - exists (2 * pts). unfold Qeq, inject_Z. simpl. lia.
  - by exists 0.
Qed.

Lemma bonus_nonnegative test pts : (0 <= pts)%Q -> (0 <= bonus test pts)%Q.
Proof. intros Hpts. destruct test; simpl; [exact Hpts | apply Qle_refl]. Qed.

Lemma sum_nonnegative (a b : Q) : (0 <= a)%Q -> (0 <= b)%Q -> (0 <= a + b)%Q.
Proof.
  intros Ha Hb. apply (Qle_trans _ (0 + 0)); [done |]. by apply Qplus_le_compat.
Qed.

Lemma lengthScore_cases content :
  exists pts : Z, 0 <= pts /\ lengthScore content = inject_Z pts.
Proof.
  unfold lengthScore. destruct (_ && _); [by exists 15 |].
  destruct (_ && _); [by exists 10 |]. destruct (_ <=? _)%nat; [by exists 5 | by exists 0].
Qed.

Section WithHost.
Context {host : Host}.

(** X18: the ATS score is never below 0 nor above 100, and is always a
    whole number of halves; it need not be a whole number, since each
    keyword counts for 1.5. *)
Theorem calculateATSScore_range content keywords :
  (0 <= calculateATSScore content keywords)%Q
  /\ (calculateATSScore content keywords <= 100)%Q
  /\ (exists n : Z, (calculateATSScore content keywords == n # 2)%Q)
  /\ (basicATSScore "Skills react" == 23 # 2)%Q.
Proof.
  unfold calculateATSScore.
  destruct (lengthScore_cases content) as (len & Hlen & Hlength).
  split; [| split; [| split]].
  - apply Q.min_glb; [| done].
    rewrite ATSFacts.sectionScore_bonus, ATSFacts.formatScore_bonus, Hlength.
    repeat apply sum_nonnegative; try (by apply bonus_nonnegative).
    + unfold keywordScore. apply Q.min_glb; [| done].
      apply Qmult_le_0_compat; [| done]. change 0%Q with (inject_Z 0).
      rewrite <- Zle_Qle. lia.
    + change 0%Q with (inject_Z 0). by rewrite <- Zle_Qle.
  - apply Q.le_min_r.
  - apply halves_min; [| by exists 200]. repeat apply halves_plus.
    + apply (halves_eq _ _ (ATSFacts.sectionScore_bonus _)).
      repeat apply halves_plus;
        [apply (halves_bonus _ 15) | apply (halves_bonus _ 10)
         | apply (halves_bonus _ 10) | apply (halves_bonus _ 5)].
    + unfold keywordScore. apply halves_min; [| by exists 50].
      exists (3 * Z.of_nat (length keywords)). unfold Qeq, Qmult, inject_Z. simpl. lia.
    + rewrite Hlength. exists (2 * len). unfold Qeq, inject_Z. simpl. lia.
    + apply (halves_eq _ _ (ATSFacts.formatScore_bonus _ _)).
      repeat apply halves_plus;
        [apply (halves_bonus _ 8) | apply (halves_bonus _ 5)
         | apply (halves_bonus _ 4) | apply (halves_bonus _ 3)].
  - rewrite HostFacts.basicATSScore_ascii by reflexivity. vm_compute. reflexivity.
Qed.

Lemma roundHalfUp_range m p : 0 <= m <= p -> 0 < p -> 0 <= roundHalfUp (100 * m) p <= 100.
Proof.
  intros Hm Hp. unfold roundHalfUp. split.
  - apply Z.div_pos; lia.
  - apply Z.lt_succ_r, Z.div_lt_upper_bound; lia.
Qed.

(** X19: for a posting with at most 39 possible points (for instance up to
    13 keywords and no requirement), the match score is exactly the
    percentage of the matched points, rounded to the nearest integer with
    halves upwards, and lies between 0 and 100. *)
Theorem calculateMatchScore_exact_small cvContent jobKeywords jobRequirements :
  possiblePoints jobKeywords jobRequirements <= 39 ->
  calculateMatchScore cvContent jobKeywords jobRequirements
  = (if 0 <? possiblePoints jobKeywords jobRequirements
     then roundHalfUp (100 * matchedPoints cvContent jobKeywords jobRequirements)
                      (possiblePoints jobKeywords jobRequirements)
     else 0)
  /\ 0 <= calculateMatchScore cvContent jobKeywords jobRequirements <= 100.
Proof.
  intros Hsmall. rewrite MatchFacts.calculateMatchScore_points.
  pose proof (MatchFacts.matchedPoints_le_possible cvContent jobKeywords jobRequirements) as Hm.
  destruct (Z.ltb_spec 0 (possiblePoints jobKeywords jobRequirements)) as [Hpos | Hzero];
    [| split; [reflexivity | lia]].
  rewrite MatchFacts.percentage_exact_below_40 by lia.
  split; [reflexivity |]. by apply roundHalfUp_range.
Qed.

Lemma percentage_nothing p : percentage 0 p = 0.
Proof.
  unfold percentage. change (JsNumber.ofZ 0) with (SpecFloat.S754_zero false).
  unfold JsNumber.div, SpecFloat.SFdiv.
  destruct (JsNumber.ofZ p) as [s|s| |s m e]; try reflexivity;
    destruct s; reflexivity.
Qed.

(** X20: the match score is never negative, and it is 0 whenever no job
    keyword and no requirement matches, however many there are. *)
Theorem calculateMatchScore_no_match cvContent jobKeywords jobRequirements :
  0 <= calculateMatchScore cvContent jobKeywords jobRequirements
  /\ (matchedPoints cvContent jobKeywords jobRequirements = 0 ->
      calculateMatchScore cvContent jobKeywords jobRequirements = 0).
Proof.
  split; [apply MatchFacts.calculateMatchScore_nonnegative |].
  intros Hnone. rewrite MatchFacts.calculateMatchScore_points, Hnone.
  destruct (0 <? _); [apply percentage_nothing | reflexivity].
Qed.

End WithHost.

#[local] Existing Instance JsString.asciiHost.

Lemma calculateMatchScore_exact_small_witness :
  calculateMatchScore shortCV ["react"; "python"; "kubernetes"] ["python"] = 73.
Proof.
  destruct (calculateMatchScore_exact_small shortCV ["react"; "python"; "kubernetes"]
              ["python"]) as [Hscore _].
  - vm_compute. discriminate.
  - rewrite Hscore. vm_compute. reflexivity.
Defined.

End ScoreLaws.

(** ** Suggestions, tailoring and the cached analysis *)

Module CVLaws.
Import JsString ATSOptimizerService Scoring CVAnalysis Advice StringLaws KeywordLaws.

Section WithHost.
Context {host : Host}.

Lemma generateSuggestions_blocks content score :
  generateSuggestions content score
  = (when (ltQ score 60)
       [ "Add more relevant keywords from job descriptions";
         "Include a professional summary section";
         "Use bullet points to improve readability";
         "Add quantifiable achievements with specific numbers" ]
     ++ when (negb (includes "achievements" (toLowerCase content))
              && negb (includes "accomplishments" (toLowerCase content)))
          [ "Add quantifiable achievements and metrics" ]
     ++ when (negb (includes "projects" (toLowerCase content))
              && negb (includes "portfolio" (toLowerCase content)))
          [ "Include relevant projects section" ]
     ++ when (ltQ score 75)
          [ "Use action verbs to start bullet points";
            "Tailor skills section to match job requirements";
            "Include relevant certifications and training";
            "Add contact information at the top" ]
     ++ when (wordCount content <? 300)%nat
          [ "CV is too short - add more detail about your experience" ]
     ++ when (negb (wordCount content <? 300)%nat && (1200 <? wordCount content)%nat)
          [ "CV is too long - consider condensing to 1-2 pages" ]
     ++ when (negb (includes "•" content) && negb (includes "-" content))
          [ "Use bullet points for better readability" ]
     ++ when (countNumbers content <? 3)%nat
          [ "Include more specific numbers and metrics" ])%list.
Proof.
  unfold generateSuggestions.
  destruct (ltQ score 60), (ltQ score 75),
    (negb (includes "achievements" (toLowerCase content))
     && negb (includes "accomplishments" (toLowerCase content))),
    (negb (includes "projects" (toLowerCase content))
     && negb (includes "portfolio" (toLowerCase content))),
    (wordCount content <? 300)%nat, (1200 <? wordCount content)%nat,
    (negb (includes "•" content) && negb (includes "-" content)),
    (countNumbers content <? 3)%nat; reflexivity.
Qed.

Lemma ltQ_spec a b : ltQ a b = true <-> (a < b)%Q.
Proof.
  unfold ltQ. rewrite negb_true_iff, <- not_true_iff_false, Qle_bool_iff.
  split; [apply Qnot_le_lt | apply Qlt_not_le].
Qed.

Lemma ltQ_mono a a' b : (a <= a')%Q -> ltQ a' b = true -> ltQ a b = true.
Proof. rewrite !ltQ_spec. intros Haa' Ha'. by eapply Qle_lt_trans. Qed.

Lemma when_sublist test test' items :
  (test' = true -> test = true) -> sublist (when test' items) (when test items).
Proof.
  intros Himp. destruct test'; simpl; [| apply sublist_nil_l].
  by rewrite Himp.
Qed.

(** X21: a lower score never gets fewer suggestions for the same
    document: the suggestions for a higher score are among those for a
    lower one, in the same order. *)
Theorem generateSuggestions_monotone content score score' :
  (score <= score')%Q ->
  sublist (generateSuggestions content score') (generateSuggestions content score).
Proof.
  intros Hle. rewrite !generateSuggestions_blocks.
  repeat apply sublist_app; try reflexivity; apply when_sublist; by apply ltQ_mono.
Qed.

Lemma when_nil test items : items <> [] -> when test items = [] <-> test = false.
Proof. intros Hitems. destruct test; simpl; split; try done. Qed.

(** X22: there are at most thirteen suggestions, and there is none
    exactly when the score is at least 75, the document mentions
    achievements or accomplishments and projects or a portfolio, has
    between 300 and 1200 words, a bullet sign or a hyphen, and at least
    three numbers. *)
Theorem generateSuggestions_none content score :
  (length (generateSuggestions content score) <= 13)%nat
  /\ (generateSuggestions content score = []
      <-> (75 <= score)%Q
          /\ (includes "achievements" (toLowerCase content) = true
              \/ includes "accomplishments" (toLowerCase content) = true)
          /\ (includes "projects" (toLowerCase content) = true
              \/ includes "portfolio" (toLowerCase content) = true)
          /\ (300 <= wordCount content <= 1200)%nat
          /\ (includes "•" content = true \/ includes "-" content = true)
          /\ (3 <= countNumbers content)%nat).
Proof.
  rewrite generateSuggestions_blocks. split.
  - rewrite !length_app.
    destruct (wordCount content <? 300)%nat, (1200 <? wordCount content)%nat;
      unfold when; repeat case_match; simpl; lia.
  - assert (Hnil : forall l k : list string, (l ++ k)%list = [] <-> l = [] /\ k = [])
      by (intros; apply app_nil).
    assert (H60 : ltQ score 60 = false /\ ltQ score 75 = false <-> (75 <= score)%Q).
    { rewrite <- !not_true_iff_false, !ltQ_spec. split.
      - intros [_ H75]. by apply Qnot_lt_le.
      - intros H75. split; apply Qle_not_lt; [| done].
        eapply Qle_trans; [| exact H75]. done. }
    rewrite <- H60.
    rewrite !Hnil, !when_nil by discriminate.
    rewrite !andb_false_iff, !negb_false_iff, !Nat.ltb_ge.
    split.
    + intros (H1 & Hach & Hproj & H75 & Hshort & Hlong & Hbul & Hnum).
      assert (wordCount content <= 1200)%nat
        by (destruct Hlong as [Hlong%Nat.ltb_lt | Hlong]; lia).
      repeat split; done.
    + intros ([H1 H75] & Hach & Hproj & [Hlo Hhi] & Hbul & Hnum).
      repeat split; try done. by right.
Qed.

(** *** The cached analysis *)

Lemma miss_leaves_absent (c : BrowserCache CVData) now key :
  snd (BrowserCache.get c now key) = None ->
  cache (fst (BrowserCache.get c now key)) !! key = None.
Proof.
  unfold BrowserCache.get. destruct (cache c !! key) as [item|] eqn:Hk; [| done].
  destruct (BrowserCache.isExpired now item); [| done].
  intros _. simpl. apply lookup_delete_eq.
Qed.

(** X25: when the text-generation service answers, its analysis is
    returned and kept for an hour under the digest of the text: a later
    analysis of a text with the same digest within 3600 seconds of the
    write returns the same data without asking the service, even when the
    text differs. *)
Theorem analyzeCV_service_answer_cached env env' c cvContent cvContent' analysis :
  snd (CacheService.getCachedCVAnalysis c (timeOfRead env) (createHash env cvContent)) = None ->
  analyzeCVForATS env cvContent = Some analysis ->
  createHash env' cvContent' = createHash env cvContent ->
  timeOfRead env' <= timeOfWrite env + 3600 * 1000 ->
  snd (analyzeCV env c cvContent)
  = {| fileName := "uploaded-cv.pdf";
       content := cvContent;
       cvKeywords := aiKeywords analysis;
       atsScore := aiScore analysis;
       suggestions := aiSuggestions analysis |}
  /\ snd (analyzeCV env' (fst (analyzeCV env c cvContent)) cvContent')
     = snd (analyzeCV env c cvContent).
Proof.
  intros Hmiss Hanswer Hhash Htime.
  destruct (CacheService.getCachedCVAnalysis c (timeOfRead env) (createHash env cvContent))
    as [c1 found] eqn:Hget.
  simpl in Hmiss. subst found.
  assert (analyzeCV env c cvContent
          = (CacheService.cacheCVAnalysis c1 (timeOfWrite env) (createHash env cvContent)
               {| fileName := "uploaded-cv.pdf";
                  content := cvContent;
                  cvKeywords := aiKeywords analysis;
                  atsScore := aiScore analysis;
                  suggestions := aiSuggestions analysis |},
             {| fileName := "uploaded-cv.pdf";
                content := cvContent;
                cvKeywords := aiKeywords analysis;
                atsScore := aiScore analysis;
                suggestions := aiSuggestions analysis |})) as ->
    by (unfold analyzeCV; by rewrite Hget, Hanswer).
  split; [reflexivity |].
  unfold analyzeCV. rewrite Hhash.
  unfold CacheService.getCachedCVAnalysis, CacheService.cacheCVAnalysis, BrowserCache.get.
  simpl. rewrite lookup_insert_eq. unfold BrowserCache.isExpired. simpl.
  change config.cvAnalysisTTL with 3600.
  by destruct (Z.ltb_spec (timeOfWrite env + 3600 * 1000) (timeOfRead env')); [lia |].
Qed.

(** X26: when the service fails, the rule-based analysis is returned
    and nothing is stored, so the next analysis of the same text asks the
    service again, at whatever time. *)
Theorem analyzeCV_fallback_not_cached env env' c cvContent :
  snd (CacheService.getCachedCVAnalysis c (timeOfRead env) (createHash env cvContent)) = None ->
  analyzeCVForATS env cvContent = None ->
  createHash env' cvContent = createHash env cvContent ->
  snd (analyzeCV env c cvContent) = basicAnalyzeCV cvContent
  /\ snd (analyzeCV env' (fst (analyzeCV env c cvContent)) cvContent)
     = match analyzeCVForATS env' cvContent with
       | Some analysis =>
           {| fileName := "uploaded-cv.pdf";
              content := cvContent;
              cvKeywords := aiKeywords analysis;
              atsScore := aiScore analysis;
              suggestions := aiSuggestions analysis |}
       | None => basicAnalyzeCV cvContent
       end.
Proof.
  intros Hmiss Hfail Hhash.
  pose proof (miss_leaves_absent c (timeOfRead env)
                (CacheService.cvAnalysisKey (createHash env cvContent)) Hmiss) as Habsent.
  unfold CacheService.getCachedCVAnalysis in *.
  destruct (BrowserCache.get c (timeOfRead env)
              (CacheService.cvAnalysisKey (createHash env cvContent))) as [c1 found] eqn:Hget.
  simpl in Hmiss, Habsent. subst found.
  assert (analyzeCV env c cvContent = (c1, basicAnalyzeCV cvContent)) as ->
    by (unfold analyzeCV, CacheService.getCachedCVAnalysis; by rewrite Hget, Hfail).
  split; [reflexivity |].
  unfold analyzeCV, CacheService.getCachedCVAnalysis, BrowserCache.get.
  rewrite Hhash. simpl. rewrite Habsent. by destruct (analyzeCVForATS env' cvContent).
Qed.

(** A tailoring by the service is used only when a job and a profile
    are given and the service answers; in every other case the result
    is the basic tailoring, which begins with the document. *)
Remark tailorCVForJob_fallback cvContent jobKeywords jobAndProfile aiTailored :
  (jobAndProfile = true /\ aiTailored = Some (tailorCVForJob cvContent jobKeywords
                                                jobAndProfile aiTailored))
  \/ (tailorCVForJob cvContent jobKeywords jobAndProfile aiTailored
      = basicTailorCV cvContent jobKeywords
      /\ startsWith cvContent (tailorCVForJob cvContent jobKeywords jobAndProfile aiTailored)
         = true).
Proof.
  assert (startsWith cvContent (basicTailorCV cvContent jobKeywords) = true) as Hprefix.
  { unfold basicTailorCV. destruct (0 <? _)%nat; [apply startsWith_self |].
    rewrite <- (startsWith_self cvContent ""). by rewrite string_app_empty. }
  destruct jobAndProfile, aiTailored as [tailoredCV|]; simpl; auto.
Qed.

End WithHost.

#[local] Existing Instance JsString.asciiHost.

Lemma generateSuggestions_monotone_witness :
  sublist (generateSuggestions "Skills react" 80) (generateSuggestions "Skills react" 50).
Proof. apply generateSuggestions_monotone. done. Defined.

Lemma analyzeCV_service_answer_cached_witness :
  snd (analyzeCV onlineEnv CacheService.new "Skills react")
  = {| fileName := "uploaded-cv.pdf";
       content := "Skills react";
       cvKeywords := ["react"];
       atsScore := 82;
       suggestions := [] |}
  /\ snd (analyzeCV offlineEnv (fst (analyzeCV onlineEnv CacheService.new "Skills react"))
            "Skills react")
     = snd (analyzeCV onlineEnv CacheService.new "Skills react").
Proof.
  apply (analyzeCV_service_answer_cached onlineEnv offlineEnv CacheService.new
           "Skills react" "Skills react"
           {| aiScore := 82; aiKeywords := ["react"]; aiSuggestions := [] |});
    [reflexivity | reflexivity | reflexivity | vm_compute; discriminate].
Defined.

Lemma analyzeCV_fallback_not_cached_witness :
  snd (analyzeCV offlineEnv CacheService.new "Skills react") = basicAnalyzeCV "Skills react"
  /\ snd (analyzeCV onlineEnv (fst (analyzeCV offlineEnv CacheService.new "Skills react"))
            "Skills react")
     = {| fileName := "uploaded-cv.pdf";
          content := "Skills react";
          cvKeywords := ["react"];
          atsScore := 82;
          suggestions := [] |}.
Proof.
  apply (analyzeCV_fallback_not_cached offlineEnv onlineEnv CacheService.new "Skills react");
    reflexivity.
Defined.

(** *** Appended text

    The results on appended text are for the host that lowers the
    letters A to Z: what [toLowerCase] makes of a concatenation is not
    fixed by what it makes of the two parts. *)


Lemma filter_length_le (p q : string -> bool) xs :
  (forall x, p x = true -> q x = true) ->
  (length (List.filter p xs) <= length (List.filter q xs))%nat.
Proof.
  intros Himp. induction xs as [|x xs IH]; simpl; [done |].
  destruct (p x) eqn:Hp.
  - rewrite (Himp x Hp). simpl. lia.
  - destruct (q x); simpl; lia.
Qed.




End CVLaws.


(** ** Basic tailoring *)

Module TailoringLaws.
Import JsString ATSOptimizerService CVAnalysis StringLaws KeywordLaws.

Section WithHost.
Context {host : Host}.

(** X23: on every host, basic tailoring only appends to the document;
    it leaves the document as it is exactly when the lower-cased form of
    every job keyword is among the keywords extracted from it, so a job
    keyword whose lower-cased form is outside the vocabulary always causes
    an addition, whether or not the document already contains it; and each
    of the first eight missing keywords occurs in the tailored document. *)
Theorem basicTailorCV_appends cvContent jobKeywords :
  (exists added, basicTailorCV cvContent jobKeywords = cvContent ++ added)
  /\ (basicTailorCV cvContent jobKeywords = cvContent
      <-> forall keyword, keyword ∈ jobKeywords ->
            toLowerCase keyword ∈ extractKeywords cvContent)
  /\ (forall keyword, keyword ∈ jobKeywords -> toLowerCase keyword ∉ techKeywords ->
        basicTailorCV cvContent jobKeywords <> cvContent)
  /\ (forall keyword, keyword ∈ take 8 (missingKeywords cvContent jobKeywords) ->
        includes keyword (basicTailorCV cvContent jobKeywords) = true).
Proof.
  assert (Hunchanged : basicTailorCV cvContent jobKeywords = cvContent
                       <-> missingKeywords cvContent jobKeywords = []).
  { unfold basicTailorCV. destruct (missingKeywords cvContent jobKeywords) as [|m rest]; simpl.
    - done.
    - split; [| done]. intros Heq%string_app_cancel. discriminate. }
  assert (Hall : basicTailorCV cvContent jobKeywords = cvContent
                 <-> forall keyword, keyword ∈ jobKeywords ->
                       toLowerCase keyword ∈ extractKeywords cvContent).
  { rewrite Hunchanged. split.
    - intros Hnil keyword Hin.
      destruct (decide (toLowerCase keyword ∈ extractKeywords cvContent)) as [|Hnot]; [done |].
      assert (keyword ∈ missingKeywords cvContent jobKeywords) as Hmissing
        by (by apply missingKeywords_elem).
      rewrite Hnil in Hmissing. inversion Hmissing.
    - intros Hevery. destruct (missingKeywords cvContent jobKeywords) as [|m rest] eqn:Hm; [done |].
      assert (m ∈ missingKeywords cvContent jobKeywords) as [Hin Hnot]%missingKeywords_elem
        by (rewrite Hm; apply list_elem_of_here).
      destruct Hnot. by apply Hevery. }
  split; [| split; [exact Hall | split]].
  - unfold basicTailorCV. destruct (0 <? _)%nat; [by eexists |].
    exists "". by rewrite string_app_empty.
  - intros keyword Hin Hout Hsame. apply Hout.
    eapply extractKeywords_elem, Hall; done.
  - intros keyword Hin. unfold basicTailorCV.
    destruct (0 <? _)%nat eqn:Hsome.
    + apply includes_app_r. rewrite <- !string_app_assoc. apply includes_app_r.
      by apply join_includes.
    + apply Nat.ltb_ge in Hsome.
      destruct (missingKeywords cvContent jobKeywords); [inversion Hin | simpl in Hsome; lia].
Qed.

End WithHost.

#[local] Existing Instance JsString.asciiHost.

Lemma basicTailorCV_appends_witness :
  basicTailorCV "Skills react" ["React"; "Salesforce"; "Skills"]
  = "Skills react" ++ newline ++ newline ++ "RELEVANT TECHNICAL SKILLS:" ++ newline
    ++ "• Salesforce" ++ newline ++ "• Skills"
  /\ basicTailorCV "Skills react" ["React"] = "Skills react".
Proof.
  split; [vm_compute; reflexivity |].
  apply (proj1 (proj2 (basicTailorCV_appends "Skills react" ["React"]))).
  intros keyword Hin%list_elem_of_singleton. subst keyword.
  change (toLowerCase "React") with "react".
  apply extractKeywords_elem. split; [| vm_compute; reflexivity].
  apply list_elem_of_In. simpl. auto.
Defined.

End TailoringLaws.

(** ** Documents, errors and the job list *)

Module InterfaceLaws.
Import JobScraperService DocumentParserService JobList Interface.

Lemma checkLimits_reachable svc times operation identifier :
  RateLimit.reachable svc ->
  RateLimit.reachable (fst (checkLimits svc times operation identifier)).
Proof.
  revert svc. induction times as [|now times IH]; intros svc Hreach; [done |].
  simpl. pose proof (RateLimit.reachable_checkLimit svc now operation identifier Hreach) as H1.
  destruct (checkLimit svc now operation identifier) as [svc1 r].
  specialize (IH svc1 H1). by destruct (checkLimits svc1 times operation identifier).
Qed.

(** Whom the limiter refuses is told to wait for at least one second. *)
Lemma checkLimit_refusal svc now identifier svc' e :
  RateLimit.reachable svc ->
  checkLimit svc now "jobSearch" identifier = (svc', Throw e) ->
  exists secs, 1 <= secs /\ e = AppErr (RateLimitError (rateLimitMessage secs)).
Proof.
  intros Hreach Hthrow.
  pose proof (RateLimitFacts.reachable_configuredAs _ Hreach "jobSearch") as Hcfg.
  unfold checkLimit in Hthrow.
  destruct (limiters svc !! "jobSearch") as [lim|] eqn:Hlim.
  - destruct Hcfg as (limit & Hin & Hpoints & Hduration).
    assert (0 <= duration lim) as Hpositive.
    { rewrite Hduration. apply list_elem_of_In in Hin. simpl in Hin.
      destruct Hin as [Hin | [Hin | [Hin | []]]]; inversion Hin; simpl; lia. }
    unfold consume in Hthrow.
    destruct (consumed _ <? points lim); [done |].
    simpl in Hthrow. injection Hthrow as _ <-. eexists. split; [| reflexivity].
    assert (0 <= windowEnd lim (currentBucket lim now identifier) - now) as Hms.
    { unfold currentBucket.
      destruct (buckets lim !! identifier) as [b|].
      - destruct (Z.ltb_spec now (windowEnd lim b)); [lia |].
        unfold windowEnd. simpl. lia.
      - unfold windowEnd. simpl. lia. }
    pose proof (RateLimitFacts.retrySecs_positive _ Hms). lia.
  - destruct Hcfg. unfold RateLimit.configuredOperations. simpl. apply elem_of_cons. by left.
Qed.

Section WithHost.
Context {host : JsString.Host}.

(** X27: on every host, a document is accepted exactly when it has
    between 200 and 10000 UTF-16 code units and the text the host's
    [toLowerCase] makes of it contains at least one of
    "experience", "skill" and "education"; every rejection is an
    [AppError] of status 400 with the code INTERNAL_ERROR. *)
Theorem validateDocumentContent_accepts content :
  (validateDocumentContent content = Return tt
   <-> 200 <= Z.of_nat (JsString.length16 content) <= 10000
       /\ (JsString.includes "experience" (JsString.toLowerCase content) = true
           \/ JsString.includes "skill" (JsString.toLowerCase content) = true
           \/ JsString.includes "education" (JsString.toLowerCase content) = true))
  /\ (forall e, validateDocumentContent content = Throw e ->
        exists msg, e = AppErr {| name := "AppError"; message := msg; statusCode := 400;
                                  code := "INTERNAL_ERROR"; isOperational := true |}).
Proof.
  unfold validateDocumentContent, essentialSections.
  destruct (Z.ltb_spec (Z.of_nat (JsString.length16 content)) 200) as [Hshort | Hmin].
  { split; [split; [done | lia] |]. intros e [= <-]. by eexists. }
  destruct (Z.ltb_spec 10000 (Z.of_nat (JsString.length16 content))) as [Hlong | Hmax].
  { split; [split; [done | lia] |]. intros e [= <-]. by eexists. }
  cbn [List.filter].
  destruct (JsString.includes "experience" (JsString.toLowerCase content)),
    (JsString.includes "skill" (JsString.toLowerCase content)),
    (JsString.includes "education" (JsString.toLowerCase content)); simpl;
    (split; [split; [intros H; first [discriminate H | split; [lia | auto]] | try done] |]);
    try (intros e He; discriminate He);
    try (intros e [= <-]; by eexists).
  intros [_ [H | [H | H]]]; discriminate H.
Qed.

(** A search, nested searches included, leaves the limiter in a state
    that calls of [checkLimit] reach. *)
Lemma scrapeJobs_reachable env :
  forall sh keywords location,
    RateLimit.reachable (rateLimiter sh) ->
    RateLimit.reachable (rateLimiter (fst (scrapeJobs env sh keywords location))).
Proof.
  induction env as [env IH] using Env_nested_ind. intros sh keywords location Hreach.
  rewrite ScraperFacts.scrapeJobs_unfold.
  pose proof (RateLimit.reachable_checkLimit _ (timeOfLimitCheck env) "jobSearch"
                defaultIdentifier Hreach) as H1.
  destruct (checkLimit _ _ _ _) as [rl [[]|e]]; [| done].
  cbv zeta.
  destruct (CacheService.getCachedJobSearch _ _ _ _) as [c [cached|]]; [done |].
  pose proof (ScraperFacts.scrapeSeek_outcome env {| rateLimiter := rl; cacheService := c |}
                keywords location) as Hseek.
  destruct (seekPage env _) as [[page nested]|] eqn:Hpage; rewrite Hseek.
  - unfold scrapeJobsTry. rewrite ScraperFacts.collect_seek_fulfilled.
    by apply (IH _ _ _ Hpage {| rateLimiter := rl; cacheService := c |}).
  - unfold scrapeJobsTry. by destruct (collect _).
Qed.

(** What a search throws comes from the limiter, or is the error of its
    own [catch], reached when the page of Seek has loaded. *)
Lemma scrapeJobs_throws env sh keywords location e :
  snd (scrapeJobs env sh keywords location) = Throw e ->
  (exists rl, checkLimit (rateLimiter sh) (timeOfLimitCheck env) "jobSearch"
                defaultIdentifier = (rl, Throw e))
  \/ (e = AppErr (ScrapingError "Failed to scrape jobs from all sources")
      /\ exists page nested,
           seekPage env (buildSeekUrl keywords location) = Some (page, nested)).
Proof.
  intros Hthrow.
  destruct (checkLimit (rateLimiter sh) (timeOfLimitCheck env) "jobSearch" defaultIdentifier)
    as [rl [[]|e']] eqn:Hlimit.
  - destruct (CacheService.getCachedJobSearch (cacheService sh) (timeOfCacheRead env)
                (JsString.join "," keywords ++ ":" ++ location) location)
      as [c [cached|]] eqn:Hmiss.
    + rewrite ScraperFacts.scrapeJobs_unfold, Hlimit in Hthrow. cbv zeta in Hthrow.
      by rewrite Hmiss in Hthrow.
    + pose proof (ScraperFacts.scrapeJobs_fetch env sh keywords location rl c Hlimit Hmiss)
        as Hfetch.
      destruct (seekPage env _) as [[page nested]|].
      * rewrite Hfetch in Hthrow. injection Hthrow as <-. right. split; [done |]. by eexists _, _.
      * cbv zeta in Hfetch. by rewrite Hfetch in Hthrow.
  - rewrite ScraperFacts.scrapeJobs_unfold, Hlimit in Hthrow. injection Hthrow as <-.
    left. by exists rl.
Qed.

(** X28: [handleError] returns an [AppError] unchanged, so it may be
    applied twice without harm, and gives status 500 and the code
    UNKNOWN_ERROR to anything else.  An error that leaves a search, on
    a rate limiter that the program has constructed and used, reaches the
    interface unchanged and is one of two: a [RateLimitError], of status
    429, that names a wait of at least one second, or the
    [ScrapingError] "Failed to scrape jobs from all sources", of status
    503, which is thrown only when the page of Seek has loaded. *)
Theorem handleError_of_search env sh keywords location e :
  RateLimit.reachable (rateLimiter sh) ->
  snd (scrapeJobs env sh keywords location) = Throw e ->
  (forall error, handleError (ThrownError (AppErr (handleError error))) = handleError error)
  /\ (forall error, (forall a, error <> ThrownError (AppErr a)) ->
        statusCode (handleError error) = 500 /\ code (handleError error) = "UNKNOWN_ERROR")
  /\ AppErr (handleError (ThrownError e)) = e
  /\ ((exists secs, 1 <= secs
         /\ handleError (ThrownError e) = RateLimitError (rateLimitMessage secs)
         /\ statusCode (handleError (ThrownError e)) = 429)
      \/ (handleError (ThrownError e)
            = ScrapingError "Failed to scrape jobs from all sources"
          /\ statusCode (handleError (ThrownError e)) = 503
          /\ exists page nested,
               seekPage env (buildSeekUrl keywords location) = Some (page, nested))).
Proof.
  intros Hreach Hthrow. split; [by intros [[msg|a]|] |]. split.
  { intros [[msg|a]|] Hnot; try done. by destruct (Hnot a). }
  apply scrapeJobs_throws in Hthrow as [[rl Hlimit] | [-> Hpage]].
  - destruct (checkLimit_refusal _ _ _ _ _ Hreach Hlimit) as (secs & Hsecs & ->).
    split; [reflexivity |]. left. by exists secs.
  - split; [reflexivity |]. by right.
Qed.

End WithHost.

#[local] Existing Instance JsString.asciiHost.

Lemma handleError_of_search_witness :
  AppErr (handleError (ThrownError (AppErr (ScrapingError
                                              "Failed to scrape jobs from all sources"))))
  = AppErr (ScrapingError "Failed to scrape jobs from all sources").
Proof.
  refine (proj1 (proj2 (proj2 (handleError_of_search Search.seekLoadedEnv initial ["dev"]
                                 "Australia" _ _ _)))).
  - constructor.
  - vm_compute. reflexivity.
Defined.


(** X29: updating the status of a posting keeps the list's length,
    order and identifiers, gives the new status to every posting with
    that identifier and leaves every other posting as it is; an
    identifier that is not in the list changes nothing; and of two
    updates of the same identifier the later one prevails. *)
Theorem updateJobStatus_marks jobId status jobs :
  id <$> updateJobStatus jobId status jobs = id <$> jobs
  /\ Forall2 (fun job job' =>
                if String.eqb (id job) jobId
                then applicationStatus job' = status
                     /\ withStatus job' (applicationStatus job) = job
                else job' = job)
             jobs (updateJobStatus jobId status jobs)
  /\ (jobId ∉ id <$> jobs -> updateJobStatus jobId status jobs = jobs)
  /\ (forall earlier,
        updateJobStatus jobId status (updateJobStatus jobId earlier jobs)
        = updateJobStatus jobId status jobs).
Proof.
  unfold updateJobStatus. repeat split.
  - induction jobs as [|job rest IH]; [done |]. rewrite !fmap_cons. simpl. f_equal; [| exact IH].
    by destruct (String.eqb (id job) jobId).
  - induction jobs as [|job rest IH]; [constructor |]. simpl. constructor; [| exact IH].
    destruct (String.eqb (id job) jobId); [| done].
    split; [done |]. by destruct job.
  - induction jobs as [|job rest IH]; [done |]. rewrite fmap_cons.
    intros [Hne Hrest]%not_elem_of_cons. simpl. rewrite (IH Hrest).
    by destruct (String.eqb_spec (id job) jobId) as [Heq | _]; [congruence |].
  - intros earlier. rewrite map_map. apply map_ext. intros job.
    destruct (String.eqb (id job) jobId) eqn:Heq; simpl; by rewrite Heq.
Qed.



End InterfaceLaws.

(** ** Looking a posting up by its identifier *)

Module LookupLaws.
Import JobScraperService.

Section WithHost.
Context {host : JsString.Host}.

(** X16: [getJobDetails(jobId)] never fails: it runs one search for
    "software", "developer", "engineer" in Australia, with that search's
    effect on the limiter and the cache; a posting it returns belongs to
    the result of that search and has the identifier asked for; it
    returns nothing exactly when the search fails or its result has no
    posting of that identifier, so that a lookup refused by the rate
    limiter looks like a posting that does not exist. *)
Theorem getJobDetailsById_answers env sh jobId :
  fst (getJobDetailsById env sh jobId)
  = fst (scrapeJobs env sh ["software"; "developer"; "engineer"] "Australia")
  /\ (forall job, snd (getJobDetailsById env sh jobId) = Some job ->
        id job = jobId
        /\ exists jobs,
             snd (scrapeJobs env sh ["software"; "developer"; "engineer"] "Australia")
             = Return jobs
             /\ job ∈ jobs)
  /\ (snd (getJobDetailsById env sh jobId) = None
      <-> (exists e, snd (scrapeJobs env sh ["software"; "developer"; "engineer"] "Australia")
                     = Throw e)
          \/ (exists jobs,
                snd (scrapeJobs env sh ["software"; "developer"; "engineer"] "Australia")
                = Return jobs
                /\ jobId ∉ id <$> jobs))
  /\ (forall rl e,
        checkLimit (rateLimiter sh) (timeOfLimitCheck env) "jobSearch" defaultIdentifier
        = (rl, Throw e) ->
        snd (getJobDetailsById env sh jobId) = None).
Proof.
  unfold getJobDetailsById, getJobDetails, getJobDetailsWith, idIs.
  split; [| split; [| split]].
  - by destruct (scrapeJobs env sh _ "Australia") as [sh' [jobs|e]].
  - intros job. destruct (scrapeJobs env sh _ "Australia") as [sh' [jobs|e]]; [| done].
    simpl. intros [Hin Hid%String.eqb_eq]%find_some.
    split; [exact Hid |]. exists jobs. split; [reflexivity | by apply list_elem_of_In].
  - destruct (scrapeJobs env sh _ "Australia") as [sh' [jobs|e]]; simpl.
    + split.
      * intros Hnone. right. exists jobs. split; [reflexivity |].
        intros (job & Hid & Hin)%list_elem_of_fmap.
        pose proof (find_none _ _ Hnone job (proj1 (list_elem_of_In _ _) Hin)) as Hne.
        simpl in Hne. rewrite <- Hid, String.eqb_refl in Hne. discriminate.
      * intros [[e He] | (jobs' & [= <-] & Hnot)]; [discriminate |].
        destruct (find _ jobs) as [job|] eqn:Hfound; [| reflexivity].
        apply find_some in Hfound as [Hin Hid%String.eqb_eq]. destruct Hnot.
        rewrite <- Hid. by apply list_elem_of_fmap_2, list_elem_of_In.
    + split; [| done]. intros _. left. by exists e.
  - intros rl e Hlimit. by rewrite ScraperFacts.scrapeJobs_unfold, Hlimit.
Qed.

End WithHost.

End LookupLaws.
